(** * websocket-chat-app: the connection registry and the message router

    A shallow embedding of [src/main.py]: the [ConnectionManager] class
    (lines 341-475) and the per-connection handler [websocket_endpoint]
    (lines 683-806), together with the database helpers they call.

    Python dictionaries are insertion-ordered association lists, because
    the order of [active_connections] is the order in which [broadcast]
    writes to the sockets and the order of [get_active_users].  Every
    effect of the code (a frame written to a socket, a row appended to the
    [messages] table, a socket closed, the [is_online] flag updated) is
    recorded in one trace, so that orderings between persistence and
    delivery can be stated.  Exceptions are values of the monad.

    A call of the registry is first given as it runs with no other handler
    in between.  The module [Interleaved] has [broadcast] and [connect]
    with the teardown of another connection running at their [await]s,
    and the handshake that fails.

    The module [Accounts] embeds the password and session helpers (lines
    90-263) and the register, login and logout endpoints (lines 484-676)
    over the [users] and [user_sessions] tables. *)

From Stdlib Require Import List String ZArith QArith Bool Arith Lia.
Import ListNotations.
Local Open Scope string_scope.
Local Open Scope list_scope.
Local Open Scope nat_scope.

Set Implicit Arguments.

(* ===================================================================== *)
(** ** Python dictionaries with string keys *)
(* ===================================================================== *)

Section Dict.
Variable V : Type.

Definition dict := list (string * V).

(** [d.get(k)] *)
Fixpoint dict_get (k : string) (d : dict) : option V :=
  match d with
  | [] => None
  | (k', v) :: rest => if String.eqb k' k then Some v else dict_get k rest
  end.

(** [k in d] *)
Definition dict_mem (k : string) (d : dict) : bool :=
  match dict_get k d with Some _ => true | None => false end.

(** [d[k] = v]: an existing key keeps its position, a new one goes last. *)
Fixpoint dict_set (k : string) (v : V) (d : dict) : dict :=
  match d with
  | [] => [(k, v)]
  | (k', v') :: rest =>
      if String.eqb k' k then (k, v) :: rest else (k', v') :: dict_set k v rest
  end.

(** [del d[k]] on a key that is present (the callers test membership, or
    raise [KeyError], before they get here). *)
Definition dict_del (k : string) (d : dict) : dict :=
  filter (fun kv => negb (String.eqb (fst kv) k)) d.

Definition keys (d : dict) : list string := map fst d.
Definition values (d : dict) : list V := map snd d.
End Dict.

Arguments dict_get {V} k d.
Arguments dict_mem {V} k d.
Arguments dict_set {V} k v d.
Arguments dict_del {V} k d.
Arguments keys {V} d.
Arguments values {V} d.

(* ===================================================================== *)
(** ** Values decoded by [json.loads] *)
(* ===================================================================== *)

#[warnings="-register-all"] Inductive json : Type :=
| JNull
| JBool (b : bool)
| JInt (z : Z)
| JNum (q : Q)
| JStr (s : string)
| JArr (items : list json)
| JObj (fields : list (string * json)).

(** Python truthiness, as used by [if recipient:].  [JInt] is an [int]
    (a number written without fraction or exponent) and [JNum] a [float];
    a zero integer and a zero float are both falsy. *)
Definition truthy (v : json) : bool :=
  match v with
  | JNull => false
  | JBool b => b
  | JInt z => negb (Z.eqb z 0)
  | JNum q => negb (Z.eqb (Qnum q) 0)
  | JStr s => negb (String.eqb s "")
  | JArr items => match items with [] => false | _ => true end
  | JObj fields => match fields with [] => false | _ => true end
  end.

(** Truthiness of a Python [str] and of a Python [int]. *)
Definition str_truthy (s : string) : bool := negb (String.eqb s "").
Definition int_truthy (n : Z) : bool := negb (Z.eqb n 0).

(** [v == s] for a string literal [s]. *)
Definition is_str (v : json) (s : string) : bool :=
  match v with JStr s' => String.eqb s' s | _ => false end.

(** [v is None] *)
Definition is_none (v : json) : bool :=
  match v with JNull => true | _ => false end.

(** A Python [str] is held as its UTF-8 bytes.  [json.loads] makes a lone
    surrogate of an escape such as ["\ud800"]; UTF-8 has no encoding for
    it, and it is held as the three bytes [ED A0..BF 80..BF] that the
    [surrogatepass] handler writes.  [encodable s] says that
    [s.encode('utf-8')] does not raise: no byte [ED] is followed by a byte
    from [A0] on. *)
Fixpoint encodable (s : string) : bool :=
  match s with
  | EmptyString => true
  | String c rest =>
      match rest with
      | String d _ =>
          if N.eqb (Ascii.N_of_ascii c) 237 && N.leb 160 (Ascii.N_of_ascii d)
          then false else encodable rest
      | EmptyString => true
      end
  end.

(** [print(f"... {v} ...")] on the UTF-8 standard output the messages of
    the program need: a [str] is written as it is, and the write raises
    [UnicodeEncodeError] when it cannot be encoded; a number, a boolean
    and [None] are written in ASCII, like the [repr] of a list or of an
    object. *)
Definition printable (v : json) : bool :=
  match v with JStr s => encodable s | _ => true end.

(** An [int] sqlite3 can bind: it fits in 64 bits. *)
Definition sqlite_integer (z : Z) : bool :=
  Z.leb (- 2 ^ 63) z && Z.ltb z (2 ^ 63).

(* ===================================================================== *)
(** ** Data of the registry and of the wire *)
(* ===================================================================== *)

(** A [WebSocket] object, by identity. *)
Definition websocket := nat.
Definition session_token := string.

(** [user_info = {"id": ..., "username": ...}] *)
Record user_info : Type := mk_user_info {
  ui_id : Z;
  ui_username : string
}.

Record ConnectionManager : Type := mk_manager {
  active_connections : dict websocket;
  user_sessions : dict user_info;
  username_to_session : dict session_token
}.

(** [ConnectionManager.__init__] *)
Definition manager_init : ConnectionManager :=
  {| active_connections := []; user_sessions := []; username_to_session := [] |}.

(** The three texts of the ["error"] envelope. *)
Inductive error_message : Type :=
| InvalidMessageFormat
| UserNotFound (recipient : json)
| FailedToSaveMessage.

(** The dictionaries handed to [json.dumps], by their ["type"]. *)
Inductive envelope : Type :=
| Error (message : error_message)
| Chat (content : json) (sender : string) (timestamp : string)
       (is_global : bool) (recipient : json)
| ChatSent (content : json) (sender : string) (timestamp : string)
           (is_global : bool) (recipient : json) (delivered : bool)
| Typing (username : string) (is_typing : json) (recipient : json)
| UserListUpdate (users : list string) (message : option string)
                 (timestamp : string).

Inductive exn : Type :=
| WebSocketDisconnect
| TransportError
| KeyError
| TypeError
| AttributeError
| RuntimeError
| DatabaseError
| UnicodeEncodeError
| OverflowError
| RecursionError.

(** What the code does to the outside, in order. [ok = false] on a
    [SendText] or a [SaveMessage] is an attempt that raised. *)
Inductive event : Type :=
| Accept (ws : websocket)
| Close (ws : websocket) (code : option nat)
| SendText (ws : websocket) (payload : envelope) (ok : bool)
| SaveMessage (content : json) (sender_id : Z) (recipient_id : option Z)
              (ok : bool)
| SetOnline (user_id : Z) (is_online : bool).

Record world : Type := mk_world {
  manager : ConnectionManager;
  trace : list event
}.

Definition world_init : world := {| manager := manager_init; trace := [] |}.

(** A row of the [users] table, as [get_user_by_username] selects it. *)
Record user_row : Type := mk_user_row {
  row_id : Z;
  row_username : string
}.

(** The collaborators the code does not own.  The number handed to the
    oracles is the length of the trace when they are asked, so a socket or
    the store may fail at one moment and work at the next. *)
Record Env : Type := mk_env {
  (** the [users] table *)
  users : list user_row;
  (** [verify_session_token]: the live row of [user_sessions] joined with
      [users], if the token is active and unexpired *)
  sessions : list (session_token * user_info);
  (** [Some e]: [send_text] on this socket raises [e] now *)
  send_fault : nat -> websocket -> option exn;
  (** [true]: the INSERT of [save_message] raises now for this content (the
      database cannot be written, or the content is not a value sqlite3
      binds to the NOT NULL text column) *)
  store_fault : nat -> json -> bool;
  (** [datetime.utcnow().isoformat()] *)
  clock : nat -> string;
  (** the TEXT value sqlite3 compares with the [username] column when a
      number or a boolean is bound as the query parameter *)
  sql_text : json -> string
}.

(* ===================================================================== *)
(** ** State and exceptions *)
(* ===================================================================== *)

Inductive result (A : Type) : Type :=
| Ok (a : A)
| Raise (e : exn).

Arguments Ok {A} a.
Arguments Raise {A} e.

Definition M (A : Type) : Type := world -> result A * world.

Definition ret {A} (a : A) : M A := fun w => (Ok a, w).

Definition bind {A B} (m : M A) (f : A -> M B) : M B :=
  fun w => match m w with
           | (Ok a, w') => f a w'
           | (Raise e, w') => (Raise e, w')
           end.

Definition raise {A} (e : exn) : M A := fun w => (Raise e, w).

(** [try: m  except Exception as e: h e] *)
Definition try_except {A} (m : M A) (h : exn -> M A) : M A :=
  fun w => match m w with
           | (Ok a, w') => (Ok a, w')
           | (Raise e, w') => h e w'
           end.

Declare Scope py_scope.
Delimit Scope py_scope with py.
Notation "x <- m ;; k" := (bind m (fun x => k))
  (at level 61, m at next level, right associativity) : py_scope.
Notation "m ;; k" := (bind m (fun _ => k))
  (at level 61, right associativity) : py_scope.
Local Open Scope py_scope.

Definition get_manager : M ConnectionManager := fun w => (Ok (manager w), w).

Definition put_manager (m : ConnectionManager) : M unit :=
  fun w => (Ok tt, {| manager := m; trace := trace w |}).

Definition emit (e : event) : M unit :=
  fun w => (Ok tt, {| manager := manager w; trace := trace w ++ [e] |}).

(** [for x in xs: body x] *)
Fixpoint for_each {A} (xs : list A) (body : A -> M unit) : M unit :=
  match xs with
  | [] => ret tt
  | x :: rest => body x ;; for_each rest body
  end.

(* ===================================================================== *)
(** ** The collaborators: transport and database *)
(* ===================================================================== *)

Section Program.
Variable E : Env.

(** [await websocket.accept()] when the handshake succeeds;
    [Interleaved.connect] has the handshake that fails. *)
Definition accept (ws : websocket) : M unit := emit (Accept ws).

(** [await websocket.close(...)].  The event records the call; [connect]
    discards whatever the call raises (lines 365-368). *)
Definition close (ws : websocket) (code : option nat) : M unit :=
  emit (Close ws code).

(** [await websocket.send_text(json.dumps(payload))] *)
Definition send_text (ws : websocket) (payload : envelope) : M unit :=
  fun w =>
    match send_fault E (List.length (trace w)) ws with
    | None => emit (SendText ws payload true) w
    | Some e => (emit (SendText ws payload false) ;; raise e) w
    end.

(** [datetime.utcnow().isoformat()] *)
Definition utcnow : M string :=
  fun w => (Ok (clock E (List.length (trace w))), w).

(** [verify_session_token] (lines 243-263) *)
Definition verify_session_token (token : session_token) : option user_info :=
  dict_get token (sessions E).

(** [set_user_online_status] (lines 265-275).  The id it binds is an
    integer read from the database. *)
Definition set_user_online_status (user_id : Z) (is_online : bool) : M unit :=
  emit (SetOnline user_id is_online).

(** What [cursor.execute] raises when [v] is bound as a parameter: a list
    or an object is no type sqlite3 supports, an [int] must fit in 64 bits
    and a [str] must be encodable. *)
Definition bind_error (v : json) : option exn :=
  match v with
  | JArr _ | JObj _ => Some DatabaseError
  | JInt z => if sqlite_integer z then None else Some OverflowError
  | JStr s => if encodable s then None else Some UnicodeEncodeError
  | JNull | JBool _ | JNum _ => None
  end.

(** [get_user_by_username] (lines 277-286): [SELECT ... WHERE username = ?]
    and [fetchone], with whatever the frame gave as the parameter. *)
Definition get_user_by_username (username : json) : M (option user_row) :=
  let fetchone (text : string) :=
    find (fun row => String.eqb (row_username row) text) (users E) in
  match bind_error username with
  | Some e => raise e
  | None =>
      match username with
      | JStr s => ret (fetchone s)
      | JNull => ret None
      | _ => ret (fetchone (sql_text E username))
      end
  end.

(** [save_message] (lines 299-316).  No caller uses the row id. *)
Definition save_message (content : json) (sender_id : Z)
           (recipient_id : option Z) : M unit :=
  fun w =>
    if store_fault E (List.length (trace w)) content
    then (emit (SaveMessage content sender_id recipient_id false) ;;
          raise DatabaseError) w
    else emit (SaveMessage content sender_id recipient_id true) w.

(* =================================================================== *)
(** ** ConnectionManager (lines 341-475) *)
(* =================================================================== *)

(** [del self.active_connections[k]] and its two siblings: [KeyError] when
    the key is absent. *)
Definition del_active (k : session_token) : M unit :=
  m <- get_manager ;;
  if dict_mem k (active_connections m)
  then put_manager {| active_connections := dict_del k (active_connections m);
                      user_sessions := user_sessions m;
                      username_to_session := username_to_session m |}
  else raise KeyError.

Definition del_session (k : session_token) : M unit :=
  m <- get_manager ;;
  if dict_mem k (user_sessions m)
  then put_manager {| active_connections := active_connections m;
                      user_sessions := dict_del k (user_sessions m);
                      username_to_session := username_to_session m |}
  else raise KeyError.

Definition del_username (k : string) : M unit :=
  m <- get_manager ;;
  if dict_mem k (username_to_session m)
  then put_manager {| active_connections := active_connections m;
                      user_sessions := user_sessions m;
                      username_to_session := dict_del k (username_to_session m) |}
  else raise KeyError.

(** [disconnect] (lines 386-408) *)
Definition disconnect (token : session_token) : M (option string) :=
  m <- get_manager ;;
  if dict_mem token (active_connections m) then
    let user_info := dict_get token (user_sessions m) in
    let username :=
      match user_info with Some ui => ui_username ui | None => "Unknown" end in
    let user_id :=
      match user_info with Some ui => Some (ui_id ui) | None => None end in
    del_active token ;;
    del_session token ;;
    m' <- get_manager ;;
    (if dict_mem username (username_to_session m')
     then del_username username else ret tt) ;;
    match user_id with
    | Some uid =>
        if int_truthy uid then set_user_online_status uid false else ret tt
    | None => ret tt
    end ;;
    ret (Some username)
  else ret None.

(** Lines 433-434: [if exclude_session and session_token == exclude_session]. *)
Definition excluded (exclude_session : option session_token)
           (token : session_token) : bool :=
  match exclude_session with
  | Some x => str_truthy x && String.eqb token x
  | None => false
  end.

(** The loop of [broadcast] (lines 432-442) over the items of
    [active_connections].  The loop body does not touch the registry, so
    when no other coroutine runs in between, the items it meets are those
    present when the loop starts ([Interleaved.live_sweep] below is the
    same loop with the dictionary read again at every step). *)
Fixpoint sweep (message : envelope) (exclude_session : option session_token)
         (items : list (session_token * websocket))
         (failed_sessions : list session_token) : M (list session_token) :=
  match items with
  | [] => ret failed_sessions
  | (token, ws) :: rest =>
      if excluded exclude_session token
      then sweep message exclude_session rest failed_sessions
      else
        failed <- try_except
                    (send_text ws message ;; ret failed_sessions)
                    (fun _ => ret (failed_sessions ++ [token])) ;;
        sweep message exclude_session rest failed
  end.

(** [broadcast] (lines 426-446) *)
Definition broadcast (message : envelope)
           (exclude_session : option session_token) : M unit :=
  m <- get_manager ;;
  failed_sessions <- sweep message exclude_session (active_connections m) [] ;;
  for_each failed_sessions (fun token => disconnect token ;; ret tt).

(** [get_active_users] (lines 465-467) *)
Definition get_active_users : M (list string) :=
  m <- get_manager ;;
  ret (map ui_username (values (user_sessions m))).

(** [broadcast_user_list_update] (lines 448-463) *)
Definition broadcast_user_list_update (message : option string) : M unit :=
  online_users <- get_active_users ;;
  now <- utcnow ;;
  broadcast (UserListUpdate online_users message now) None.

(** The first half of [connect] (lines 361-370): the old session of the
    same username, if it is still registered, is closed and removed.
    This is the code with no other handler running while [close] is
    awaited; [Interleaved.evict_old_session] has the teardown of the
    closed connection running there. *)
Definition evict_old_session (username : string) : M unit :=
  m <- get_manager ;;
  match dict_get username (username_to_session m) with
  | Some old_session =>
      match dict_get old_session (active_connections m) with
      | Some old_ws =>
          try_except (close old_ws None) (fun _ => ret tt) ;;
          del_active old_session ;;
          del_session old_session
      | None => ret tt
      end
  | None => ret tt
  end.

(** The second half (lines 372-375): the three stores. *)
Definition install_session (ws : websocket) (token : session_token)
           (ui : user_info) : M unit :=
  m <- get_manager ;;
  put_manager
    {| active_connections := dict_set token ws (active_connections m);
       user_sessions := dict_set token ui (user_sessions m);
       username_to_session :=
         dict_set (ui_username ui) token (username_to_session m) |}.

(** [connect] (lines 354-384) *)
Definition connect (ws : websocket) (token : session_token)
           (ui : user_info) : M unit :=
  accept ws ;;
  let username := ui_username ui in
  let user_id := ui_id ui in
  evict_old_session username ;;
  install_session ws token ui ;;
  set_user_online_status user_id true ;;
  broadcast_user_list_update (Some (username ++ " joined the chat")%string).

(** [self.username_to_session.get(username)] with the key the router
    passes: a list or an object is unhashable, a number, a boolean or
    [None] equals no string key. *)
Definition session_of (username : json) : M (option session_token) :=
  m <- get_manager ;;
  match username with
  | JStr s => ret (dict_get s (username_to_session m))
  | JArr _ | JObj _ => raise TypeError
  | JNull | JBool _ | JInt _ | JNum _ => ret None
  end.

(** Line 423: [print(f"... User {username} not connected")]. *)
Definition print_not_connected (username : json) : M unit :=
  if printable username then ret tt else raise UnicodeEncodeError.

(** [send_personal_message] (lines 410-424).  The [print] of line 419
    writes a username that is a key of [username_to_session], which
    [verify_session_token] read from the database: it is encodable. *)
Definition send_personal_message (message : envelope) (username : json)
  : M bool :=
  found <- session_of username ;;
  m <- get_manager ;;
  match found with
  | Some token =>
      match str_truthy token, dict_get token (active_connections m) with
      | true, Some ws =>
          try_except
            (send_text ws message ;; ret true)
            (fun _ => disconnect token ;; ret false)
      | _, _ => print_not_connected username ;; ret false
      end
  | None => print_not_connected username ;; ret false
  end.

(** [is_user_online] (lines 469-471) *)
Definition is_user_online (username : string) : M bool :=
  m <- get_manager ;; ret (dict_mem username (username_to_session m)).

(* =================================================================== *)
(** ** The router: [websocket_endpoint] (lines 683-806) *)
(* =================================================================== *)

(** [message_data.get(key, default)]: only a decoded object has [get]. *)
Definition frame_get (message_data : json) (key : string) (default : json)
  : M json :=
  match message_data with
  | JObj fields =>
      ret (match dict_get key fields with Some v => v | None => default end)
  | _ => raise AttributeError
  end.

(** Lines 748-773: what follows a successful [save_message]. *)
Definition deliver (ws : websocket) (ui : user_info) (content recipient : json)
  : M unit :=
  now <- utcnow ;;
  let broadcast_message :=
    Chat content (ui_username ui) now (is_none recipient) recipient in
  if is_none recipient then
    broadcast broadcast_message None
  else
    success <- send_personal_message broadcast_message recipient ;;
    send_text ws (ChatSent content (ui_username ui) now
                           (is_none recipient) recipient success).

(** Lines 737-773: persist, then deliver. *)
Definition persist_and_deliver (ws : websocket) (ui : user_info)
           (content recipient : json) (recipient_id : option Z) : M unit :=
  saved <- try_except
             (save_message content (ui_id ui) recipient_id ;; ret true)
             (fun _ => send_text ws (Error FailedToSaveMessage) ;; ret false) ;;
  if saved : bool then deliver ws ui content recipient else ret tt.

(** Lines 723-773: the ["chat"] branch. *)
Definition handle_chat (ws : websocket) (ui : user_info)
           (content recipient : json) : M unit :=
  if truthy recipient then
    recipient_user <- get_user_by_username recipient ;;
    match recipient_user with
    | Some row => persist_and_deliver ws ui content recipient (Some (row_id row))
    | None => send_text ws (Error (UserNotFound recipient))
    end
  else persist_and_deliver ws ui content recipient None.

(** Lines 775-787: the ["typing"] branch. *)
Definition handle_typing (token : session_token) (ui : user_info)
           (message_data recipient : json) : M unit :=
  is_typing <- frame_get message_data "is_typing" (JBool false) ;;
  let typing_message := Typing (ui_username ui) is_typing recipient in
  if truthy recipient then
    send_personal_message typing_message recipient ;; ret tt
  else broadcast typing_message (Some token).

(** Lines 709-791: one turn of the read loop, after [receive_text].
    [data] is what [json.loads] made of the text, [None] when it raised
    [JSONDecodeError]. *)
Definition handle_frame (ws : websocket) (token : session_token)
           (ui : user_info) (data : option json) : M unit :=
  match data with
  | None => send_text ws (Error InvalidMessageFormat)
  | Some message_data =>
      message_type <- frame_get message_data "type" (JStr "chat") ;;
      content <- frame_get message_data "content" (JStr "") ;;
      recipient <- frame_get message_data "recipient" JNull ;;
      if is_str message_type "chat" then
        handle_chat ws ui content recipient
      else if is_str message_type "typing" then
        handle_typing token ui message_data recipient
      else if is_str message_type "request_user_list" then
        broadcast_user_list_update None
      else ret tt
  end.

(** What [await websocket.receive_text()] gives: a text, or an exception
    ([WebSocketDisconnect] when the peer has gone).  A text is given by
    what [json.loads] makes of it: [Text None] when it raises
    [JSONDecodeError], and [Unparsed e] when it raises something else
    ([RecursionError] on a text nested too deep). *)
Inductive received : Type :=
| Text (data : option json)
| Unparsed (e : exn)
| Failure (e : exn).

(** Lines 705-791: [while True].  The loop is run on the frames that
    arrive; with none left it is waiting in [receive_text]. *)
Fixpoint serve (ws : websocket) (token : session_token) (ui : user_info)
         (inbox : list received) : M unit :=
  match inbox with
  | [] => ret tt
  | Text data :: rest => handle_frame ws token ui data ;; serve ws token ui rest
  | Unparsed e :: _ => raise e
  | Failure e :: _ => raise e
  end.

(** The reason text of the two [except] clauses (lines 799 and 806). *)
Definition departure_reason (e : exn) (username : string) : string :=
  match e with
  | WebSocketDisconnect => (username ++ " left the chat")%string
  | _ => (username ++ " disconnected due to error")%string
  end.

(** Lines 793-806: the two [except] clauses. *)
Definition teardown (e : exn) (token : session_token) : M unit :=
  username <- disconnect token ;;
  match username with
  | Some name =>
      if str_truthy name then
        broadcast_user_list_update (Some (departure_reason e name))
      else ret tt
  | None => ret tt
  end.

Definition websocket_endpoint (ws : websocket) (token : session_token)
           (inbox : list received) : M unit :=
  match verify_session_token token with
  | None => close ws (Some 4001)
  | Some session_info =>
      let ui := {| ui_id := ui_id session_info;
                   ui_username := ui_username session_info |} in
      connect ws token ui ;;
      try_except (serve ws token ui inbox) (fun e => teardown e token)
  end.

(* =================================================================== *)
(** ** Sequences of registry calls *)
(* =================================================================== *)

(** The two calls that admit and remove. *)
Inductive registry_op : Type :=
| Admit (ws : websocket) (token : session_token) (ui : user_info)
| Remove (token : session_token).

(** Every call that can change the three dictionaries. *)
Inductive manager_op : Type :=
| CallConnect (ws : websocket) (token : session_token) (ui : user_info)
| CallDisconnect (token : session_token)
| CallSendPersonal (message : envelope) (username : json)
| CallBroadcast (message : envelope) (exclude_session : option session_token).

Definition call (op : manager_op) : M unit :=
  match op with
  | CallConnect ws token ui => connect ws token ui
  | CallDisconnect token => disconnect token ;; ret tt
  | CallSendPersonal message username =>
      send_personal_message message username ;; ret tt
  | CallBroadcast message exclude_session => broadcast message exclude_session
  end.

Definition as_call (op : registry_op) : manager_op :=
  match op with
  | Admit ws token ui => CallConnect ws token ui
  | Remove token => CallDisconnect token
  end.

(** The calls come from different handlers: one that raises does not
    stop the next. *)
Fixpoint run_calls (ops : list manager_op) (w : world) : world :=
  match ops with
  | [] => w
  | op :: rest => run_calls rest (snd (call op w))
  end.

End Program.

(* ===================================================================== *)
(** ** [broadcast] and [connect] with other handlers running at their
    [await]s *)
(* ===================================================================== *)

Module Interleaved.

(** What [next] gives on the iterator of [active_connections.items()]. *)
Inductive iter_step : Type :=
| Yield (token : session_token) (ws : websocket)
| Stop
| SizeChanged.

(** The iterator keeps the size the dictionary had when the loop began
    ([di_used]) and its position ([di_pos]); [next] raises [RuntimeError]
    when the size is no longer the same.  The position is read in the
    entries as they are now: the only interference below is a removal, so
    an unchanged size means an unchanged dictionary. *)
Definition dictiter_next (di_used di_pos : nat) (d : dict websocket)
  : iter_step :=
  if Nat.eqb (List.length d) di_used then
    match nth_error d di_pos with
    | Some (token, ws) => Yield token ws
    | None => Stop
    end
  else SizeChanged.

(** While [send_text] is awaited the event loop may run the teardown of
    another connection, which calls [manager.disconnect]. *)
Definition meanwhile (other : option session_token) : M unit :=
  match other with
  | Some token => bind (disconnect token) (fun _ => ret tt)
  | None => ret tt
  end.

(** Lines 432-442 with the dictionary read at every step.  [others] says,
    send by send, whose teardown runs during that [await].  The iterator
    stops or raises within [di_used + 1] steps, which is the [fuel]
    [broadcast] gives. *)
Fixpoint live_sweep (E : Env) (fuel : nat) (message : envelope)
         (exclude_session : option session_token) (di_used di_pos : nat)
         (others : list (option session_token))
         (failed_sessions : list session_token) : M (list session_token) :=
  match fuel with
  | 0 => ret failed_sessions
  | S fuel' =>
      bind get_manager (fun m =>
      match dictiter_next di_used di_pos (active_connections m) with
      | SizeChanged => raise RuntimeError
      | Stop => ret failed_sessions
      | Yield token ws =>
          if excluded exclude_session token then
            live_sweep E fuel' message exclude_session di_used (S di_pos)
                       others failed_sessions
          else
            bind (try_except
                    (bind (send_text E ws message) (fun _ => ret failed_sessions))
                    (fun _ => ret (failed_sessions ++ [token])))
                 (fun failed =>
            bind (meanwhile (hd None others)) (fun _ =>
            live_sweep E fuel' message exclude_session di_used (S di_pos)
                       (tl others) failed))
      end)
  end.

(** [broadcast] (lines 426-446) under that schedule. *)
Definition broadcast (E : Env) (message : envelope)
           (exclude_session : option session_token)
           (others : list (option session_token)) : M unit :=
  bind get_manager (fun m =>
  let n := List.length (active_connections m) in
  bind (live_sweep E (S n) message exclude_session n 0 others [])
       (fun failed_sessions =>
  for_each failed_sessions
           (fun token => bind (disconnect token) (fun _ => ret tt)))).

(** [broadcast_user_list_update] (lines 448-463) under that schedule. *)
Definition broadcast_user_list_update (E : Env) (message : option string)
           (others : list (option session_token)) : M unit :=
  bind get_active_users (fun online_users =>
  bind (utcnow E) (fun now =>
  broadcast E (UserListUpdate online_users message now) None others)).

(** Lines 361-370 with the [await] of line 366.  [during_close] says whose
    teardown runs while [close] is awaited; what that handler raises is
    its own affair. *)
Definition evict_old_session (username : string)
           (during_close : option session_token) : M unit :=
  bind get_manager (fun m =>
  match dict_get username (username_to_session m) with
  | Some old_session =>
      match dict_get old_session (active_connections m) with
      | Some old_ws =>
          bind (try_except (close old_ws None) (fun _ => ret tt)) (fun _ =>
          bind (try_except (meanwhile during_close) (fun _ => ret tt)) (fun _ =>
          bind (del_active old_session) (fun _ =>
          del_session old_session)))
      | None => ret tt
      end
  | None => ret tt
  end).

(** [connect] (lines 354-384) with its awaits.  [handshake] is what
    [await websocket.accept()] raises when the handshake fails,
    [during_close] is the schedule of the eviction and [others] the
    schedule of the announcement. *)
Definition connect (E : Env) (ws : websocket) (token : session_token)
           (ui : user_info) (handshake : option exn)
           (during_close : option session_token)
           (others : list (option session_token)) : M unit :=
  match handshake with
  | Some e => raise e
  | None =>
      bind (accept ws) (fun _ =>
      bind (evict_old_session (ui_username ui) during_close) (fun _ =>
      bind (install_session ws token ui) (fun _ =>
      bind (set_user_online_status (ui_id ui) true) (fun _ =>
      broadcast_user_list_update
        E (Some (ui_username ui ++ " joined the chat")%string) others))))
  end.

End Interleaved.

(* ===================================================================== *)
(** ** What the registry is expected to keep *)
(* ===================================================================== *)

(** The registry with the entry of [token], a session of [ui], taken out:
    what [disconnect] leaves. *)
Definition forget (token : session_token) (ui : user_info)
           (m : ConnectionManager) : ConnectionManager :=
  {| active_connections := dict_del token (active_connections m);
     user_sessions := dict_del token (user_sessions m);
     username_to_session := dict_del (ui_username ui) (username_to_session m) |}.

(** The update of the [is_online] flag [disconnect] makes for [ui]. *)
Definition offline_events (ui : user_info) : list event :=
  if int_truthy (ui_id ui) then [SetOnline (ui_id ui) false] else [].

(** The three dictionaries agree. *)
Record consistent (m : ConnectionManager) : Prop := mk_consistent {
  same_keys :
    forall t, dict_mem t (active_connections m) = dict_mem t (user_sessions m);
  session_named :
    forall t ui, dict_get t (user_sessions m) = Some ui ->
                 dict_get (ui_username ui) (username_to_session m) = Some t;
  active_nodup : NoDup (keys (active_connections m));
  sessions_nodup : NoDup (keys (user_sessions m));
  names_nodup : NoDup (keys (username_to_session m))
}.

(** No registered session belongs to [username]. *)
Definition unnamed (username : string) (m : ConnectionManager) : Prop :=
  forall t ui, dict_get t (user_sessions m) = Some ui ->
               ui_username ui <> username.

(** At most one registered session for each username. *)
Definition one_session_per_username (m : ConnectionManager) : Prop :=
  forall t1 t2 ui1 ui2,
    dict_mem t1 (active_connections m) = true ->
    dict_mem t2 (active_connections m) = true ->
    dict_get t1 (user_sessions m) = Some ui1 ->
    dict_get t2 (user_sessions m) = Some ui2 ->
    ui_username ui1 = ui_username ui2 -> t1 = t2.

(** A payload that carries the chat message itself. *)
Definition carries_chat (p : envelope) : bool :=
  match p with
  | Chat _ _ _ _ _ | ChatSent _ _ _ _ _ _ => true
  | _ => false
  end.

(** The frame is a decoded object whose ["type"] is [kind], or is absent
    when [kind] is the default. *)
Definition frame_type (fields : list (string * json)) : json :=
  match dict_get "type" fields with Some v => v | None => JStr "chat" end.

Definition frame_content (fields : list (string * json)) : json :=
  match dict_get "content" fields with Some v => v | None => JStr "" end.

Definition frame_recipient (fields : list (string * json)) : json :=
  match dict_get "recipient" fields with Some v => v | None => JNull end.

(** Lines 725-735: the [recipient_id] with which the chat branch reaches
    [save_message]; [None] when it does not reach it, because the
    recipient is named and not found or because the lookup raises. *)
Definition resolved (E : Env) (recipient : json) (w : world)
  : option (option Z) :=
  if truthy recipient then
    match fst (get_user_by_username E recipient w) with
    | Ok (Some row) => Some (Some (row_id row))
    | _ => None
    end
  else Some None.

(** An [m] that leaves a property of the registry as it finds it. *)
Definition keeps {A} (I : ConnectionManager -> Prop) (m : M A) : Prop :=
  forall w, I (manager w) -> I (manager (snd (m w))).

(** An [m] that does not write to the registry at all. *)
Definition reads_only {A} (m : M A) : Prop :=
  forall w, manager (snd (m w)) = manager w.

(** An [m] whose effects on the outside all satisfy [P]. *)
Definition emits {A} (P : event -> Prop) (m : M A) : Prop :=
  forall w, exists new, trace (snd (m w)) = trace w ++ new /\ Forall P new.

Definition is_set_online (ev : event) : Prop :=
  match ev with SetOnline _ _ => True | _ => False end.

Definition not_save (ev : event) : Prop :=
  match ev with SaveMessage _ _ _ _ => False | _ => True end.

(** The connection [send_personal_message] writes to for [username]: the
    token the username index gives, if it is truthy and registered. *)
Definition live_socket (m : ConnectionManager) (username : json)
  : option (session_token * websocket) :=
  match username with
  | JStr s =>
      match dict_get s (username_to_session m) with
      | Some token =>
          if str_truthy token then
            match dict_get token (active_connections m) with
            | Some ws => Some (token, ws)
            | None => None
            end
          else None
      | None => None
      end
  | _ => None
  end.

(** A list and an object are the keys [dict.get] refuses. *)
Definition hashable (v : json) : bool :=
  match v with JArr _ | JObj _ => false | _ => true end.

(* ===================================================================== *)
(** ** Reading a trace *)
(* ===================================================================== *)

(** The writes of a trace, in order and whether delivered or not: the
    socket and the payload. *)
Fixpoint writes (t : list event) : list (websocket * envelope) :=
  match t with
  | [] => []
  | SendText ws p _ :: rest => (ws, p) :: writes rest
  | _ :: rest => writes rest
  end.

Definition is_send (ev : event) : Prop :=
  match ev with SendText _ _ _ => True | _ => False end.

(** The sockets the loop of [broadcast] writes to: those of the items it
    does not skip, in the order of the dictionary. *)
Definition recipients_of (exclude_session : option session_token)
           (items : dict websocket) : list websocket :=
  map snd (filter (fun kv => negb (excluded exclude_session (fst kv))) items).

(** [t in failed_sessions] *)
Definition listed (t : session_token) (failed : list session_token) : bool :=
  existsb (String.eqb t) failed.

(** [message_data.get("is_typing", False)] on a decoded object. *)
Definition frame_is_typing (fields : list (string * json)) : json :=
  match dict_get "is_typing" fields with Some v => v | None => JBool false end.

(** [get_active_users()] on a registry. *)
Definition active_users (m : ConnectionManager) : list string :=
  map ui_username (values (user_sessions m)).

(** The body of [websocket_endpoint] after [connect] (lines 703-806): the
    read loop inside its [try], with the two [except] clauses. *)
Definition session_loop (E : Env) (ws : websocket) (token : session_token)
           (ui : user_info) (inbox : list received) : M unit :=
  try_except (serve E ws token ui inbox) (fun e => teardown E e token).

(** A [connect] as [websocket_endpoint] makes it: with the user the token
    verifies to. *)
Definition authentic (E : Env) (op : manager_op) : Prop :=
  match op with
  | CallConnect _ token ui => verify_session_token E token = Some ui
  | _ => True
  end.

(** The username index holds nothing stale: every entry points to a stored
    session of that username, and every stored session is the one its
    token verifies to. *)
Record exact (E : Env) (m : ConnectionManager) : Prop := mk_exact {
  exact_consistent : consistent m;
  index_backed :
    forall name t, dict_get name (username_to_session m) = Some t ->
                   exists ui, dict_get t (user_sessions m) = Some ui /\
                              ui_username ui = name;
  sessions_verified :
    forall t ui, dict_get t (user_sessions m) = Some ui ->
                 verify_session_token E t = Some ui
}.

(* ===================================================================== *)
(** ** [connect], step by step *)
(* ===================================================================== *)

(** The session [connect] evicts for [username] (lines 362-364): the one
    the username index names, if it is still in [active_connections]. *)
Definition old_connection (username : string) (m : ConnectionManager)
  : option (session_token * websocket) :=
  match dict_get username (username_to_session m) with
  | Some old_session =>
      match dict_get old_session (active_connections m) with
      | Some old_ws => Some (old_session, old_ws)
      | None => None
      end
  | None => None
  end.

(** The registry after lines 361-370. *)
Definition evicted (username : string) (m : ConnectionManager)
  : ConnectionManager :=
  match old_connection username m with
  | Some (old_session, _) =>
      {| active_connections := dict_del old_session (active_connections m);
         user_sessions := dict_del old_session (user_sessions m);
         username_to_session := username_to_session m |}
  | None => m
  end.

(** The [close] of lines 365-368. *)
Definition eviction_closes (username : string) (m : ConnectionManager)
  : list event :=
  match old_connection username m with
  | Some (_, old_ws) => [Close old_ws None]
  | None => []
  end.

(** The registry after lines 372-375. *)
Definition installed (ws : websocket) (token : session_token) (ui : user_info)
           (m : ConnectionManager) : ConnectionManager :=
  {| active_connections := dict_set token ws (active_connections m);
     user_sessions := dict_set token ui (user_sessions m);
     username_to_session :=
       dict_set (ui_username ui) token (username_to_session m) |}.

(** [token] is not a registered connection. *)
Definition absent (token : session_token) (m : ConnectionManager) : Prop :=
  dict_mem token (active_connections m) = false.

(** An [m] that, started in a consistent registry, returns normally and
    leaves a consistent registry. *)
Definition sound {A} (m : M A) : Prop :=
  forall w, consistent (manager w) ->
            consistent (manager (snd (m w))) /\ exists a, fst (m w) = Ok a.

(* ===================================================================== *)
(** ** A small deployment, for the concrete runs *)
(* ===================================================================== *)

Module Example.
(** A store that takes what sqlite3 can bind to the NOT NULL column
    [content]: no [None], and nothing [cursor.execute] refuses. *)
Definition refuses (content : json) : bool :=
  match content, bind_error content with
  | JNull, _ => true
  | _, Some _ => true
  | _, None => false
  end.

(** The [str] that [json.loads] makes of the escape ["\\ud800"]. *)
Definition lone_surrogate : string :=
  String (Ascii.ascii_of_nat 237)
         (String (Ascii.ascii_of_nat 160)
                 (String (Ascii.ascii_of_nat 128) EmptyString)).

Definition alice : user_info := {| ui_id := 1; ui_username := "alice" |}.
Definition bob : user_info := {| ui_id := 2; ui_username := "bob" |}.

(** Three registered users, two of them logged in; nothing fails. *)
Definition env : Env :=
  {| users := [mk_user_row 1 "alice"; mk_user_row 2 "bob"; mk_user_row 3 "carol"];
     sessions := [("t1", alice); ("t2", bob)];
     send_fault := fun _ _ => None;
     store_fault := fun _ content => refuses content;
     clock := fun _ => "12:00";
     sql_text := fun _ => "" |}.

(** The same, with socket 2 dead: every write to it raises. *)
Definition env_bob_down : Env :=
  {| users := users env;
     sessions := sessions env;
     send_fault := fun _ ws => if Nat.eqb ws 2 then Some TransportError else None;
     store_fault := fun _ content => refuses content;
     clock := fun _ => "12:00";
     sql_text := fun _ => "" |}.

(** The same, with the message store refusing every INSERT. *)
Definition env_store_down : Env :=
  {| users := users env;
     sessions := sessions env;
     send_fault := fun _ _ => None;
     store_fault := fun _ _ => true;
     clock := fun _ => "12:00";
     sql_text := fun _ => "" |}.

(** alice on socket 1 and bob on socket 2, with an empty trace. *)
Definition lobby : world :=
  {| manager :=
       {| active_connections := [("t1", 1); ("t2", 2)];
          user_sessions := [("t1", alice); ("t2", bob)];
          username_to_session := [("alice", "t1"); ("bob", "t2")] |};
     trace := [] |}.

(** alice alone. *)
Definition alone : world :=
  {| manager :=
       {| active_connections := [("t1", 1)];
          user_sessions := [("t1", alice)];
          username_to_session := [("alice", "t1")] |};
     trace := [] |}.
End Example.

(* ===================================================================== *)
(** ** Accounts and sessions: the database helpers (lines 90-263) and the
    HTTP endpoints that call them (lines 484-676) *)
(* ===================================================================== *)

Module Accounts.

(** A Python [str] as its code points and a [bytes] as its byte values. *)
Definition text := list N.
Definition bytes := list N.

Fixpoint text_eqb (a b : list N) : bool :=
  match a, b with
  | [], [] => true
  | x :: a', y :: b' => N.eqb x y && text_eqb a' b'
  | _, _ => false
  end.

(** The library functions the helpers call. *)
Record Library : Type := mk_library {
  (** [s.encode('utf-8')], which is also what sqlite3 does to a [str] it
      binds to a statement and what [print] does to its argument on the
      UTF-8 standard output the messages of the program need; [None] when
      it raises UnicodeEncodeError *)
  encode_utf8 : text -> option bytes;
  (** [hashlib.pbkdf2_hmac('sha256', password, salt, 100000)] *)
  pbkdf2_hmac : bytes -> bytes -> bytes;
  (** [base64.b64encode(b).decode('utf-8')] *)
  b64encode : bytes -> text;
  (** [base64.b64decode(s.encode('utf-8'))]; [None] when it raises *)
  b64decode : text -> option bytes;
  (** [c.isspace()], the test [str.strip()] applies to a character *)
  isspace : N -> bool
}.

(** A [datetime]: whole seconds and the microseconds within the second. *)
Record datetime : Type := mk_datetime {
  seconds : N;
  microsecond : N
}.

(** [d + timedelta(days=7)] *)
Definition plus_seven_days (d : datetime) : datetime :=
  {| seconds := seconds d + 604800; microsecond := microsecond d |}.

(** [expires_at > CURRENT_TIMESTAMP] as sqlite evaluates it, on the texts it
    holds: [expires_at] was bound as [str(datetime)], which ends in
    [.ffffff] unless the microseconds are zero, and [CURRENT_TIMESTAMP] is
    the text of the current second.  Within the same second the longer
    text is the greater. *)
Definition later_than_current (d : datetime) (current : N) : bool :=
  N.ltb current (seconds d) ||
  (N.eqb current (seconds d) && negb (N.eqb (microsecond d) 0)).

(** A row of [users] (lines 25-32). *)
Record user : Type := mk_user {
  id : Z;
  username : text;
  password_hash : text;
  created_at : N;
  last_login : option N;
  is_online : bool
}.

(** A row of [user_sessions] (lines 37-45). *)
Record session : Type := mk_session {
  session_id : Z;
  user_id : Z;
  session_token : text;
  session_created_at : N;
  expires_at : datetime;
  is_active : bool
}.

(** The two tables of the accounts, rows in rowid order, with their
    AUTOINCREMENT counters ([sqlite_sequence] keeps the largest id ever
    given, also after the rows are deleted). *)
Record database : Type := mk_database {
  users : list user;
  user_sessions : list session;
  users_seq : Z;
  sessions_seq : Z
}.

(** The rowid an INSERT gives in a table with AUTOINCREMENT: one more than
    the largest the table has ever held. *)
Definition next_rowid (seq : Z) (rowids : list Z) : Z :=
  (Z.max seq (fold_right Z.max 0 rowids) + 1)%Z.

(** [init_database] (lines 18-63) on a new file. *)
Definition empty : database :=
  {| users := []; user_sessions := []; users_seq := 0; sessions_seq := 0 |}.

Inductive error : Type :=
| UnicodeEncodeError.

(** The [detail] of an [HTTPException]: a literal, or [str(e)]. *)
Inductive detail : Type :=
| Literal (s : string)
| StrOf (e : error).

Inductive failure : Type :=
| HTTPException (status_code : nat) (d : detail)
| Uncaught (e : error).

Inductive reply (A : Type) : Type :=
| Return (a : A)
| Raises (f : failure).

Arguments Return {A} a.
Arguments Raises {A} f.

(** [SELECT ... FROM users WHERE username = ?] and [fetchone]. *)
Definition user_named (name : text) (db : database) : option user :=
  find (fun u => text_eqb (username u) name) (users db).

(** [SET is_active = 0] on a row. *)
Definition deactivate (s : session) : session :=
  {| session_id := session_id s; user_id := user_id s;
     session_token := session_token s;
     session_created_at := session_created_at s;
     expires_at := expires_at s; is_active := false |}.

(** Line 184: [UPDATE user_sessions SET is_active = 0 WHERE user_id = ? AND
    is_active = 1]. *)
Definition invalidate_sessions_of (uid : Z) (rows : list session)
  : list session :=
  map (fun s => if Z.eqb (user_id s) uid && is_active s
                then deactivate s else s) rows.

(** Line 231: [UPDATE user_sessions SET is_active = 0 WHERE session_token
    = ?]. *)
Definition invalidate_token (token : text) (rows : list session)
  : list session :=
  map (fun s => if text_eqb (session_token s) token
                then deactivate s else s) rows.

(** Line 200: [UPDATE users SET last_login = CURRENT_TIMESTAMP WHERE id = ?]. *)
Definition touch_last_login (uid : Z) (current : N) (rows : list user)
  : list user :=
  map (fun u =>
         if Z.eqb (id u) uid
         then {| id := id u; username := username u;
                 password_hash := password_hash u; created_at := created_at u;
                 last_login := Some current; is_online := is_online u |}
         else u) rows.

Section Helpers.
Variable L : Library.

(** [hash_password] (lines 90-96) with the salt [secrets.token_bytes(32)]
    gave; [None] when the password cannot be encoded. *)
Definition hash_password (salt : bytes) (password : text) : option text :=
  match encode_utf8 L password with
  | Some pw => Some (b64encode L (salt ++ pbkdf2_hmac L pw salt))
  | None => None
  end.

(** [verify_password] (lines 98-116): every exception is [False]. *)
Definition verify_password (stored_password provided_password : text) : bool :=
  match b64decode L stored_password with
  | Some stored_bytes =>
      let salt := firstn 32 stored_bytes in
      let stored_hash := skipn 32 stored_bytes in
      match encode_utf8 L provided_password with
      | Some pw => text_eqb (pbkdf2_hmac L pw salt) stored_hash
      | None => false
      end
  | None => false
  end.

(** [register_user] (lines 132-160).  [current] is the second
    [CURRENT_TIMESTAMP] gives.  Nothing is committed when it raises. *)
Definition register_user (salt : bytes) (current : N) (name password : text)
           (db : database) : reply (Z * text * N) * database :=
  match encode_utf8 L name with
  | None => (Raises (Uncaught UnicodeEncodeError), db)
  | Some _ =>
      match user_named name db with
      | Some _ =>
          (Raises (HTTPException 400 (Literal "Username already exists")), db)
      | None =>
          match hash_password salt password with
          | None => (Raises (Uncaught UnicodeEncodeError), db)
          | Some hashed =>
              let user_id := next_rowid (users_seq db) (map id (users db)) in
              (Return (user_id, name, current),
               {| users := users db ++
                           [{| id := user_id; username := name;
                               password_hash := hashed; created_at := current;
                               last_login := None; is_online := false |}];
                  user_sessions := user_sessions db;
                  users_seq := user_id;
                  sessions_seq := sessions_seq db |})
          end
      end
  end.

(** [login_user] (lines 162-221) with the token [generate_session_token]
    gave, the time [datetime.utcnow()] gave and the second
    [CURRENT_TIMESTAMP] gives.  The INSERT violates the UNIQUE constraint
    when the token is already in the table; that exception, like any other
    that is not an [HTTPException], becomes a 500, and nothing is
    committed. *)
Definition login_user (token : text) (now : datetime) (current : N)
           (name password : text) (db : database)
  : reply (Z * text * text * datetime) * database :=
  match encode_utf8 L name with
  | None => (Raises (HTTPException 500 (Literal "Internal server error")), db)
  | Some _ =>
  match user_named name db with
  | None =>
      (Raises (HTTPException 401 (Literal "Invalid username or password")), db)
  | Some u =>
      if verify_password (password_hash u) password then
        match encode_utf8 L token with
        | None =>
            (Raises (HTTPException 500 (Literal "Internal server error")), db)
        | Some _ =>
        if existsb (fun s => text_eqb (session_token s) token) (user_sessions db)
        then (Raises (HTTPException 500 (Literal "Internal server error")), db)
        else
          let expires := plus_seven_days now in
          let session_id :=
            next_rowid (sessions_seq db)
                       (map session_id (user_sessions db)) in
          (Return (id u, username u, token, expires),
           {| users := touch_last_login (id u) current (users db);
              user_sessions :=
                invalidate_sessions_of (id u) (user_sessions db) ++
                [{| session_id := session_id; user_id := id u;
                    session_token := token;
                    session_created_at := current;
                    expires_at := expires; is_active := true |}];
              users_seq := users_seq db;
              sessions_seq := session_id |})
        end
      else
        (Raises (HTTPException 401 (Literal "Invalid username or password")), db)
  end
  end.

(** [logout_user] (lines 223-241). *)
Definition logout_user (token : text) (db : database) : bool * database :=
  match encode_utf8 L token with
  | None => (false, db)
  | Some _ =>
      (true,
       {| users := users db;
          user_sessions := invalidate_token token (user_sessions db);
          users_seq := users_seq db;
          sessions_seq := sessions_seq db |})
  end.

(** [verify_session_token] (lines 243-263) at the second [current]: the
    session row with this token that is active and not expired, joined
    with its user. *)
Definition verify_session_token (current : N) (token : text) (db : database)
  : reply (option (Z * text * datetime)) :=
  match encode_utf8 L token with
  | None => Raises (Uncaught UnicodeEncodeError)
  | Some _ =>
      match find (fun s => text_eqb (session_token s) token && is_active s &&
                           later_than_current (expires_at s) current)
                 (user_sessions db) with
      | Some s =>
          match find (fun u => Z.eqb (id u) (user_id s)) (users db) with
          | Some u => Return (Some (id u, username u, expires_at s))
          | None => Return None
          end
      | None => Return None
      end
  end.

(** [get_current_user] (lines 484-493); [credentials] is absent or carries
    the bearer token. *)
Definition get_current_user (current : N) (credentials : option text)
           (db : database) : reply (Z * text * datetime) :=
  match credentials with
  | None => Raises (HTTPException 401 (Literal "Authentication required"))
  | Some token =>
      match verify_session_token current token db with
      | Return (Some session_info) => Return session_info
      | Return None =>
          Raises (HTTPException 401 (Literal "Invalid or expired session"))
      | Raises f => Raises f
      end
  end.

(** [s.lstrip()], and [s.strip()]. *)
Fixpoint lstrip (s : text) : text :=
  match s with
  | c :: rest => if isspace L c then lstrip rest else s
  | [] => []
  end.

Definition strip (s : text) : text := rev (lstrip (rev (lstrip s))).

(** [register_endpoint] (lines 499-535).  The body of its [try] prints
    the stripped name before it calls [register_user], and the handler of
    [HTTPException] prints the name as it was sent before it raises the
    exception again. *)
Definition register_endpoint (salt : bytes) (current : N)
           (sent password : text) (db : database)
  : reply (Z * text * N) * database :=
  let name := strip sent in
  let attempt :=
    match name with
    | [] =>
        (Raises (HTTPException 400 (Literal "Username cannot be empty")), db)
    | _ =>
        if Nat.ltb (List.length name) 3 then
          (Raises (HTTPException 400
                     (Literal "Username must be at least 3 characters")), db)
        else if Nat.ltb (List.length password) 6 then
          (Raises (HTTPException 400
                     (Literal "Password must be at least 6 characters")), db)
        else
          match encode_utf8 L name with
          | None => (Raises (Uncaught UnicodeEncodeError), db)
          | Some _ => register_user salt current name password db
          end
    end in
  match attempt with
  | (Raises (HTTPException status_code d), db') =>
      match encode_utf8 L sent with
      | None => (Raises (Uncaught UnicodeEncodeError), db')
      | Some _ => (Raises (HTTPException status_code d), db')
      end
  | (Raises (Uncaught e), db') => (Raises (HTTPException 500 (StrOf e)), db')
  | returned => returned
  end.

(** [login_endpoint] (lines 600-617). *)
Definition login_endpoint (token : text) (now : datetime) (current : N)
           (name password : text) (db : database)
  : reply (Z * text * text * datetime) * database :=
  match login_user token now current name password db with
  | (Raises (Uncaught e), db') => (Raises (HTTPException 500 (StrOf e)), db')
  | other => other
  end.

(** [logout_endpoint] (lines 658-676). *)
Definition logout_endpoint (credentials : option text) (db : database)
  : reply string * database :=
  match credentials with
  | None => (Raises (HTTPException 401 (Literal "No session token provided")), db)
  | Some token =>
      let (logout_success, db') := logout_user token db in
      if logout_success : bool
      then (Return "Logged out successfully", db')
      else (Return "Logout completed (session may have already been invalid)",
            db')
  end.

(** [debug_reset_database] (lines 578-598). *)
Definition debug_reset_database (db : database) : database :=
  {| users := []; user_sessions := [];
     users_seq := users_seq db; sessions_seq := sessions_seq db |}.

(** The requests that write to the two tables. *)
Inductive request : Type :=
| Register (salt : bytes) (current : N) (name password : text)
| Login (token : text) (now : datetime) (current : N) (name password : text)
| Logout (credentials : option text)
| Reset.

Definition serve_request (r : request) (db : database) : database :=
  match r with
  | Register salt current name password =>
      snd (register_endpoint salt current name password db)
  | Login token now current name password =>
      snd (login_endpoint token now current name password db)
  | Logout credentials => snd (logout_endpoint credentials db)
  | Reset => debug_reset_database db
  end.

Fixpoint serve_requests (rs : list request) (db : database) : database :=
  match rs with
  | [] => db
  | r :: rest => serve_requests rest (serve_request r db)
  end.

(** What the schema promises of the tables, and what the endpoints add. *)
Record well_formed (db : database) : Prop := mk_well_formed {
  usernames_unique : NoDup (map username (users db));
  user_ids_unique : NoDup (map id (users db));
  user_ids_issued : forall u, In u (users db) -> (id u <= users_seq db)%Z;
  tokens_unique : NoDup (map session_token (user_sessions db));
  sessions_have_users :
    forall s, In s (user_sessions db) ->
              exists u, In u (users db) /\ id u = user_id s;
  one_active_session :
    forall s1 s2, In s1 (user_sessions db) -> In s2 (user_sessions db) ->
                  is_active s1 = true -> is_active s2 = true ->
                  user_id s1 = user_id s2 ->
                  session_token s1 = session_token s2;
  usernames_stripped :
    forall u, In u (users db) ->
              strip (username u) = username u /\
              3 <= List.length (username u)
}.

End Helpers.

(** A library for the concrete runs: the encodings are the identity, the
    digest is the password followed by the salt, and the space is the only
    whitespace. *)
Definition toy : Library :=
  {| encode_utf8 := fun s => Some s;
     pbkdf2_hmac := fun pw salt => pw ++ salt;
     b64encode := fun b => b;
     b64decode := fun s => Some s;
     isspace := fun c => N.eqb c 32 |}.

(** An account registered with a padded name, and its first session. *)
Module Demo.
Definition salt : bytes := repeat 7%N 32.
Definition alice : text := [97; 108; 105; 99; 101]%N.
Definition padded : text := [32; 97; 108; 105; 99; 101; 32]%N.
Definition secret : text := [115; 101; 99; 114; 101; 116]%N.
Definition first_token : text := [116; 49]%N.
Definition second_token : text := [116; 50]%N.
Definition noon : datetime := {| seconds := 43200; microsecond := 250 |}.
Definition registered : database :=
  serve_requests toy [Register salt 43100 padded secret] empty.
Definition logged_in : database :=
  serve_requests toy [Register salt 43100 padded secret;
                      Login first_token noon 43200 alice secret] empty.
End Demo.

End Accounts.

(* ===================================================================== *)
(** ** Dictionaries *)
(* ===================================================================== *)

Section DictFacts.
Variable V : Type.
Implicit Types (d : dict V) (k : string) (v : V).

Lemma dict_get_set_same k v d : dict_get k (dict_set k v d) = Some v.
Proof.
  induction d as [|[k' v'] d IH]; simpl.
  - now rewrite String.eqb_refl.
  - destruct (String.eqb k' k) eqn:Hk; simpl.
    + now rewrite String.eqb_refl.
    + now rewrite Hk.
Qed.

Lemma dict_get_set_other k k' v d :
  k' <> k -> dict_get k' (dict_set k v d) = dict_get k' d.
Proof.
  intros Hne. induction d as [|[k0 v0] d IH]; simpl.
  - destruct (String.eqb_spec k k'); congruence.
  - destruct (String.eqb_spec k0 k) as [->|Hk0]; simpl.
    + destruct (String.eqb_spec k k'); congruence.
    + destruct (String.eqb_spec k0 k'); auto.
Qed.

Lemma dict_get_del_same k d : dict_get k (dict_del k d) = None.
Proof.
  induction d as [|[k0 v0] d IH]; simpl; auto.
  destruct (String.eqb_spec k0 k) as [->|Hk0]; simpl; auto.
  destruct (String.eqb_spec k0 k); congruence.
Qed.

Lemma dict_get_del_other k k' d :
  k' <> k -> dict_get k' (dict_del k d) = dict_get k' d.
Proof.
  intros Hne. induction d as [|[k0 v0] d IH]; simpl; auto.
  destruct (String.eqb_spec k0 k) as [->|Hk0]; simpl.
  - destruct (String.eqb_spec k k'); congruence.
  - destruct (String.eqb_spec k0 k'); auto.
Qed.

Lemma dict_get_del_some k k' v d :
  dict_get k' (dict_del k d) = Some v -> k' <> k /\ dict_get k' d = Some v.
Proof.
  intros H. destruct (String.eqb_spec k' k) as [->|Hne].
  - rewrite dict_get_del_same in H. discriminate.
  - split; auto. now rewrite dict_get_del_other in H.
Qed.

Lemma dict_mem_set k k' v d :
  dict_mem k' (dict_set k v d) = String.eqb k k' || dict_mem k' d.
Proof.
  unfold dict_mem. destruct (String.eqb_spec k k') as [->|Hne]; simpl.
  - now rewrite dict_get_set_same.
  - rewrite dict_get_set_other by congruence. reflexivity.
Qed.

Lemma dict_mem_del k k' d :
  dict_mem k' (dict_del k d) = negb (String.eqb k k') && dict_mem k' d.
Proof.
  unfold dict_mem. destruct (String.eqb_spec k k') as [->|Hne]; simpl.
  - now rewrite dict_get_del_same.
  - rewrite dict_get_del_other by congruence. reflexivity.
Qed.

Lemma dict_del_absent k d : dict_mem k d = false -> dict_del k d = d.
Proof.
  unfold dict_mem. induction d as [|[k0 v0] d IH]; simpl; auto.
  destruct (String.eqb_spec k0 k) as [->|Hk0]; simpl.
  - discriminate.
  - intros H. now rewrite IH.
Qed.

Lemma dict_get_in k v d : dict_get k d = Some v -> In (k, v) d.
Proof.
  induction d as [|[k0 v0] d IH]; simpl; [discriminate|].
  destruct (String.eqb_spec k0 k) as [->|Hk0].
  - intros [= ->]. now left.
  - intros H. right. auto.
Qed.

Lemma dict_in_get k v d : NoDup (keys d) -> In (k, v) d -> dict_get k d = Some v.
Proof.
  induction d as [|[k0 v0] d IH]; simpl; [tauto|].
  intros Hnd [Heq|Hin].
  - inversion Heq; subst. now rewrite String.eqb_refl.
  - inversion Hnd as [|? ? Hnotin Hnd']; subst.
    destruct (String.eqb_spec k0 k) as [->|Hk0]; auto.
    exfalso. apply Hnotin. unfold keys. now apply (in_map fst) in Hin.
Qed.

Lemma dict_mem_keys k d : dict_mem k d = true <-> In k (keys d).
Proof.
  unfold dict_mem. induction d as [|[k0 v0] d IH]; simpl.
  - split; [discriminate | tauto].
  - destruct (String.eqb_spec k0 k) as [->|Hk0].
    + split; auto.
    + rewrite IH. split; [auto | intros [?|?]; congruence].
Qed.

Lemma keys_del_incl k k' d : In k' (keys (dict_del k d)) -> In k' (keys d).
Proof.
  unfold keys, dict_del. rewrite !in_map_iff.
  intros [x [Hx Hin]]. apply filter_In in Hin. exists x. tauto.
Qed.

Lemma keys_del_nodup k d : NoDup (keys d) -> NoDup (keys (dict_del k d)).
Proof.
  induction d as [|[k0 v0] d IH]; simpl; auto.
  intros Hnd. inversion Hnd as [|? ? Hnotin Hnd']; subst.
  destruct (String.eqb k0 k); simpl; auto.
  constructor; auto. intros Hin. apply Hnotin. eapply keys_del_incl; eauto.
Qed.

Lemma keys_set_in k k' v d :
  In k' (keys (dict_set k v d)) -> k' = k \/ In k' (keys d).
Proof.
  induction d as [|[k0 v0] d IH]; simpl.
  - intros [<-|[]]. now left.
  - destruct (String.eqb_spec k0 k) as [->|Hk0]; simpl.
    + intros [<-|H]; auto.
    + intros [<-|H]; auto. destruct (IH H); auto.
Qed.

Lemma keys_set_nodup k v d : NoDup (keys d) -> NoDup (keys (dict_set k v d)).
Proof.
  induction d as [|[k0 v0] d IH]; simpl.
  - intros _. constructor; [tauto | constructor].
  - intros Hnd. inversion Hnd as [|? ? Hnotin Hnd']; subst.
    destruct (String.eqb_spec k0 k) as [->|Hk0]; simpl.
    + constructor; auto.
    + constructor; auto. intros Hin.
      destruct (keys_set_in _ _ _ _ Hin); congruence.
Qed.
End DictFacts.

(* ===================================================================== *)
(** ** The monad *)
(* ===================================================================== *)

Local Open Scope py_scope.

Ltac unfold_monad :=
  unfold bind, ret, raise, try_except, get_manager, put_manager, emit in *.

Section MonadFacts.
Variables A B : Type.
Variable I : ConnectionManager -> Prop.

Lemma keeps_ret (a : A) : keeps I (ret a).
Proof. intros w H. exact H. Qed.

Lemma keeps_raise (e : exn) : keeps I (@raise A e).
Proof. intros w H. exact H. Qed.

Lemma keeps_bind (m : M A) (f : A -> M B) :
  keeps I m -> (forall a, keeps I (f a)) -> keeps I (bind m f).
Proof.
  intros Hm Hf w Hw. unfold bind. specialize (Hm w Hw).
  destruct (m w) as [[a|e] w']; simpl in *; auto. now apply Hf.
Qed.

Lemma keeps_try (m : M A) (h : exn -> M A) :
  keeps I m -> (forall e, keeps I (h e)) -> keeps I (try_except m h).
Proof.
  intros Hm Hh w Hw. unfold try_except. specialize (Hm w Hw).
  destruct (m w) as [[a|e] w']; simpl in *; auto. now apply Hh.
Qed.

Lemma reads_only_keeps (m : M A) : reads_only m -> keeps I m.
Proof. intros Hm w Hw. now rewrite Hm. Qed.

Lemma reads_only_ret (a : A) : reads_only (ret a).
Proof. intros w. reflexivity. Qed.

Lemma reads_only_raise (e : exn) : reads_only (@raise A e).
Proof. intros w. reflexivity. Qed.

Lemma reads_only_bind (m : M A) (f : A -> M B) :
  reads_only m -> (forall a, reads_only (f a)) -> reads_only (bind m f).
Proof.
  intros Hm Hf w. unfold bind. specialize (Hm w).
  destruct (m w) as [[a|e] w']; simpl in *; auto.
  now rewrite Hf.
Qed.

Lemma reads_only_try (m : M A) (h : exn -> M A) :
  reads_only m -> (forall e, reads_only (h e)) -> reads_only (try_except m h).
Proof.
  intros Hm Hh w. unfold try_except. specialize (Hm w).
  destruct (m w) as [[a|e] w']; simpl in *; auto.
  now rewrite Hh.
Qed.
End MonadFacts.

Lemma bind_congr (A B : Type) (m : M A) (f g : A -> M B) (w : world) :
  (forall a, fst (m w) = Ok a -> f a (snd (m w)) = g a (snd (m w))) ->
  bind m f w = bind m g w.
Proof.
  intros H. unfold bind. destruct (m w) as [[a|e] w']; simpl in *; auto.
Qed.

Lemma reads_only_emit (e : event) : reads_only (emit e).
Proof. intros w. reflexivity. Qed.

Lemma reads_only_get_manager : reads_only get_manager.
Proof. intros w. reflexivity. Qed.

Lemma keeps_for_each (A : Type) (I : ConnectionManager -> Prop)
      (body : A -> M unit) (xs : list A) :
  (forall x, keeps I (body x)) -> keeps I (for_each xs body).
Proof.
  intros Hbody. induction xs as [|x xs IH]; simpl.
  - apply keeps_ret.
  - apply keeps_bind; auto.
Qed.

(* ===================================================================== *)
(** ** [disconnect] *)
(* ===================================================================== *)

Lemma disconnect_absent (w : world) (token : session_token) :
  dict_mem token (active_connections (manager w)) = false ->
  disconnect token w = (Ok None, w).
Proof.
  intros H. unfold disconnect. unfold_monad. simpl. now rewrite H.
Qed.

Lemma disconnect_present (w : world) (token : session_token) (ui : user_info) :
  dict_mem token (active_connections (manager w)) = true ->
  dict_get token (user_sessions (manager w)) = Some ui ->
  disconnect token w =
    (Ok (Some (ui_username ui)),
     {| manager := forget token ui (manager w);
        trace := trace w ++ offline_events ui |}).
Proof.
  intros Ha Hs.
  assert (Hs' : dict_mem token (user_sessions (manager w)) = true)
    by (unfold dict_mem; now rewrite Hs).
  unfold disconnect, del_active, del_session, del_username,
    set_user_online_status, offline_events, forget.
  unfold_monad. simpl. rewrite Ha, Hs. simpl. rewrite Ha. simpl.
  rewrite Hs'. simpl.
  destruct (dict_mem (ui_username ui) (username_to_session (manager w))) eqn:Hu;
    simpl; rewrite ?Hu; simpl; [| rewrite (dict_del_absent _ _ Hu)];
    destruct (int_truthy (ui_id ui)); simpl; rewrite ?app_nil_r;
    destruct w; reflexivity.
Qed.

Lemma forget_consistent (m : ConnectionManager) (token : session_token)
      (ui : user_info) :
  consistent m -> dict_get token (user_sessions m) = Some ui ->
  consistent (forget token ui m).
Proof.
  intros [Hk Hn Ha Hs Hu] Hget. constructor; simpl.
  - intros t. rewrite !dict_mem_del. now rewrite Hk.
  - intros t ui' H. apply dict_get_del_some in H. destruct H as [Hne H].
    rewrite dict_get_del_other; auto.
    intros Heq. apply Hn in H. apply Hn in Hget. congruence.
  - now apply keys_del_nodup.
  - now apply keys_del_nodup.
  - now apply keys_del_nodup.
Qed.

Lemma consistent_session_of_active (m : ConnectionManager) (t : session_token) :
  consistent m -> dict_mem t (active_connections m) = true ->
  exists ui, dict_get t (user_sessions m) = Some ui.
Proof.
  intros Hc Ha. rewrite (same_keys Hc) in Ha. unfold dict_mem in Ha.
  destruct (dict_get t (user_sessions m)) as [ui|]; [eauto | discriminate].
Qed.

Lemma disconnect_keeps_consistent (token : session_token) :
  keeps consistent (disconnect token).
Proof.
  intros w Hc.
  destruct (dict_mem token (active_connections (manager w))) eqn:Ha.
  - destruct (consistent_session_of_active _ Hc Ha) as [ui Hs].
    rewrite (disconnect_present _ _ Ha Hs). simpl.
    now apply forget_consistent.
  - now rewrite (disconnect_absent _ _ Ha).
Qed.

(** From a consistent registry [disconnect] does not raise. *)
Lemma disconnect_returns (w : world) (token : session_token) :
  consistent (manager w) -> exists r, fst (disconnect token w) = Ok r.
Proof.
  intros Hc.
  destruct (dict_mem token (active_connections (manager w))) eqn:Ha.
  - destruct (consistent_session_of_active _ Hc Ha) as [ui Hs].
    rewrite (disconnect_present _ _ Ha Hs). simpl. eauto.
  - rewrite (disconnect_absent _ _ Ha). simpl. eauto.
Qed.

(* ===================================================================== *)
(** ** The registry under [connect], [broadcast], [send_personal_message] *)
(* ===================================================================== *)

Lemma not_connected_run (username : json) (w : world) :
  (print_not_connected username ;; ret false) w
  = (if printable username then Ok false else Raise UnicodeEncodeError, w).
Proof.
  unfold print_not_connected, bind, ret, raise.
  destruct (printable username); reflexivity.
Qed.

Lemma not_connected_reads_only (username : json) :
  reads_only (print_not_connected username ;; ret false).
Proof. intros w. now rewrite not_connected_run. Qed.

Section RegistryFacts.
Variable E : Env.

Lemma send_text_reads_only ws payload : reads_only (send_text E ws payload).
Proof.
  intros w. unfold send_text.
  destruct (send_fault E (List.length (trace w)) ws); reflexivity.
Qed.

Lemma utcnow_reads_only : reads_only (utcnow E).
Proof. intros w. reflexivity. Qed.

Lemma save_message_reads_only content sender_id recipient_id :
  reads_only (save_message E content sender_id recipient_id).
Proof.
  intros w. unfold save_message.
  destruct (store_fault E (List.length (trace w)) content); reflexivity.
Qed.

Lemma get_user_by_username_pure username w :
  snd (get_user_by_username E username w) = w.
Proof.
  unfold get_user_by_username.
  destruct (bind_error username); [reflexivity |].
  destruct username; reflexivity.
Qed.

Lemma sweep_reads_only message exclude_session items failed :
  reads_only (sweep E message exclude_session items failed).
Proof.
  revert failed. induction items as [|[token ws] rest IH]; intros failed; simpl.
  - apply reads_only_ret.
  - match goal with |- context [if ?c then _ else _] => destruct c end.
    + apply IH.
    + apply reads_only_bind; [| intros; apply IH].
      apply reads_only_try.
      * apply reads_only_bind; [apply send_text_reads_only |].
        intros. apply reads_only_ret.
      * intros. apply reads_only_ret.
Qed.

Lemma broadcast_keeps_consistent message exclude_session :
  keeps consistent (broadcast E message exclude_session).
Proof.
  unfold broadcast. apply keeps_bind.
  - apply reads_only_keeps, reads_only_get_manager.
  - intros m. apply keeps_bind.
    + apply reads_only_keeps, sweep_reads_only.
    + intros failed. apply keeps_for_each. intros t.
      apply keeps_bind; [apply disconnect_keeps_consistent |].
      intros. apply keeps_ret.
Qed.

Lemma broadcast_user_list_update_keeps_consistent message :
  keeps consistent (broadcast_user_list_update E message).
Proof.
  unfold broadcast_user_list_update, get_active_users.
  apply keeps_bind.
  - apply reads_only_keeps. intros w. reflexivity.
  - intros. apply keeps_bind.
    + apply reads_only_keeps, utcnow_reads_only.
    + intros. apply broadcast_keeps_consistent.
Qed.

(** The registry after the eviction of [old]: both token-keyed
    dictionaries lose it, the username index is not touched. *)
Lemma evict_old_session_spec (w : world) (username : string) :
  consistent (manager w) ->
  let w' := snd (evict_old_session username w) in
  consistent (manager w') /\ unnamed username (manager w') /\
  (forall old, dict_get username (username_to_session (manager w)) = Some old ->
               dict_mem old (active_connections (manager w')) = false /\
               dict_mem old (user_sessions (manager w')) = false).
Proof.
  intros Hc. unfold evict_old_session, del_active, del_session, close.
  unfold_monad. simpl.
  destruct (dict_get username (username_to_session (manager w)))
    as [old|] eqn:Hold.
  - destruct (dict_get old (active_connections (manager w)))
      as [old_ws|] eqn:Hws; simpl.
    + assert (Ha : dict_mem old (active_connections (manager w)) = true)
        by (unfold dict_mem; now rewrite Hws).
      assert (Hs : dict_mem old (user_sessions (manager w)) = true)
        by (now rewrite <- (same_keys Hc)).
      rewrite Ha. simpl. rewrite Hs. simpl.
      destruct Hc as [Hk Hn Hda Hds Hdu].
      split; [constructor; simpl | split].
      * intros t. now rewrite !dict_mem_del, Hk.
      * intros t ui H. apply dict_get_del_some in H. now apply Hn.
      * now apply keys_del_nodup.
      * now apply keys_del_nodup.
      * exact Hdu.
      * intros t ui H. simpl in H. apply dict_get_del_some in H.
        destruct H as [Hne H]. intros Heq. apply Hn in H.
        rewrite Heq, Hold in H. congruence.
      * intros old' [= <-]. simpl.
        rewrite !dict_mem_del, String.eqb_refl. auto.
    + assert (Ha : dict_mem old (active_connections (manager w)) = false)
        by (unfold dict_mem; now rewrite Hws).
      split; [exact Hc | split].
      * intros t ui H Heq. apply (session_named Hc) in H as Hu.
        rewrite Heq, Hold in Hu. injection Hu as <-.
        rewrite (same_keys Hc) in Ha. unfold dict_mem in Ha.
        now rewrite H in Ha.
      * intros old' [= <-]. split; auto. now rewrite <- (same_keys Hc).
  - split; [exact Hc | split].
    + intros t ui H Heq. apply (session_named Hc) in H.
      rewrite Heq, Hold in H. discriminate.
    + intros old' [=].
Qed.

Lemma install_session_spec (w : world) ws token ui :
  consistent (manager w) -> unnamed (ui_username ui) (manager w) ->
  let w' := snd (install_session ws token ui w) in
  consistent (manager w') /\
  dict_get token (active_connections (manager w')) = Some ws /\
  dict_get token (user_sessions (manager w')) = Some ui /\
  dict_get (ui_username ui) (username_to_session (manager w')) = Some token.
Proof.
  intros [Hk Hn Hda Hds Hdu] Hun. unfold install_session. unfold_monad. simpl.
  split; [constructor; simpl |].
  - intros t. now rewrite !dict_mem_set, Hk.
  - intros t ui' H. destruct (String.eqb_spec t token) as [->|Hne].
    + rewrite dict_get_set_same in H. injection H as <-.
      apply dict_get_set_same.
    + rewrite dict_get_set_other in H by assumption.
      rewrite dict_get_set_other by (now apply Hun in H). now apply Hn.
  - now apply keys_set_nodup.
  - now apply keys_set_nodup.
  - now apply keys_set_nodup.
  - now rewrite !dict_get_set_same.
Qed.

Lemma connect_keeps_consistent ws token ui :
  keeps consistent (connect E ws token ui).
Proof.
  intros w Hc. unfold connect, accept. unfold bind at 1. unfold emit at 1.
  set (w0 := {| manager := manager w; trace := trace w ++ [Accept ws] |}).
  pose proof (evict_old_session_spec w0 (ui_username ui) Hc) as Hev.
  cbv zeta in Hev. unfold bind at 1.
  destruct (evict_old_session (ui_username ui) w0) as [[[]|e] w1];
    simpl in Hev; destruct Hev as (Hc1 & Hun1 & _); auto.
  pose proof (install_session_spec w1 ws token ui Hc1 Hun1) as Hin.
  cbv zeta in Hin. unfold bind at 1.
  destruct (install_session ws token ui w1) as [[[]|e] w2];
    simpl in Hin; destruct Hin as (Hc2 & _); auto.
  apply (keeps_bind (I := consistent)); auto.
  - apply reads_only_keeps. apply reads_only_emit.
  - intros. apply broadcast_user_list_update_keeps_consistent.
Qed.

Lemma send_personal_message_keeps_consistent message username :
  keeps consistent (send_personal_message E message username).
Proof.
  unfold send_personal_message, session_of. apply keeps_bind.
  - apply reads_only_keeps. apply reads_only_bind.
    + apply reads_only_get_manager.
    + intros m. destruct username; auto using reads_only_ret, reads_only_raise.
  - intros found. apply keeps_bind.
    + apply reads_only_keeps, reads_only_get_manager.
    + intros m.
      destruct found as [token|];
        [| apply reads_only_keeps, not_connected_reads_only].
      destruct (str_truthy token);
        [| apply reads_only_keeps, not_connected_reads_only].
      destruct (dict_get token (active_connections m));
        [| apply reads_only_keeps, not_connected_reads_only].
      apply keeps_try.
      * apply reads_only_keeps. apply reads_only_bind.
        -- apply send_text_reads_only.
        -- intros. apply reads_only_ret.
      * intros e. apply keeps_bind; [apply disconnect_keeps_consistent |].
        intros. apply keeps_ret.
Qed.

Lemma call_keeps_consistent op : keeps consistent (call E op).
Proof.
  destruct op; simpl.
  - apply connect_keeps_consistent.
  - apply keeps_bind; [apply disconnect_keeps_consistent |].
    intros. apply keeps_ret.
  - apply keeps_bind; [apply send_personal_message_keeps_consistent |].
    intros. apply keeps_ret.
  - apply broadcast_keeps_consistent.
Qed.

Lemma manager_init_consistent : consistent manager_init.
Proof. constructor; simpl; auto using NoDup_nil; discriminate. Qed.

Lemma run_calls_consistent ops w :
  consistent (manager w) -> consistent (manager (run_calls E ops w)).
Proof.
  revert w. induction ops as [|op ops IH]; intros w Hc; simpl; auto.
  apply IH. now apply call_keeps_consistent.
Qed.

Lemma consistent_one_session m :
  consistent m -> one_session_per_username m.
Proof.
  intros Hc t1 t2 ui1 ui2 _ _ H1 H2 Heq.
  apply (session_named Hc) in H1. apply (session_named Hc) in H2.
  congruence.
Qed.

End RegistryFacts.

(* ===================================================================== *)
(** ** What each call adds to the trace *)
(* ===================================================================== *)

Section TraceFacts.
Variable P : event -> Prop.

Lemma emits_ret (A : Type) (a : A) : emits P (ret a).
Proof. intros w. exists []. simpl. now rewrite app_nil_r. Qed.

Lemma emits_raise (A : Type) (e : exn) : emits P (@raise A e).
Proof. intros w. exists []. simpl. now rewrite app_nil_r. Qed.

Lemma emits_get_manager : emits P get_manager.
Proof. intros w. exists []. simpl. now rewrite app_nil_r. Qed.

Lemma emits_not_connected username :
  emits P (print_not_connected username ;; ret false).
Proof.
  intros w. exists []. rewrite not_connected_run. simpl.
  now rewrite app_nil_r.
Qed.

Lemma emits_put_manager m : emits P (put_manager m).
Proof. intros w. exists []. simpl. now rewrite app_nil_r. Qed.

Lemma emits_emit ev : P ev -> emits P (emit ev).
Proof. intros H w. exists [ev]. simpl. auto. Qed.

Lemma emits_bind (A B : Type) (m : M A) (f : A -> M B) :
  emits P m -> (forall a, emits P (f a)) -> emits P (bind m f).
Proof.
  intros Hm Hf w. unfold bind. destruct (Hm w) as [new1 [H1 HP1]].
  destruct (m w) as [[a|e] w']; simpl in *.
  - destruct (Hf a w') as [new2 [H2 HP2]]. exists (new1 ++ new2).
    rewrite H2, H1, app_assoc. split; auto. now apply Forall_app.
  - eauto.
Qed.

Lemma emits_try (A : Type) (m : M A) (h : exn -> M A) :
  emits P m -> (forall e, emits P (h e)) -> emits P (try_except m h).
Proof.
  intros Hm Hh w. unfold try_except. destruct (Hm w) as [new1 [H1 HP1]].
  destruct (m w) as [[a|e] w']; simpl in *.
  - eauto.
  - destruct (Hh e w') as [new2 [H2 HP2]]. exists (new1 ++ new2).
    rewrite H2, H1, app_assoc. split; auto. now apply Forall_app.
Qed.

Lemma emits_for_each (A : Type) (body : A -> M unit) (xs : list A) :
  (forall x, emits P (body x)) -> emits P (for_each xs body).
Proof.
  intros Hbody. induction xs as [|x xs IH]; simpl.
  - apply emits_ret.
  - apply emits_bind; auto.
Qed.

Hypothesis P_online : forall uid b, P (SetOnline uid b).

Lemma emits_disconnect token : emits P (disconnect token).
Proof.
  unfold disconnect, del_active, del_session, del_username,
    set_user_online_status.
  repeat first
    [ apply emits_bind; [| intros ?]
    | apply emits_get_manager | apply emits_put_manager
    | apply emits_ret | apply emits_raise | apply emits_emit; apply P_online
    | match goal with
      | |- emits _ (if ?c then _ else _) => destruct c
      | |- emits _ (match ?c with _ => _ end) => destruct c
      end ].
Qed.

Variable E : Env.
Hypothesis P_send : forall ws p ok, P (SendText ws p ok).

Lemma emits_send_text ws p : emits P (send_text E ws p).
Proof.
  intros w. unfold send_text.
  destruct (send_fault E (List.length (trace w)) ws).
  - exists [SendText ws p false]. simpl. auto.
  - exists [SendText ws p true]. simpl. auto.
Qed.

Lemma emits_sweep message exclude_session items failed :
  emits P (sweep E message exclude_session items failed).
Proof.
  revert failed. induction items as [|[token ws] rest IH]; intros failed; simpl.
  - apply emits_ret.
  - match goal with |- context [if ?c then _ else _] => destruct c end; auto.
    apply emits_bind; auto. apply emits_try.
    + apply emits_bind; [apply emits_send_text | intros; apply emits_ret].
    + intros. apply emits_ret.
Qed.

Lemma emits_broadcast message exclude_session :
  emits P (broadcast E message exclude_session).
Proof.
  unfold broadcast. apply emits_bind; [apply emits_get_manager |].
  intros m. apply emits_bind; [apply emits_sweep |].
  intros failed. apply emits_for_each. intros t.
  apply emits_bind; [apply emits_disconnect | intros; apply emits_ret].
Qed.

Lemma emits_send_personal_message message username :
  emits P (send_personal_message E message username).
Proof.
  unfold send_personal_message, session_of.
  apply emits_bind.
  - apply emits_bind; [apply emits_get_manager |].
    intros m. destruct username; auto using emits_ret, emits_raise.
  - intros found. apply emits_bind; [apply emits_get_manager |].
    intros m. destruct found as [token|]; [| apply emits_not_connected].
    destruct (str_truthy token); [| apply emits_not_connected].
    destruct (dict_get token (active_connections m));
      [| apply emits_not_connected].
    apply emits_try.
    + apply emits_bind; [apply emits_send_text | intros; apply emits_ret].
    + intros e. apply emits_bind; [apply emits_disconnect |].
      intros. apply emits_ret.
Qed.
End TraceFacts.

(* ===================================================================== *)
(** ** [send_personal_message] and the sweep of [broadcast] *)
(* ===================================================================== *)

Section DeliveryFacts.
Variable E : Env.

Lemma live_socket_registered m username token ws :
  live_socket m username = Some (token, ws) ->
  exists s, username = JStr s /\
            dict_get s (username_to_session m) = Some token /\
            str_truthy token = true /\
            dict_get token (active_connections m) = Some ws.
Proof.
  unfold live_socket. destruct username as [| | | |s| |]; try discriminate.
  destruct (dict_get s (username_to_session m)) as [t|] eqn:Ht;
    [| discriminate].
  destruct (str_truthy t) eqn:Htr; [| discriminate].
  destruct (dict_get t (active_connections m)) as [x|] eqn:Hx;
    [| discriminate].
  intros [= <- <-]. eauto.
Qed.

Lemma send_personal_message_offline message username w :
  hashable username = true ->
  live_socket (manager w) username = None ->
  send_personal_message E message username w
  = (if printable username then Ok false else Raise UnicodeEncodeError, w).
Proof.
  intros Hh Hlive. rewrite <- not_connected_run.
  revert Hh Hlive. unfold send_personal_message, session_of, live_socket.
  unfold bind at 1 2 3. unfold get_manager, ret at 1 2 3 4.
  destruct username as [| | | |s| |]; simpl; try reflexivity;
    try discriminate.
  intros _.
  destruct (dict_get s (username_to_session (manager w))) as [t|];
    [| reflexivity].
  destruct (str_truthy t); [| reflexivity].
  destruct (dict_get t (active_connections (manager w)));
    [discriminate | reflexivity].
Qed.

Lemma send_personal_message_delivered message username w token ws :
  live_socket (manager w) username = Some (token, ws) ->
  send_fault E (List.length (trace w)) ws = None ->
  send_personal_message E message username w =
    (Ok true, {| manager := manager w;
                 trace := trace w ++ [SendText ws message true] |}).
Proof.
  intros Hl Hf. apply live_socket_registered in Hl.
  destruct Hl as (s & -> & Hs & Htr & Hws).
  unfold send_personal_message, session_of, send_text. unfold_monad. simpl.
  rewrite Hs, Htr, Hws, Hf. reflexivity.
Qed.

Lemma send_personal_message_failed message username w token ws e ui :
  live_socket (manager w) username = Some (token, ws) ->
  send_fault E (List.length (trace w)) ws = Some e ->
  dict_get token (user_sessions (manager w)) = Some ui ->
  send_personal_message E message username w =
    (Ok false,
     {| manager := forget token ui (manager w);
        trace := (trace w ++ [SendText ws message false]) ++ offline_events ui |}).
Proof.
  intros Hl Hf Hui. apply live_socket_registered in Hl.
  destruct Hl as (s & -> & Hs & Htr & Hws).
  unfold send_personal_message, session_of, send_text.
  unfold bind at 1 2 3. unfold get_manager at 1 2. unfold ret at 1.
  simpl. rewrite Hs, Htr, Hws. unfold try_except, bind at 1.
  rewrite Hf. simpl. unfold bind at 1.
  rewrite (@disconnect_present
             {| manager := manager w;
                trace := trace w ++ [SendText ws message false] |} token ui);
    simpl; auto.
  unfold dict_mem. now rewrite Hws.
Qed.

(** The sweep writes to every item it is given (nothing is excluded). *)
Lemma sweep_attempts message items :
  forall failed w,
  exists new,
    trace (snd (sweep E message None items failed w)) = trace w ++ new /\
    forall t ws, In (t, ws) items ->
      exists ok, In (SendText ws message ok) new /\
                 ((forall n, send_fault E n ws = None) -> ok = true).
Proof.
  induction items as [|[token ws] rest IH]; intros failed w; simpl.
  - exists []. rewrite app_nil_r. split; [reflexivity | intros ? ? []].
  - unfold bind at 1. unfold try_except, bind at 1, send_text.
    destruct (send_fault E (List.length (trace w)) ws) as [e|] eqn:Hf; simpl.
    + destruct (IH (failed ++ [token])
                   {| manager := manager w;
                      trace := trace w ++ [SendText ws message false] |})
        as [new [Hnew Hall]].
      exists (SendText ws message false :: new). split.
      * rewrite Hnew. simpl. now rewrite <- app_assoc.
      * intros t ws' [[= <- <-]|Hin].
        -- exists false. split; [now left |]. intros H. rewrite H in Hf.
           discriminate.
        -- destruct (Hall t ws' Hin) as [ok [Hin' Hok]].
           exists ok. split; [now right | assumption].
    + destruct (IH failed
                   {| manager := manager w;
                      trace := trace w ++ [SendText ws message true] |})
        as [new [Hnew Hall]].
      exists (SendText ws message true :: new). split.
      * rewrite Hnew. simpl. now rewrite <- app_assoc.
      * intros t ws' [[= <- <-]|Hin].
        -- exists true. split; [now left | reflexivity].
        -- destruct (Hall t ws' Hin) as [ok [Hin' Hok]].
           exists ok. split; [now right | assumption].
Qed.

(** Whether the loop of [broadcast] skips this token. *)
Lemma sweep_collects message exclude_session items :
  forall failed w,
  exists fs new,
    sweep E message exclude_session items failed w =
      (Ok (failed ++ fs),
       {| manager := manager w; trace := trace w ++ new |}) /\
    (forall t, In t fs ->
               exists ws, In (t, ws) items /\ In (SendText ws message false) new) /\
    (forall t ws, In (t, ws) items ->
                  excluded exclude_session t = false ->
                  In t fs \/ In (SendText ws message true) new) /\
    (NoDup (keys items) -> NoDup fs).
Proof.
  induction items as [|[token ws] rest IH]; intros failed w.
  - exists [], []. rewrite !app_nil_r. destruct w. simpl.
    repeat split; try tauto; constructor.
  - cbn [sweep]. fold (excluded exclude_session token).
    destruct (excluded exclude_session token) eqn:Hex.
    + destruct (IH failed w) as (fs & new & Heq & Hfail & Hall & Hnd).
      exists fs, new. rewrite Heq. repeat split; auto.
      * intros t Hin. destruct (Hfail t Hin) as [ws' [H1 H2]].
        exists ws'. split; [now right | assumption].
      * intros t ws' [[= <- <-]|Hin] Hne; [congruence | eauto].
      * intros Hk. apply Hnd. now inversion Hk.
    + unfold bind at 1. unfold try_except, bind at 1, send_text.
      destruct (send_fault E (List.length (trace w)) ws) as [e|] eqn:Hf;
        cbn [emit raise ret bind fst snd].
      * destruct (IH (failed ++ [token])
                     {| manager := manager w;
                        trace := trace w ++ [SendText ws message false] |})
          as (fs & new & Heq & Hfail & Hall & Hnd).
        exists (token :: fs), (SendText ws message false :: new).
        rewrite Heq. cbn [manager trace]. rewrite <- !app_assoc. simpl.
        repeat split; auto.
        -- intros t [<-|Hin].
           ++ exists ws. split; now left.
           ++ destruct (Hfail t Hin) as [ws' [H1 H2]].
              exists ws'. split; now right.
        -- intros t ws' [[= <- <-]|Hin] Hne; [left; now left |].
           destruct (Hall t ws' Hin Hne); [left | right]; now right.
        -- intros Hk. inversion Hk as [|? ? Hnotin Hk']; subst.
           constructor; auto. intros Hin.
           destruct (Hfail token Hin) as [ws' [H1 _]].
           apply Hnotin. unfold keys. now apply (in_map fst) in H1.
      * destruct (IH failed
                     {| manager := manager w;
                        trace := trace w ++ [SendText ws message true] |})
          as (fs & new & Heq & Hfail & Hall & Hnd).
        exists fs, (SendText ws message true :: new).
        rewrite Heq. cbn [manager trace]. rewrite <- !app_assoc. simpl.
        repeat split; auto.
        -- intros t Hin. destruct (Hfail t Hin) as [ws' [H1 H2]].
           exists ws'. split; now right.
        -- intros t ws' [[= <- <-]|Hin] Hne; [right; now left |].
           destruct (Hall t ws' Hin Hne); [left | right; right]; assumption.
        -- intros Hk. apply Hnd. now inversion Hk.
Qed.


Lemma broadcast_attempts message w :
  exists new,
    trace (snd (broadcast E message None w)) = trace w ++ new /\
    forall t ws, In (t, ws) (active_connections (manager w)) ->
      exists ok, In (SendText ws message ok) new /\
                 ((forall n, send_fault E n ws = None) -> ok = true).
Proof.
  unfold broadcast. unfold bind at 1. unfold get_manager. unfold bind at 1.
  destruct (sweep_attempts message (active_connections (manager w)) [] w)
    as [new [Hnew Hall]].
  destruct (sweep E message None (active_connections (manager w)) [] w)
    as [[failed|e] w1]; simpl in *.
  - destruct (@emits_for_each (fun _ => True) _
                (fun token => disconnect token ;; ret tt) failed) with (w := w1)
      as [extra [Hextra _]].
    + intros t. apply emits_bind; [apply emits_disconnect; auto |].
      intros. apply emits_ret.
    + exists (new ++ extra). rewrite Hextra, Hnew, app_assoc. split; auto.
      intros t ws Hin. destruct (Hall t ws Hin) as [ok [Hin' Hok]].
      exists ok. split; auto. apply in_or_app. now left.
  - eauto.
Qed.
End DeliveryFacts.

(* ===================================================================== *)
(** ** The registry: one entry per identity, three maps in step *)
(* ===================================================================== *)

Lemma lobby_reachable :
  manager (run_calls Example.env
             [CallConnect 1 "t1" Example.alice; CallConnect 2 "t2" Example.bob]
             world_init)
  = manager Example.lobby.
Proof. reflexivity. Qed.

Lemma lobby_consistent : consistent (manager Example.lobby).
Proof.
  rewrite <- lobby_reachable. apply run_calls_consistent.
  apply manager_init_consistent.
Qed.

(** C1. After any sequence of [connect] and [disconnect] calls, whatever
    the sockets do, no two registered session tokens belong to the same
    username and [username_to_session] has one entry per username.  When a
    username that is present is admitted again, the registry between the
    eviction and the installation ([connect] is [accept], then
    [evict_old_session], then [install_session], then the announcement)
    holds no session of that username, the old token is gone from both
    token-keyed dictionaries, and once installed the new token is the only
    session of the username. *)
Theorem one_presence_entry_per_identity (E : Env) (ops : list registry_op) :
  let w := run_calls E (map as_call ops) world_init in
  one_session_per_username (manager w) /\
  NoDup (keys (username_to_session (manager w))) /\
  forall ws token ui old,
    dict_get (ui_username ui) (username_to_session (manager w)) = Some old ->
    dict_mem old (active_connections (manager w)) = true ->
    let evicted := snd ((accept ws ;; evict_old_session (ui_username ui)) w) in
    let installed := snd (install_session ws token ui evicted) in
    connect E ws token ui =
      (accept ws ;; evict_old_session (ui_username ui) ;;
       install_session ws token ui ;;
       set_user_online_status (ui_id ui) true ;;
       broadcast_user_list_update E
         (Some (ui_username ui ++ " joined the chat")%string)) /\
    dict_mem old (active_connections (manager evicted)) = false /\
    dict_mem old (user_sessions (manager evicted)) = false /\
    unnamed (ui_username ui) (manager evicted) /\
    dict_get token (active_connections (manager installed)) = Some ws /\
    dict_get token (user_sessions (manager installed)) = Some ui /\
    one_session_per_username (manager installed).
Proof.
  intros w.
  assert (Hc : consistent (manager w))
    by (apply run_calls_consistent, manager_init_consistent).
  split; [now apply consistent_one_session |].
  split; [exact (names_nodup Hc) |].
  intros ws token ui old Hold Hact evicted installed.
  split; [reflexivity |].
  assert (Hev : consistent (manager evicted) /\
                unnamed (ui_username ui) (manager evicted) /\
                (forall old0,
                    dict_get (ui_username ui) (username_to_session (manager w))
                    = Some old0 ->
                    dict_mem old0 (active_connections (manager evicted)) = false /\
                    dict_mem old0 (user_sessions (manager evicted)) = false)).
  { subst evicted. unfold accept. unfold bind at 1. unfold emit at 1.
    apply (evict_old_session_spec
             {| manager := manager w; trace := trace w ++ [Accept ws] |}
             (ui_username ui) Hc). }
  destruct Hev as (Hc1 & Hun & Hgone).
  destruct (Hgone old Hold) as [Hg1 Hg2].
  destruct (install_session_spec evicted ws token ui Hc1 Hun)
    as (Hc2 & Ha & Hs & _).
  repeat split; auto. now apply consistent_one_session.
Qed.

Lemma one_presence_entry_per_identity_witness :
  let w := run_calls Example.env
             (map as_call [Admit 1 "t1" Example.alice; Admit 2 "t2" Example.bob])
             world_init in
  dict_get "alice" (username_to_session (manager w)) = Some "t1" /\
  dict_mem "t1" (active_connections (manager w)) = true /\
  unnamed "alice"
    (manager (snd ((accept 7 ;; evict_old_session "alice") w))).
Proof.
  intros w. split; [reflexivity |]. split; [reflexivity |].
  pose proof (one_presence_entry_per_identity Example.env
                [Admit 1 "t1" Example.alice; Admit 2 "t2" Example.bob]) as H.
  destruct H as (_ & _ & H).
  destruct (H 7 "t9" Example.alice "t1" eq_refl eq_refl)
    as (_ & _ & _ & Hun & _).
  exact Hun.
Defined.

(** C9. After any sequence of [connect], [disconnect],
    [send_personal_message] and [broadcast] calls, whatever the sockets do
    (so with every pattern of failed sends and of the cleanup that follows
    them), [active_connections] and [user_sessions] have the same keys, and
    [username_to_session] maps the username of every stored [user_sessions]
    entry to the token of that entry. *)
Theorem registry_maps_stay_consistent (E : Env) (ops : list manager_op) :
  let m := manager (run_calls E ops world_init) in
  (forall t, In t (keys (active_connections m)) <->
             In t (keys (user_sessions m))) /\
  (forall t ui, dict_get t (user_sessions m) = Some ui ->
                dict_get (ui_username ui) (username_to_session m) = Some t).
Proof.
  intros m.
  assert (Hc : consistent m)
    by (apply run_calls_consistent, manager_init_consistent).
  split.
  - intros t. rewrite <- !dict_mem_keys. now rewrite (same_keys Hc).
  - exact (session_named Hc).
Qed.

Lemma registry_maps_stay_consistent_witness :
  let m := manager (run_calls Example.env_bob_down
                      [CallConnect 1 "t1" Example.alice;
                       CallConnect 2 "t2" Example.bob;
                       CallConnect 3 "t3" Example.alice] world_init) in
  dict_get "t3" (user_sessions m) = Some Example.alice /\
  dict_get "alice" (username_to_session m) = Some "t3".
Proof.
  intros m. split; [reflexivity |].
  exact (proj2 (registry_maps_stay_consistent Example.env_bob_down
                  [CallConnect 1 "t1" Example.alice;
                   CallConnect 2 "t2" Example.bob;
                   CallConnect 3 "t3" Example.alice])
               "t3" Example.alice eq_refl).
Defined.

(* ===================================================================== *)
(** ** Removal and teardown *)
(* ===================================================================== *)

Lemma teardown_absent (E : Env) (e : exn) (token : session_token) (w : world) :
  dict_mem token (active_connections (manager w)) = false ->
  teardown E e token w = (Ok tt, w).
Proof.
  intros H. unfold teardown, bind. now rewrite (disconnect_absent _ _ H).
Qed.




(** C3. [send_personal_message] to bob, whose socket is dead, with alice
    and bob registered: it returns [False] and bob's entry is removed, but
    the only effects are the failed write and the [is_online] update.  No
    [user_list_update] is written to alice's socket. *)
Theorem send_failure_is_not_announced :
  send_personal_message Example.env_bob_down
    (Typing "alice" (JBool true) (JStr "bob")) (JStr "bob") Example.lobby
  = (Ok false,
     {| manager := manager Example.alone;
        trace := [SendText 2 (Typing "alice" (JBool true) (JStr "bob")) false;
                  SetOnline 2 false] |}).
Proof. reflexivity. Qed.

(* ===================================================================== *)
(** ** [broadcast] while other handlers run *)
(* ===================================================================== *)

Lemma skipn_nth_error (A : Type) (l : list A) (n : nat) (x : A) :
  nth_error l n = Some x -> skipn n l = x :: skipn (S n) l.
Proof.
  revert n. induction l as [|y l IH]; intros [|n]; simpl; try discriminate.
  - now intros [= ->].
  - intros H. now apply IH.
Qed.

Lemma skipn_nth_error_none (A : Type) (l : list A) (n : nat) :
  nth_error l n = None -> skipn n l = [].
Proof.
  intros H. apply nth_error_None in H. now apply skipn_all2.
Qed.

Module InterleavedFacts.
(** With no other handler running, the loop that reads the dictionary at
    every step is the loop over the items met at its start. *)
Lemma live_sweep_quiet (E : Env) message exclude_session :
  forall fuel pos failed w,
    List.length (active_connections (manager w)) < fuel + pos ->
    Interleaved.live_sweep E fuel message exclude_session
               (List.length (active_connections (manager w))) pos [] failed w
    = sweep E message exclude_session
            (skipn pos (active_connections (manager w))) failed w.
Proof.
  induction fuel as [|fuel IH]; intros pos failed w Hfuel.
  - simpl in Hfuel. rewrite skipn_all2 by lia. reflexivity.
  - cbn [Interleaved.live_sweep]. unfold bind at 1. unfold get_manager. unfold Interleaved.dictiter_next.
    rewrite Nat.eqb_refl.
    destruct (nth_error (active_connections (manager w)) pos)
      as [[token ws]|] eqn:Hnth.
    + rewrite (skipn_nth_error _ _ Hnth). cbn [sweep].
      match goal with |- context [if ?c then _ else _] => destruct c end.
      * apply IH. lia.
      * apply bind_congr. intros failed' _.
        assert (Hro : reads_only
                        (try_except
                           (bind (send_text E ws message) (fun _ => ret failed))
                           (fun _ => ret (failed ++ [token])))).
        { apply reads_only_try.
          - apply reads_only_bind; [apply send_text_reads_only |].
            intros. apply reads_only_ret.
          - intros. apply reads_only_ret. }
        cbn [hd tl Interleaved.meanwhile]. unfold bind at 1, ret at 1.
        match goal with
        | |- _ = sweep _ _ _ _ _ ?w1 =>
            assert (Hm : manager w1 = manager w) by apply Hro
        end.
        rewrite <- Hm. apply IH. rewrite Hm. lia.
    + rewrite (skipn_nth_error_none _ _ Hnth). reflexivity.
Qed.

Lemma broadcast_quiet (E : Env) message exclude_session w :
  Interleaved.broadcast E message exclude_session [] w
  = broadcast E message exclude_session w.
Proof.
  unfold Interleaved.broadcast, broadcast. unfold bind at 1 3.
  unfold get_manager. unfold bind at 1 2.
  rewrite live_sweep_quiet by lia. reflexivity.
Qed.

(** C4. alice and bob are registered and a message is broadcast.  While
    the write to alice's socket is awaited, bob's handler runs its
    teardown and calls [disconnect].  The next step of the loop over
    [self.active_connections.items()] raises [RuntimeError] (dictionary
    changed size during iteration): the loop reads the live dictionary,
    not a copy made when it began. *)
Theorem removal_during_broadcast_raises :
  Interleaved.broadcast Example.env (Typing "alice" (JBool true) JNull) None
                        [Some "t2"] Example.lobby
  = (Raise RuntimeError,
     {| manager := manager Example.alone;
        trace := [SendText 1 (Typing "alice" (JBool true) JNull) true;
                  SetOnline 2 false] |}).
Proof. reflexivity. Qed.
End InterleavedFacts.

(* ===================================================================== *)
(** ** The router *)
(* ===================================================================== *)

Section RouterFacts.
Variable E : Env.

(** One turn of the loop on a decoded object. *)
Lemma handle_frame_object ws token ui fields :
  handle_frame E ws token ui (Some (JObj fields)) =
    if is_str (frame_type fields) "chat" then
      handle_chat E ws ui (frame_content fields) (frame_recipient fields)
    else if is_str (frame_type fields) "typing" then
      handle_typing E token ui (JObj fields) (frame_recipient fields)
    else if is_str (frame_type fields) "request_user_list" then
      broadcast_user_list_update E None
    else ret tt.
Proof. reflexivity. Qed.

Lemma persist_and_deliver_stored ws ui content recipient recipient_id w :
  store_fault E (List.length (trace w)) content = false ->
  persist_and_deliver E ws ui content recipient recipient_id w =
    deliver E ws ui content recipient
      {| manager := manager w;
         trace := trace w ++ [SaveMessage content (ui_id ui) recipient_id true] |}.
Proof.
  intros H. unfold persist_and_deliver, save_message, deliver.
  unfold bind at 1. unfold try_except, bind at 1. rewrite H. reflexivity.
Qed.

Lemma persist_and_deliver_refused ws ui content recipient recipient_id w :
  store_fault E (List.length (trace w)) content = true ->
  exists ok,
    snd (persist_and_deliver E ws ui content recipient recipient_id w) =
      {| manager := manager w;
         trace := trace w ++
                  [SaveMessage content (ui_id ui) recipient_id false;
                   SendText ws (Error FailedToSaveMessage) ok] |}.
Proof.
  intros H. unfold persist_and_deliver, save_message.
  unfold bind at 1. unfold try_except, bind at 1. rewrite H.
  unfold_monad. unfold send_text. simpl.
  destruct (send_fault E
              (List.length
                 (trace w ++ [SaveMessage content (ui_id ui) recipient_id false]))
              ws);
    [exists false | exists true]; simpl; now rewrite <- app_assoc.
Qed.

Lemma deliver_emits ws ui content recipient :
  emits not_save (deliver E ws ui content recipient).
Proof.
  unfold deliver. apply emits_bind.
  - intros w. exists []. simpl. now rewrite app_nil_r.
  - intros now. destruct (is_none recipient).
    + apply emits_broadcast; simpl; auto.
    + apply emits_bind.
      * apply emits_send_personal_message; simpl; auto.
      * intros. apply emits_send_text. simpl. auto.
Qed.

End RouterFacts.

Lemma persist_and_deliver_turn (E : Env) (ws : websocket) (ui : user_info)
      (content recipient : json) (rid : option Z) (w : world) :
  let run := persist_and_deliver E ws ui content recipient rid w in
  exists new,
    trace (snd run) = trace w ++ new /\
    (forall ws' p ok,
        In (SendText ws' p ok) new -> carries_chat p = true ->
        exists rest,
          new = SaveMessage content (ui_id ui) rid true :: rest /\
          In (SendText ws' p ok) rest) /\
    if store_fault E (List.length (trace w)) content then
      manager (snd run) = manager w /\
      exists ok, new = [SaveMessage content (ui_id ui) rid false;
                        SendText ws (Error FailedToSaveMessage) ok]
    else
      run = deliver E ws ui content recipient
              {| manager := manager w;
                 trace := trace w ++
                          [SaveMessage content (ui_id ui) rid true] |} /\
      exists rest,
        new = SaveMessage content (ui_id ui) rid true :: rest /\
        Forall not_save rest.
Proof.
  cbv zeta.
  destruct (store_fault E (List.length (trace w)) content) eqn:Hst.
  - destruct (persist_and_deliver_refused E ws ui content recipient rid w Hst)
      as [ok Hok].
    rewrite Hok. cbn [manager trace]. eexists. split; [reflexivity |]. split.
    + intros ws' p ok' [[=] | [[= <- <- <-] | []]]. discriminate.
    + split; [reflexivity | eauto].
  - rewrite (persist_and_deliver_stored _ _ _ _ _ _ _ Hst).
    destruct (@deliver_emits E ws ui content recipient
                {| manager := manager w;
                   trace := trace w ++
                            [SaveMessage content (ui_id ui) rid true] |})
      as [rest [Hrest Hns]].
    exists (SaveMessage content (ui_id ui) rid true :: rest). split.
    + rewrite Hrest. cbn [trace]. now rewrite <- app_assoc.
    + split.
      * intros ws' p ok [[=] | Hin] _. eauto.
      * split; [reflexivity | eauto].
Qed.

(** C2. In the turn of the loop that handles a chat frame, [save_message]
    is reached exactly when the recipient is absent or falsy, or is found
    by [get_user_by_username]; the save of the frame's own content, with
    the sender's id and the recipient's id, is then the first effect of
    the turn.  When it raises, the turn consists of the failed save and of
    one write, the ["Failed to save message"] error to the sender's own
    socket, and the registry is untouched.  When it succeeds, the turn
    goes on with the delivery (lines 748-773), which saves nothing more.
    Every write of an envelope that carries the message (the ["chat"]
    envelope to a recipient, the ["chat_sent"] confirmation) comes after
    that successful save; when [save_message] is not reached, nothing is
    saved and no such envelope is written. *)
Theorem persist_before_deliver (E : Env) (ws : websocket)
        (token : session_token) (ui : user_info)
        (fields : list (string * json)) (w : world) :
  is_str (frame_type fields) "chat" = true ->
  let content := frame_content fields in
  let recipient := frame_recipient fields in
  let run := handle_frame E ws token ui (Some (JObj fields)) w in
  exists new,
    trace (snd run) = trace w ++ new /\
    (forall ws' p ok,
        In (SendText ws' p ok) new -> carries_chat p = true ->
        exists rid rest,
          resolved E recipient w = Some rid /\
          new = SaveMessage content (ui_id ui) rid true :: rest /\
          In (SendText ws' p ok) rest) /\
    match resolved E recipient w with
    | Some rid =>
        if store_fault E (List.length (trace w)) content then
          manager (snd run) = manager w /\
          exists ok, new = [SaveMessage content (ui_id ui) rid false;
                            SendText ws (Error FailedToSaveMessage) ok]
        else
          run = deliver E ws ui content recipient
                  {| manager := manager w;
                     trace := trace w ++
                              [SaveMessage content (ui_id ui) rid true] |} /\
          exists rest,
            new = SaveMessage content (ui_id ui) rid true :: rest /\
            Forall not_save rest
    | None =>
        Forall not_save new /\
        forall ws' p ok, In (SendText ws' p ok) new -> carries_chat p = false
    end.
Proof.
  intros Hchat content recipient run. subst run.
  rewrite handle_frame_object, Hchat. fold content recipient.
  assert (Hreached :
            forall rid,
              resolved E recipient w = Some rid ->
              handle_chat E ws ui content recipient w
              = persist_and_deliver E ws ui content recipient rid w).
  { intros rid. unfold resolved, handle_chat.
    destruct (truthy recipient); [| now intros [= <-]].
    unfold bind.
    pose proof (get_user_by_username_pure E recipient w) as Hpure.
    destruct (get_user_by_username E recipient w) as [[[row|]|e] w1];
      simpl in Hpure; subst w1; cbn [fst]; try discriminate.
    now intros [= <-]. }
  destruct (resolved E recipient w) as [rid|] eqn:Hres.
  - rewrite (Hreached rid eq_refl).
    destruct (persist_and_deliver_turn E ws ui content recipient rid w)
      as (new & Htrace & Horder & Hcase).
    exists new. split; [exact Htrace |]. split; [| exact Hcase].
    intros ws' p ok Hin Hcarry.
    destruct (Horder ws' p ok Hin Hcarry) as (rest & Hnew & Hrest).
    exists rid, rest. auto.
  - assert (Hturn :
              (exists ok,
                  snd (handle_chat E ws ui content recipient w)
                  = {| manager := manager w;
                       trace := trace w ++
                                [SendText ws (Error (UserNotFound recipient))
                                          ok] |}) \/
              snd (handle_chat E ws ui content recipient w) = w).
    { revert Hres. unfold resolved, handle_chat.
      destruct (truthy recipient); [| discriminate].
      unfold bind.
      pose proof (get_user_by_username_pure E recipient w) as Hpure.
      destruct (get_user_by_username E recipient w) as [[[row|]|e] w1];
        simpl in Hpure; subst w1; cbn [fst]; try discriminate; intros _.
      - left. unfold send_text.
        destruct (send_fault E (List.length (trace w)) ws);
          [exists false | exists true]; reflexivity.
      - now right. }
    destruct Hturn as [[ok Hturn] | Hturn]; rewrite Hturn; cbn [trace].
    + eexists. split; [reflexivity |]. split; [| split].
      * intros ws' p ok' [[= <- <- <-] | []]. discriminate.
      * repeat constructor.
      * intros ws' p ok' [[= <- <- <-] | []]. reflexivity.
    + exists []. rewrite app_nil_r. split; [reflexivity |].
      split; [intros ? ? ? [] | split; [constructor | intros ? ? ? []]].
Qed.

Lemma persist_before_deliver_witness :
  let fields := [("content", JStr "hi"); ("recipient", JStr "bob")] in
  is_str (frame_type fields) "chat" = true /\
  resolved Example.env_store_down (frame_recipient fields) Example.lobby
  = Some (Some 2%Z) /\
  (exists ok,
      trace (snd (handle_frame Example.env_store_down 1 "t1" Example.alice
                    (Some (JObj fields)) Example.lobby))
      = [SaveMessage (JStr "hi") 1 (Some 2%Z) false;
         SendText 1 (Error FailedToSaveMessage) ok]) /\
  (exists rest,
      trace (snd (handle_frame Example.env 1 "t1" Example.alice
                    (Some (JObj fields)) Example.lobby))
      = SaveMessage (JStr "hi") 1 (Some 2%Z) true :: rest /\
      Forall not_save rest).
Proof.
  intros fields. split; [reflexivity |]. split; [reflexivity |]. split.
  - destruct (persist_before_deliver Example.env_store_down 1 "t1"
                Example.alice fields Example.lobby eq_refl)
      as (new & Htrace & _ & Hcase).
    cbv zeta in Hcase. cbn [resolved] in Hcase.
    change (resolved Example.env_store_down (frame_recipient fields)
                     Example.lobby) with (Some (Some 2%Z)) in Hcase.
    change (store_fault Example.env_store_down
                        (List.length (trace Example.lobby))
                        (frame_content fields)) with true in Hcase.
    destruct Hcase as (_ & ok & Hnew). exists ok.
    rewrite Htrace, Hnew. reflexivity.
  - destruct (persist_before_deliver Example.env 1 "t1"
                Example.alice fields Example.lobby eq_refl)
      as (new & Htrace & _ & Hcase).
    change (resolved Example.env (frame_recipient fields) Example.lobby)
      with (Some (Some 2%Z)) in Hcase.
    change (store_fault Example.env (List.length (trace Example.lobby))
                        (frame_content fields)) with false in Hcase.
    destruct Hcase as (_ & rest & Hnew & Hns). exists rest.
    rewrite Htrace, Hnew. split; [reflexivity | exact Hns].
Defined.

Lemma truthy_not_none (v : json) : truthy v = true -> is_none v = false.
Proof. destruct v; simpl; congruence. Qed.

Lemma lookup_ok_bound (E : Env) (v : json) (w : world) (r : option user_row) :
  fst (get_user_by_username E v w) = Ok r -> bind_error v = None.
Proof.
  unfold get_user_by_username. destruct (bind_error v); [discriminate | auto].
Qed.

Lemma bound_hashable (v : json) : bind_error v = None -> hashable v = true.
Proof. destruct v; simpl; congruence. Qed.

Lemma bound_printable (v : json) : bind_error v = None -> printable v = true.
Proof.
  destruct v; simpl; try reflexivity.
  destruct (encodable s); [reflexivity | discriminate].
Qed.

Lemma falsy_printable (v : json) : truthy v = false -> printable v = true.
Proof.
  destruct v; simpl; try reflexivity.
  destruct (String.eqb_spec s ""); [subst; reflexivity | discriminate].
Qed.

Lemma lookup_ok_hashable (E : Env) (v : json) (w : world) (r : option user_row) :
  fst (get_user_by_username E v w) = Ok r -> hashable v = true.
Proof. intros H. eapply bound_hashable, lookup_ok_bound, H. Qed.

Lemma lookup_ok_printable (E : Env) (v : json) (w : world) (r : option user_row) :
  fst (get_user_by_username E v w) = Ok r -> printable v = true.
Proof. intros H. eapply bound_printable, lookup_ok_bound, H. Qed.

Lemma length_snoc (A : Type) (l : list A) (x : A) :
  List.length (l ++ [x]) = S (List.length l).
Proof. rewrite length_app. simpl. lia. Qed.

(** C5. A chat frame with no recipient (absent or [null]), once stored, is
    written to every connection of [active_connections], the sender's own
    connection included: [broadcast] is called without [exclude_session].
    A connection whose socket never fails receives it. *)
Theorem global_chat_reaches_every_connection (E : Env) (ws : websocket)
        (token : session_token) (ui : user_info)
        (fields : list (string * json)) (w : world) :
  is_str (frame_type fields) "chat" = true ->
  frame_recipient fields = JNull ->
  store_fault E (List.length (trace w)) (frame_content fields) = false ->
  let chat := Chat (frame_content fields) (ui_username ui)
                   (clock E (S (List.length (trace w)))) true JNull in
  exists new,
    trace (snd (handle_frame E ws token ui (Some (JObj fields)) w)) =
      trace w ++ SaveMessage (frame_content fields) (ui_id ui) None true :: new /\
    (forall t ws', In (t, ws') (active_connections (manager w)) ->
        exists ok, In (SendText ws' chat ok) new /\
                   ((forall n, send_fault E n ws' = None) -> ok = true)) /\
    (dict_get token (active_connections (manager w)) = Some ws ->
     exists ok, In (SendText ws chat ok) new).
Proof.
  intros Hchat Hrec Hst chat.
  rewrite handle_frame_object, Hchat. unfold handle_chat. rewrite Hrec.
  cbn [truthy]. rewrite (persist_and_deliver_stored _ _ _ _ _ _ _ Hst).
  unfold deliver. unfold bind at 1. unfold utcnow. cbn [is_none trace].
  rewrite length_snoc. fold chat.
  destruct (broadcast_attempts E chat
              {| manager := manager w;
                 trace := trace w ++
                          [SaveMessage (frame_content fields) (ui_id ui) None true] |})
    as [new [Hnew Hall]].
  exists new. split; [| split].
  - rewrite Hnew. cbn [trace]. now rewrite <- app_assoc.
  - exact Hall.
  - intros Hown. apply dict_get_in in Hown.
    destruct (Hall token ws Hown) as [ok [Hin _]]. eauto.
Qed.

Lemma global_chat_reaches_every_connection_witness :
  is_str (frame_type [("content", JStr "hi")]) "chat" = true /\
  frame_recipient [("content", JStr "hi")] = JNull /\
  store_fault Example.env (List.length (trace Example.lobby)) (JStr "hi") = false /\
  exists new,
    trace (snd (handle_frame Example.env 1 "t1" Example.alice
                  (Some (JObj [("content", JStr "hi")])) Example.lobby)) =
      trace Example.lobby ++ SaveMessage (JStr "hi") 1 None true :: new /\
    (forall t ws', In (t, ws') (active_connections (manager Example.lobby)) ->
        exists ok,
          In (SendText ws' (Chat (JStr "hi") "alice" "12:00" true JNull) ok) new /\
          ((forall n, send_fault Example.env n ws' = None) -> ok = true)) /\
    (dict_get "t1" (active_connections (manager Example.lobby)) = Some 1 ->
     exists ok, In (SendText 1 (Chat (JStr "hi") "alice" "12:00" true JNull) ok) new).
Proof.
  split; [reflexivity |]. split; [reflexivity |]. split; [reflexivity |].
  exact (global_chat_reaches_every_connection Example.env 1 "t1" Example.alice
           [("content", JStr "hi")] Example.lobby eq_refl eq_refl eq_refl).
Defined.

(** C5, as the claim states it, fails: alice, registered under token
    ["t1"] on socket 1, sends a global chat frame and the ["chat"]
    envelope is written to socket 1, her own, as well as to bob's. *)
Lemma global_chat_is_echoed_to_sender :
  dict_get "t1" (active_connections (manager Example.lobby)) = Some 1 /\
  trace (snd (handle_frame Example.env 1 "t1" Example.alice
                (Some (JObj [("type", JStr "chat"); ("content", JStr "hi")]))
                Example.lobby))
  = [SaveMessage (JStr "hi") 1 None true;
     SendText 1 (Chat (JStr "hi") "alice" "12:00" true JNull) true;
     SendText 2 (Chat (JStr "hi") "alice" "12:00" true JNull) true].
Proof. split; reflexivity. Qed.

(** C8. A chat frame whose recipient is named (truthy).  When
    [get_user_by_username] finds no user for it, the turn consists of one
    write, the ["User ... not found"] error to the sender's own socket;
    nothing is saved, nothing is written to any other socket, and the
    registry is as it was.  The write succeeds exactly when the sender's
    socket takes it, and then the turn returns normally and the loop goes
    on with the next frame.  When the recipient is a value sqlite3 cannot
    bind as the parameter of the query (a list, an object, an integer
    beyond 64 bits, a string that cannot be encoded), the lookup raises:
    the turn has no effect at all, and the handler leaves the loop through
    its [except Exception] clause. *)
Theorem unknown_recipient_is_reported_to_sender_only (E : Env) (ws : websocket)
        (token : session_token) (ui : user_info)
        (fields : list (string * json)) (w : world) :
  is_str (frame_type fields) "chat" = true ->
  truthy (frame_recipient fields) = true ->
  (fst (get_user_by_username E (frame_recipient fields) w) = Ok None ->
   exists ok,
     let w' := {| manager := manager w;
                  trace := trace w ++
                           [SendText ws (Error (UserNotFound (frame_recipient fields)))
                                     ok] |} in
     snd (handle_frame E ws token ui (Some (JObj fields)) w) = w' /\
     (ok = true <-> send_fault E (List.length (trace w)) ws = None) /\
     (ok = true ->
      fst (handle_frame E ws token ui (Some (JObj fields)) w) = Ok tt /\
      forall rest,
        serve E ws token ui (Text (Some (JObj fields)) :: rest) w
        = serve E ws token ui rest w')) /\
  (forall e,
      bind_error (frame_recipient fields) = Some e ->
      handle_frame E ws token ui (Some (JObj fields)) w = (Raise e, w) /\
      forall rest,
        session_loop E ws token ui (Text (Some (JObj fields)) :: rest) w
        = teardown E e token w).
Proof.
  intros Hchat Htr. split.
  - intros Hlook.
    assert (Hturn : handle_frame E ws token ui (Some (JObj fields)) w =
                    send_text E ws (Error (UserNotFound (frame_recipient fields))) w).
    { rewrite handle_frame_object, Hchat. unfold handle_chat. rewrite Htr.
      unfold bind.
      pose proof (get_user_by_username_pure E (frame_recipient fields) w) as Hpure.
      destruct (get_user_by_username E (frame_recipient fields) w) as [res w1].
      simpl in Hlook, Hpure. now subst res w1. }
    cbn [serve]. unfold bind. rewrite Hturn. unfold send_text.
    destruct (send_fault E (List.length (trace w)) ws) as [e|];
      [exists false | exists true]; cbn.
    + split; [reflexivity |]. split; [split; discriminate | discriminate].
    + split; [reflexivity |]. split; [tauto |]. intros _. split; reflexivity.
  - intros e He.
    assert (Hraise : handle_frame E ws token ui (Some (JObj fields)) w
                     = (Raise e, w)).
    { rewrite handle_frame_object, Hchat. unfold handle_chat. rewrite Htr.
      unfold bind, get_user_by_username. now rewrite He. }
    split; [exact Hraise |]. intros rest.
    unfold session_loop, try_except. cbn [serve]. unfold bind.
    now rewrite Hraise.
Qed.

Lemma unknown_recipient_is_reported_to_sender_only_witness :
  let fields := [("content", JStr "hi"); ("recipient", JStr "dave")] in
  is_str (frame_type fields) "chat" = true /\
  truthy (frame_recipient fields) = true /\
  fst (get_user_by_username Example.env (frame_recipient fields) Example.lobby)
  = Ok None /\
  exists ok,
    snd (handle_frame Example.env 1 "t1" Example.alice (Some (JObj fields))
                      Example.lobby)
    = {| manager := manager Example.lobby;
         trace := [SendText 1 (Error (UserNotFound (JStr "dave"))) ok] |} /\
    (ok = true <-> send_fault Example.env 0 1 = None).
Proof.
  intros fields.
  split; [reflexivity |]. split; [reflexivity |]. split; [reflexivity |].
  destruct (proj1 (unknown_recipient_is_reported_to_sender_only
                     Example.env 1 "t1" Example.alice fields Example.lobby
                     eq_refl eq_refl) eq_refl) as [ok (Hw & Hok & _)].
  exists ok. split; [exact Hw | exact Hok].
Defined.

(** C8, as the claim states it, fails: alice sends a chat frame whose
    recipient is the string of one lone surrogate, which names no user.
    sqlite3 cannot bind it, [get_user_by_username] raises
    [UnicodeEncodeError], no error envelope is written to alice, and her
    handler leaves the loop: she is removed from the registry and bob is
    told she disconnected due to an error.  The frame that follows is
    never read.  An integer recipient beyond 64 bits does the same with
    [OverflowError]. *)
Lemma unbindable_recipient_ends_the_connection :
  let fields := [("content", JStr "hi");
                 ("recipient", JStr Example.lone_surrogate)] in
  let large := [("content", JStr "hi"); ("recipient", JInt (10 ^ 30))] in
  let gone :=
    {| manager := {| active_connections := [("t2", 2)];
                     user_sessions := [("t2", Example.bob)];
                     username_to_session := [("bob", "t2")] |};
       trace := [SetOnline 1 false;
                 SendText 2 (UserListUpdate
                               ["bob"]
                               (Some "alice disconnected due to error")
                               "12:00") true] |} in
  truthy (frame_recipient fields) = true /\
  find (fun row => String.eqb (row_username row) Example.lone_surrogate)
       (users Example.env) = None /\
  handle_frame Example.env 1 "t1" Example.alice (Some (JObj fields))
               Example.lobby
  = (Raise UnicodeEncodeError, Example.lobby) /\
  session_loop Example.env 1 "t1" Example.alice
               [Text (Some (JObj fields)); Text None] Example.lobby
  = (Ok tt, gone) /\
  handle_frame Example.env 1 "t1" Example.alice (Some (JObj large))
               Example.lobby
  = (Raise OverflowError, Example.lobby) /\
  session_loop Example.env 1 "t1" Example.alice
               [Text (Some (JObj large)); Text None] Example.lobby
  = (Ok tt, gone).
Proof. repeat split. Qed.

(** C10. A decoded object whose ["type"] is present and is none of
    ["chat"], ["typing"], ["request_user_list"] leaves the world as it is
    (nothing written, nothing saved, the registry untouched), the turn
    returns and the loop goes on.  A decoded object with no ["type"] key is
    handled by the chat branch, exactly as the same object with
    ["type": "chat"] added. *)
Theorem unknown_type_is_ignored (E : Env) (ws : websocket)
        (token : session_token) (ui : user_info)
        (fields : list (string * json)) (w : world) :
  (forall kind,
      dict_get "type" fields = Some kind ->
      is_str kind "chat" = false ->
      is_str kind "typing" = false ->
      is_str kind "request_user_list" = false ->
      handle_frame E ws token ui (Some (JObj fields)) w = (Ok tt, w) /\
      forall rest,
        serve E ws token ui (Text (Some (JObj fields)) :: rest) w
        = serve E ws token ui rest w) /\
  (dict_get "type" fields = None ->
   handle_frame E ws token ui (Some (JObj fields)) w
   = handle_chat E ws ui (frame_content fields) (frame_recipient fields) w /\
   handle_frame E ws token ui (Some (JObj fields)) w
   = handle_frame E ws token ui (Some (JObj (("type", JStr "chat") :: fields))) w).
Proof.
  split.
  - intros kind Hkind H1 H2 H3.
    assert (Hturn : handle_frame E ws token ui (Some (JObj fields)) w = (Ok tt, w)).
    { rewrite handle_frame_object. unfold frame_type. rewrite Hkind, H1, H2, H3.
      reflexivity. }
    split; [exact Hturn |].
    intros rest. cbn [serve]. unfold bind. now rewrite Hturn.
  - intros Hnone. rewrite !handle_frame_object. unfold frame_type.
    rewrite Hnone. split; reflexivity.
Qed.

Lemma unknown_type_is_ignored_witness :
  dict_get "type" [("type", JStr "ping"); ("content", JStr "hi")]
  = Some (JStr "ping") /\
  is_str (JStr "ping") "chat" = false /\
  is_str (JStr "ping") "typing" = false /\
  is_str (JStr "ping") "request_user_list" = false /\
  handle_frame Example.env 1 "t1" Example.alice
    (Some (JObj [("type", JStr "ping"); ("content", JStr "hi")])) Example.lobby
  = (Ok tt, Example.lobby) /\
  dict_get "type" [("content", JStr "hi")] = None /\
  handle_frame Example.env 1 "t1" Example.alice
    (Some (JObj [("content", JStr "hi")])) Example.lobby
  = handle_frame Example.env 1 "t1" Example.alice
      (Some (JObj [("type", JStr "chat"); ("content", JStr "hi")])) Example.lobby.
Proof.
  split; [reflexivity |]. split; [reflexivity |]. split; [reflexivity |].
  split; [reflexivity |].
  split.
  - exact (proj1 (proj1 (unknown_type_is_ignored Example.env 1 "t1" Example.alice
                           [("type", JStr "ping"); ("content", JStr "hi")]
                           Example.lobby)
                        (JStr "ping") eq_refl eq_refl eq_refl eq_refl)).
  - split; [reflexivity |].
    exact (proj2 (proj2 (unknown_type_is_ignored Example.env 1 "t1" Example.alice
                           [("content", JStr "hi")] Example.lobby)
                        eq_refl)).
Defined.

(** C10, as the claim states it, fails: the text [42] is valid JSON and has
    no ["type"] field, yet it is not processed as a chat frame.
    [message_data.get] raises [AttributeError], nothing is saved or sent
    to alice, and her handler leaves the loop: she is removed from the
    registry, bob is told, and the chat frame that follows is never
    read.  The same happens for a frame that is a JSON list. *)
Lemma number_frame_is_not_processed_as_chat :
  let gone :=
    {| manager := {| active_connections := [("t2", 2)];
                     user_sessions := [("t2", Example.bob)];
                     username_to_session := [("bob", "t2")] |};
       trace := [SetOnline 1 false;
                 SendText 2 (UserListUpdate
                               ["bob"]
                               (Some "alice disconnected due to error")
                               "12:00") true] |} in
  handle_frame Example.env 1 "t1" Example.alice (Some (JInt 42)) Example.lobby
  = (Raise AttributeError, Example.lobby) /\
  session_loop Example.env 1 "t1" Example.alice
               [Text (Some (JInt 42));
                Text (Some (JObj [("content", JStr "hi")]))] Example.lobby
  = (Ok tt, gone) /\
  session_loop Example.env 1 "t1" Example.alice
               [Text (Some (JArr [JInt 1; JInt 2]));
                Text (Some (JObj [("content", JStr "hi")]))] Example.lobby
  = (Ok tt, gone).
Proof. repeat split. Qed.

(** A private chat frame whose recipient is found and whose content the
    store takes. *)
Lemma private_chat_stored
        (E : Env) (ws : websocket) (token : session_token) (ui : user_info)
        (fields : list (string * json)) (w : world) (row : user_row) :
  is_str (frame_type fields) "chat" = true ->
  truthy (frame_recipient fields) = true ->
  fst (get_user_by_username E (frame_recipient fields) w) = Ok (Some row) ->
  store_fault E (List.length (trace w)) (frame_content fields) = false ->
  consistent (manager w) ->
  let content := frame_content fields in
  let recipient := frame_recipient fields in
  let now := clock E (S (List.length (trace w))) in
  let chat := Chat content (ui_username ui) now false recipient in
  exists deliveries cleanup delivered ok,
    trace (snd (handle_frame E ws token ui (Some (JObj fields)) w)) =
      trace w ++
      [SaveMessage content (ui_id ui) (Some (row_id row)) true] ++
      deliveries ++ cleanup ++
      [SendText ws (ChatSent content (ui_username ui) now false recipient delivered)
                ok] /\
    Forall is_set_online cleanup /\
    match live_socket (manager w) recipient with
    | Some (_, recipient_ws) => deliveries = [SendText recipient_ws chat delivered]
    | None => deliveries = [] /\ cleanup = [] /\ delivered = false
    end /\
    (ok = true <-> fst (handle_frame E ws token ui (Some (JObj fields)) w) = Ok tt).
Proof.
  intros Hchat Htr Hlook Hst Hc content recipient now chat.
  pose proof (truthy_not_none _ Htr) as Hnone.
  pose proof (lookup_ok_hashable _ _ _ Hlook) as Hhash.
  pose proof (lookup_ok_printable _ _ _ Hlook) as Hprint.
  change (printable recipient = true) in Hprint.
  set (w1 := {| manager := manager w;
                trace := trace w ++
                         [SaveMessage content (ui_id ui) (Some (row_id row)) true] |}).
  assert (Hturn :
            handle_frame E ws token ui (Some (JObj fields)) w =
            bind (send_personal_message E chat recipient)
                 (fun success =>
                    send_text E ws (ChatSent content (ui_username ui) now false
                                             recipient success)) w1).
  { rewrite handle_frame_object, Hchat. unfold handle_chat. rewrite Htr.
    unfold bind at 1.
    pose proof (get_user_by_username_pure E (frame_recipient fields) w) as Hpure.
    destruct (get_user_by_username E (frame_recipient fields) w) as [res w0].
    simpl in Hlook, Hpure. subst res w0.
    rewrite (persist_and_deliver_stored _ _ _ _ _ _ _ Hst).
    unfold deliver. unfold bind at 1. unfold utcnow. cbn [trace].
    rewrite length_snoc, Hnone. reflexivity. }
  rewrite Hturn. clear Hturn.
  assert (Hconfirm : forall delivered w2,
             exists ok,
               trace (snd (send_text E ws
                             (ChatSent content (ui_username ui) now false
                                       recipient delivered) w2))
               = trace w2 ++
                 [SendText ws (ChatSent content (ui_username ui) now false
                                        recipient delivered) ok] /\
               (ok = true <->
                fst (send_text E ws
                       (ChatSent content (ui_username ui) now false
                                 recipient delivered) w2) = Ok tt)).
  { intros delivered w2. unfold send_text.
    destruct (send_fault E (List.length (trace w2)) ws);
      [exists false | exists true]; simpl; split; auto; split; congruence. }
  destruct (live_socket (manager w) recipient) as [[rtoken rws]|] eqn:Hlive.
  - destruct (send_fault E (List.length (trace w1)) rws) as [e|] eqn:Hf.
    + destruct (live_socket_registered _ _ Hlive) as (s & _ & _ & _ & Hact).
      assert (Hmem : dict_mem rtoken (active_connections (manager w)) = true)
        by (unfold dict_mem; now rewrite Hact).
      destruct (consistent_session_of_active _ Hc Hmem) as [rui Hrui].
      unfold bind.
      rewrite (@send_personal_message_failed E chat recipient w1 rtoken rws e rui
                 Hlive Hf Hrui).
      match goal with
      | |- context [send_text E ws ?p ?w2] =>
          destruct (Hconfirm false w2) as [ok [Hok Hret]]
      end.
      exists [SendText rws chat false], (offline_events rui), false, ok.
      split; [| split; [| split]].
      * rewrite Hok. cbn [trace w1]. now rewrite <- !app_assoc.
      * unfold offline_events.
        destruct (int_truthy (ui_id rui)); repeat constructor.
      * reflexivity.
      * exact Hret.
    + unfold bind.
      rewrite (@send_personal_message_delivered E chat recipient w1 rtoken rws
                 Hlive Hf).
      match goal with
      | |- context [send_text E ws ?p ?w2] =>
          destruct (Hconfirm true w2) as [ok [Hok Hret]]
      end.
      exists [SendText rws chat true], [], true, ok.
      split; [| split; [| split]].
      * rewrite Hok. cbn [trace w1]. now rewrite <- !app_assoc.
      * constructor.
      * reflexivity.
      * exact Hret.
  - unfold bind.
    rewrite (@send_personal_message_offline E chat recipient w1 Hhash Hlive).
    rewrite Hprint.
    destruct (Hconfirm false w1) as [ok [Hok Hret]].
    exists [], [], false, ok.
    split; [| split; [| split]].
    + rewrite Hok. cbn [trace w1]. now rewrite <- !app_assoc.
    + constructor.
    + auto.
    + exact Hret.
Qed.

(** C7. A chat frame whose recipient is named (truthy) and found by
    [get_user_by_username], handled in a consistent registry.  When the
    store takes the content, the turn saves the message once, writes the
    ["chat"] envelope to at most one socket (the recipient's registered
    connection, if there is one), and then writes to the sender a
    ["chat_sent"] confirmation whose [delivered] flag is the outcome of the
    write to the recipient.  With no registered connection of the
    recipient nothing is written to anyone else, the flag is [False], and
    the turn returns normally whenever the confirmation itself is
    written.  When the store refuses the content, nothing is saved, the
    recipient gets nothing, and the sender gets the
    ["Failed to save message"] error instead of a confirmation. *)
Theorem private_chat_saved_once_delivered_at_most_once
        (E : Env) (ws : websocket) (token : session_token) (ui : user_info)
        (fields : list (string * json)) (w : world) (row : user_row) :
  is_str (frame_type fields) "chat" = true ->
  truthy (frame_recipient fields) = true ->
  fst (get_user_by_username E (frame_recipient fields) w) = Ok (Some row) ->
  consistent (manager w) ->
  let content := frame_content fields in
  let recipient := frame_recipient fields in
  let now := clock E (S (List.length (trace w))) in
  let chat := Chat content (ui_username ui) now false recipient in
  let run := handle_frame E ws token ui (Some (JObj fields)) w in
  if store_fault E (List.length (trace w)) content then
    exists ok,
      snd run =
        {| manager := manager w;
           trace := trace w ++
                    [SaveMessage content (ui_id ui) (Some (row_id row)) false;
                     SendText ws (Error FailedToSaveMessage) ok] |}
  else
    exists deliveries cleanup delivered ok,
      trace (snd run) =
        trace w ++
        [SaveMessage content (ui_id ui) (Some (row_id row)) true] ++
        deliveries ++ cleanup ++
        [SendText ws (ChatSent content (ui_username ui) now false recipient
                               delivered) ok] /\
      Forall is_set_online cleanup /\
      match live_socket (manager w) recipient with
      | Some (_, recipient_ws) =>
          deliveries = [SendText recipient_ws chat delivered]
      | None => deliveries = [] /\ cleanup = [] /\ delivered = false
      end /\
      (ok = true <-> fst run = Ok tt).
Proof.
  intros Hchat Htr Hlook Hc content recipient now chat run. subst run.
  destruct (store_fault E (List.length (trace w)) content) eqn:Hst.
  - rewrite handle_frame_object, Hchat. unfold handle_chat. rewrite Htr.
    unfold bind at 1.
    pose proof (get_user_by_username_pure E (frame_recipient fields) w) as Hpure.
    destruct (get_user_by_username E (frame_recipient fields) w) as [res w0].
    simpl in Hlook, Hpure. subst res w0.
    exact (persist_and_deliver_refused E ws ui content recipient
                                       (Some (row_id row)) w Hst).
  - exact (private_chat_stored E ws token ui fields w Hchat Htr Hlook Hst Hc).
Qed.

Lemma private_chat_saved_once_delivered_at_most_once_witness :
  let fields := [("content", JStr "psst"); ("recipient", JStr "bob")] in
  let chat := Chat (JStr "psst") "alice" "12:00" false (JStr "bob") in
  is_str (frame_type fields) "chat" = true /\
  truthy (frame_recipient fields) = true /\
  fst (get_user_by_username Example.env (frame_recipient fields) Example.lobby)
  = Ok (Some (mk_user_row 2 "bob")) /\
  consistent (manager Example.lobby) /\
  exists deliveries cleanup delivered ok,
    trace (snd (handle_frame Example.env 1 "t1" Example.alice
                  (Some (JObj fields)) Example.lobby)) =
      trace Example.lobby ++
      [SaveMessage (JStr "psst") 1 (Some 2%Z) true] ++
      deliveries ++ cleanup ++
      [SendText 1 (ChatSent (JStr "psst") "alice" "12:00" false (JStr "bob")
                            delivered) ok] /\
    Forall is_set_online cleanup /\
    deliveries = [SendText 2 chat delivered] /\
    (ok = true <->
     fst (handle_frame Example.env 1 "t1" Example.alice
            (Some (JObj fields)) Example.lobby) = Ok tt).
Proof.
  intros fields chat.
  split; [reflexivity |]. split; [reflexivity |]. split; [reflexivity |].
  split; [exact lobby_consistent |].
  exact (private_chat_saved_once_delivered_at_most_once
           Example.env 1 "t1" Example.alice fields Example.lobby
           (row := mk_user_row 2 "bob") eq_refl eq_refl eq_refl
           lobby_consistent).
Defined.

(** C7, as the claim states it, fails: bob exists and is connected, alice
    sends him a chat frame whose content is [null], and nothing is
    persisted (the column [content] is NOT NULL, so the INSERT raises);
    bob gets nothing and alice gets the ["Failed to save message"] error,
    not a ["chat_sent"] confirmation. *)
Lemma private_chat_with_null_content_is_not_saved :
  let fields := [("type", JStr "chat"); ("content", JNull);
                 ("recipient", JStr "bob")] in
  fst (get_user_by_username Example.env (frame_recipient fields) Example.lobby)
  = Ok (Some (mk_user_row 2 "bob")) /\
  live_socket (manager Example.lobby) (frame_recipient fields)
  = Some ("t2", 2) /\
  handle_frame Example.env 1 "t1" Example.alice (Some (JObj fields))
               Example.lobby
  = (Ok tt,
     {| manager := manager Example.lobby;
        trace := [SaveMessage JNull 1 (Some 2%Z) false;
                  SendText 1 (Error FailedToSaveMessage) true] |}).
Proof. repeat split. Qed.

(* ===================================================================== *)
(** ** Beyond the claims: what [broadcast] writes and what it removes *)
(* ===================================================================== *)

Lemma writes_app (a b : list event) : writes (a ++ b) = writes a ++ writes b.
Proof.
  induction a as [|ev a IH]; simpl; auto.
  destruct ev; simpl; auto. now rewrite IH.
Qed.

Lemma writes_of_online (l : list event) : Forall is_set_online l -> writes l = [].
Proof.
  induction 1 as [|ev l Hev _ IH]; simpl; auto.
  destruct ev; simpl in *; tauto.
Qed.

Lemma listed_in (t : session_token) (fs : list session_token) :
  listed t fs = true <-> In t fs.
Proof.
  unfold listed. rewrite existsb_exists. split.
  - intros [x [Hin Heq]]. apply String.eqb_eq in Heq. now subst.
  - intros Hin. exists t. split; auto. apply String.eqb_refl.
Qed.

Lemma recipients_of_empty_exclusion (items : dict websocket) :
  recipients_of (Some "") items = map snd items.
Proof.
  unfold recipients_of.
  induction items as [|kv d IH]; [reflexivity |].
  cbn [filter map]. change (excluded (Some "") (fst kv)) with false.
  cbn [negb map]. now rewrite IH.
Qed.

Section BroadcastFacts.
Variable E : Env.

Lemma sweep_writes message exclude_session items :
  forall failed w,
  exists new,
    trace (snd (sweep E message exclude_session items failed w)) = trace w ++ new /\
    writes new = map (fun ws => (ws, message)) (recipients_of exclude_session items) /\
    Forall is_send new.
Proof.
  induction items as [|[token ws] rest IH]; intros failed w.
  - exists []. simpl. rewrite app_nil_r. auto.
  - cbn [sweep]. unfold recipients_of. cbn [filter fst].
    destruct (excluded exclude_session token) eqn:Hex; cbn [negb].
    + apply IH.
    + unfold bind at 1. unfold try_except, bind at 1, send_text.
      destruct (send_fault E (List.length (trace w)) ws) as [e|];
        cbn [emit raise ret bind fst snd];
        match goal with
        | |- context [sweep E _ _ rest ?f ?w1] =>
            destruct (IH f w1) as (new & Hnew & Hw & Hs)
        end;
        eexists (_ :: new); rewrite Hnew; cbn [trace];
          rewrite <- app_assoc; (split; [reflexivity |]);
          (split; [simpl; now rewrite Hw | constructor; simpl; auto]).
Qed.


Lemma broadcast_writes
        (message : envelope) (exclude_session : option session_token)
        (w : world) :
  exists new,
    trace (snd (broadcast E message exclude_session w)) = trace w ++ new /\
    writes new =
      map (fun ws => (ws, message))
          (recipients_of exclude_session (active_connections (manager w))) /\
    Forall (fun ev => is_send ev \/ is_set_online ev) new /\
    recipients_of (Some "") (active_connections (manager w)) =
      map snd (active_connections (manager w)).
Proof.
  unfold broadcast. unfold bind at 1. unfold get_manager. unfold bind at 1.
  destruct (sweep_writes message exclude_session
                         (active_connections (manager w)) [] w)
    as (new & Hnew & Hw & Hs).
  assert (Hskip : recipients_of (Some "") (active_connections (manager w)) =
                  map snd (active_connections (manager w))).
  { apply recipients_of_empty_exclusion. }
  destruct (sweep E message exclude_session (active_connections (manager w)) [] w)
    as [[failed|e] w1]; simpl in Hnew.
  - destruct (@emits_for_each is_set_online _
                (fun token => disconnect token ;; ret tt) failed) with (w := w1)
      as (cleanup & Hcl & Hon).
    { intros t. apply emits_bind; [apply emits_disconnect; simpl; auto |].
      intros. apply emits_ret. }
    exists (new ++ cleanup). rewrite Hcl, Hnew, app_assoc.
    split; [reflexivity |]. split; [| split; [| exact Hskip]].
    + rewrite writes_app, (writes_of_online Hon), app_nil_r. exact Hw.
    + apply Forall_app. split.
      * eapply Forall_impl; [| exact Hs]. tauto.
      * eapply Forall_impl; [| exact Hon]. tauto.
  - exists new. simpl. split; [exact Hnew |]. split; [exact Hw |].
    split; [| exact Hskip]. eapply Forall_impl; [| exact Hs]. tauto.
Qed.

(** X1. Whatever the sockets do, [broadcast] writes the message once to
    the socket of every registered connection it does not skip, in the
    order of [active_connections], and to nothing else: apart from these
    writes its only effects are the [is_online] updates of the cleanup.  An
    empty [exclude_session] skips nobody. *)
Theorem broadcast_writes_once_to_each_connection
        (message : envelope) (exclude_session : option session_token)
        (w : world) :
  exists new,
    trace (snd (broadcast E message exclude_session w)) = trace w ++ new /\
    writes new =
      map (fun ws => (ws, message))
          (recipients_of exclude_session (active_connections (manager w))) /\
    Forall (fun ev => is_send ev \/ is_set_online ev) new /\
    recipients_of (Some "") (active_connections (manager w)) =
      map snd (active_connections (manager w)).
Proof. apply broadcast_writes. Qed.

End BroadcastFacts.


(* ===================================================================== *)
(** ** Beyond the claims: the other branches of the router *)
(* ===================================================================== *)

Lemma recipients_of_none (items : dict websocket) :
  recipients_of None items = map snd items.
Proof.
  unfold recipients_of.
  induction items as [|kv d IH]; [reflexivity |].
  cbn [filter map]. change (excluded None (fst kv)) with false.
  cbn [negb map]. now rewrite IH.
Qed.

Lemma recipients_of_token (token : session_token) (items : dict websocket) :
  str_truthy token = true ->
  recipients_of (Some token) items = map snd (dict_del token items).
Proof.
  intros Ht. unfold recipients_of, dict_del, excluded. rewrite Ht.
  reflexivity.
Qed.

Lemma is_str_eq (v : json) (s : string) : is_str v s = true -> v = JStr s.
Proof.
  destruct v; simpl; try discriminate.
  intros H. apply String.eqb_eq in H. now subst.
Qed.

Lemma sends_are_not_saves (l : list event) :
  Forall (fun ev => is_send ev \/ is_set_online ev) l -> Forall not_save l.
Proof.
  apply Forall_impl. intros ev [H|H]; destruct ev; simpl in *; tauto.
Qed.

Section RouterBranches.
Variable E : Env.


Lemma handle_frame_typing ws token ui fields :
  is_str (frame_type fields) "typing" = true ->
  handle_frame E ws token ui (Some (JObj fields)) =
    let typing := Typing (ui_username ui) (frame_is_typing fields)
                         (frame_recipient fields) in
    if truthy (frame_recipient fields) then
      send_personal_message E typing (frame_recipient fields) ;; ret tt
    else broadcast E typing (Some token).
Proof.
  intros H. rewrite handle_frame_object. rewrite (is_str_eq _ _ H).
  reflexivity.
Qed.

(** X3. A typing frame with no recipient (absent, [null] or any falsy
    value) is never saved and is written once to every registered
    connection that [broadcast] does not skip for the sender's token; when
    the token is not empty these are all the connections but the one
    registered under the token. *)
Theorem typing_broadcast_skips_the_sender (ws : websocket)
        (token : session_token) (ui : user_info)
        (fields : list (string * json)) (w : world) :
  is_str (frame_type fields) "typing" = true ->
  truthy (frame_recipient fields) = false ->
  let typing := Typing (ui_username ui) (frame_is_typing fields)
                       (frame_recipient fields) in
  exists new,
    trace (snd (handle_frame E ws token ui (Some (JObj fields)) w)) =
      trace w ++ new /\
    writes new =
      map (fun s => (s, typing))
          (recipients_of (Some token) (active_connections (manager w))) /\
    Forall not_save new /\
    (str_truthy token = true ->
     recipients_of (Some token) (active_connections (manager w)) =
       map snd (dict_del token (active_connections (manager w)))).
Proof.
  intros Hty Htr typing. rewrite (handle_frame_typing _ _ _ _ Hty).
  cbv zeta. rewrite Htr. fold typing.
  destruct (broadcast_writes E typing (Some token) w) as (new & Hnew & Hw & Hall & _).
  exists new. split; [exact Hnew |]. split; [exact Hw |].
  split; [now apply sends_are_not_saves |].
  intros Ht. now apply recipients_of_token.
Qed.


(** X5. A ["request_user_list"] frame makes the handler write the user list
    to every registered connection, not to the requester alone: the list is
    the usernames of [user_sessions] in their order, with no message text.
    Nothing is saved. *)
Theorem user_list_request_is_answered_to_everyone (ws : websocket)
        (token : session_token) (ui : user_info)
        (fields : list (string * json)) (w : world) :
  is_str (frame_type fields) "request_user_list" = true ->
  let update := UserListUpdate (active_users (manager w)) None
                               (clock E (List.length (trace w))) in
  exists new,
    trace (snd (handle_frame E ws token ui (Some (JObj fields)) w)) =
      trace w ++ new /\
    writes new =
      map (fun s => (s, update)) (map snd (active_connections (manager w))) /\
    Forall not_save new.
Proof.
  intros Hty update. rewrite handle_frame_object. rewrite (is_str_eq _ _ Hty).
  cbn [is_str String.eqb Ascii.eqb Bool.eqb].
  unfold broadcast_user_list_update, get_active_users, utcnow.
  unfold bind at 1 2. unfold get_manager, ret. unfold bind at 1.
  fold (active_users (manager w)). fold update.
  destruct (broadcast_writes E update None w) as (new & Hnew & Hw & Hall & _).
  exists new. split; [exact Hnew |]. split.
  - now rewrite Hw, recipients_of_none.
  - now apply sends_are_not_saves.
Qed.
End RouterBranches.

Lemma typing_broadcast_skips_the_sender_witness :
  let fields := [("type", JStr "typing"); ("is_typing", JBool true)] in
  is_str (frame_type fields) "typing" = true /\
  truthy (frame_recipient fields) = false /\
  exists new,
    trace (snd (handle_frame Example.env 1 "t1" Example.alice
                  (Some (JObj fields)) Example.lobby)) = new /\
    writes new = [(2, Typing "alice" (JBool true) JNull)].
Proof.
  intros fields. split; [reflexivity |]. split; [reflexivity |].
  destruct (typing_broadcast_skips_the_sender
              Example.env 1 "t1" Example.alice fields Example.lobby
              eq_refl eq_refl) as (new & Hnew & Hw & _).
  exists new. split; [exact Hnew | exact Hw].
Defined.


Lemma user_list_request_is_answered_to_everyone_witness :
  let fields := [("type", JStr "request_user_list")] in
  is_str (frame_type fields) "request_user_list" = true /\
  exists new,
    trace (snd (handle_frame Example.env 1 "t1" Example.alice
                  (Some (JObj fields)) Example.lobby)) = new /\
    writes new = [(1, UserListUpdate ["alice"; "bob"] None "12:00");
                  (2, UserListUpdate ["alice"; "bob"] None "12:00")].
Proof.
  intros fields. split; [reflexivity |].
  destruct (user_list_request_is_answered_to_everyone
              Example.env 1 "t1" Example.alice fields Example.lobby eq_refl)
    as (new & Hnew & Hw & _).
  exists new. split; [exact Hnew | exact Hw].
Defined.

(* ===================================================================== *)
(** ** Beyond the claims: frames the router cannot handle *)
(* ===================================================================== *)

Section BadFrames.
Variable E : Env.

Lemma session_loop_continues ws token ui data rest w :
  fst (handle_frame E ws token ui data w) = Ok tt ->
  session_loop E ws token ui (Text data :: rest) w =
    session_loop E ws token ui rest (snd (handle_frame E ws token ui data w)).
Proof.
  intros H. unfold session_loop, try_except. cbn [serve]. unfold bind.
  destruct (handle_frame E ws token ui data w) as [[[]|e] w1];
    simpl in H; [reflexivity | discriminate].
Qed.

Lemma session_loop_raises ws token ui data rest w e :
  fst (handle_frame E ws token ui data w) = Raise e ->
  session_loop E ws token ui (Text data :: rest) w =
    teardown E e token (snd (handle_frame E ws token ui data w)).
Proof.
  intros H. unfold session_loop, try_except. cbn [serve]. unfold bind.
  destruct (handle_frame E ws token ui data w) as [[[]|e'] w1];
    simpl in H; [discriminate |]. now injection H as ->.
Qed.

(** X6. A text that is not JSON is answered with one
    ["Invalid message format"] error to the sender, and when that write is
    taken the loop goes on with the next frame.  A text that is JSON but
    not an object (a number, a string, a list, [null]) is not answered at
    all: [message_data.get] raises, the handler leaves the loop through
    its [except Exception] clause, and the frames that follow are never
    read. *)
Theorem frames_that_are_not_objects (ws : websocket) (token : session_token)
        (ui : user_info) (w : world) :
  (exists ok,
      let w' := {| manager := manager w;
                   trace := trace w ++
                            [SendText ws (Error InvalidMessageFormat) ok] |} in
      snd (handle_frame E ws token ui None w) = w' /\
      (ok = true <-> send_fault E (List.length (trace w)) ws = None) /\
      (ok = true ->
       forall rest,
         session_loop E ws token ui (Text None :: rest) w =
         session_loop E ws token ui rest w')) /\
  (forall v rest,
      (forall fields, v <> JObj fields) ->
      handle_frame E ws token ui (Some v) w = (Raise AttributeError, w) /\
      session_loop E ws token ui (Text (Some v) :: rest) w =
        teardown E AttributeError token w).
Proof.
  split.
  - cbn [handle_frame]. unfold send_text.
    destruct (send_fault E (List.length (trace w)) ws) as [e|] eqn:Hf;
      [exists false | exists true]; cbn.
    + split; [reflexivity |]. split; [split; discriminate | discriminate].
    + split; [reflexivity |]. split; [tauto |]. intros _ rest.
      rewrite session_loop_continues; cbn [handle_frame]; unfold send_text;
        rewrite Hf; reflexivity.
  - intros v rest Hv.
    assert (Hraise : handle_frame E ws token ui (Some v) w = (Raise AttributeError, w)).
    { destruct v; try reflexivity. now elim (Hv fields). }
    split; [exact Hraise |].
    rewrite (@session_loop_raises ws token ui (Some v) rest w AttributeError);
      now rewrite Hraise.
Qed.

(** X7. A frame whose recipient is a non-empty list or object is not
    answered either.  In a chat frame the lookup of the recipient raises
    before anything is saved or written; in a typing frame the lookup in
    [username_to_session] raises [TypeError].  In both cases the world is
    untouched and the handler leaves the loop through its
    [except Exception] clause. *)
Theorem unhashable_recipient_ends_the_loop (ws : websocket)
        (token : session_token) (ui : user_info)
        (fields : list (string * json)) (w : world) :
  truthy (frame_recipient fields) = true ->
  hashable (frame_recipient fields) = false ->
  (is_str (frame_type fields) "chat" = true ->
   handle_frame E ws token ui (Some (JObj fields)) w = (Raise DatabaseError, w) /\
   forall rest,
     session_loop E ws token ui (Text (Some (JObj fields)) :: rest) w =
       teardown E DatabaseError token w) /\
  (is_str (frame_type fields) "typing" = true ->
   handle_frame E ws token ui (Some (JObj fields)) w = (Raise TypeError, w) /\
   forall rest,
     session_loop E ws token ui (Text (Some (JObj fields)) :: rest) w =
       teardown E TypeError token w).
Proof.
  intros Htr Hh. split; intros Hty.
  - assert (Hraise : handle_frame E ws token ui (Some (JObj fields)) w
                     = (Raise DatabaseError, w)).
    { rewrite handle_frame_object, Hty. unfold handle_chat. rewrite Htr.
      destruct (frame_recipient fields); try discriminate; reflexivity. }
    split; [exact Hraise |]. intros rest.
    rewrite (@session_loop_raises ws token ui _ rest w DatabaseError);
      now rewrite Hraise.
  - assert (Hraise : handle_frame E ws token ui (Some (JObj fields)) w
                     = (Raise TypeError, w)).
    { rewrite (handle_frame_typing _ _ _ _ _ Hty). cbv zeta. rewrite Htr.
      unfold send_personal_message, session_of.
      destruct (frame_recipient fields); try discriminate; reflexivity. }
    split; [exact Hraise |]. intros rest.
    rewrite (@session_loop_raises ws token ui _ rest w TypeError);
      now rewrite Hraise.
Qed.

(** X8. A chat frame whose recipient is present but falsy and is a key
    [dict.get] accepts (the empty string, [false], zero), with nobody
    registered under it: [save_message] is called with no recipient id,
    that is as for a global message.  When the store takes the content the
    message is saved so, but it is broadcast to nobody: the only write is
    a ["chat_sent"] confirmation to the sender that says
    [is_global = False] and [delivered = False].  When the store refuses
    the content nothing is saved and the only write is the
    ["Failed to save message"] error to the sender. *)
Theorem falsy_recipient_is_saved_as_global_and_sent_to_nobody
        (ws : websocket) (token : session_token) (ui : user_info)
        (fields : list (string * json)) (w : world) :
  is_str (frame_type fields) "chat" = true ->
  truthy (frame_recipient fields) = false ->
  is_none (frame_recipient fields) = false ->
  hashable (frame_recipient fields) = true ->
  live_socket (manager w) (frame_recipient fields) = None ->
  exists ok,
    snd (handle_frame E ws token ui (Some (JObj fields)) w) =
      {| manager := manager w;
         trace :=
           trace w ++
           if store_fault E (List.length (trace w)) (frame_content fields)
           then [SaveMessage (frame_content fields) (ui_id ui) None false;
                 SendText ws (Error FailedToSaveMessage) ok]
           else [SaveMessage (frame_content fields) (ui_id ui) None true;
                 SendText ws (ChatSent (frame_content fields) (ui_username ui)
                                       (clock E (S (List.length (trace w))))
                                       false (frame_recipient fields) false)
                          ok] |}.
Proof.
  intros Hty Htr Hnone Hh Hlive.
  rewrite handle_frame_object, Hty. unfold handle_chat. rewrite Htr.
  destruct (store_fault E (List.length (trace w)) (frame_content fields))
    eqn:Hst.
  { exact (persist_and_deliver_refused E ws ui _ _ None w Hst). }
  set (w1 := {| manager := manager w;
                trace := trace w ++
                         [SaveMessage (frame_content fields) (ui_id ui) None true] |}).
  rewrite (persist_and_deliver_stored _ _ _ _ _ _ _ Hst).
  unfold deliver. unfold bind at 1. unfold utcnow. cbn [trace].
  rewrite length_snoc, Hnone. unfold bind. fold w1.
  rewrite (@send_personal_message_offline E _ (frame_recipient fields) w1 Hh Hlive).
  rewrite (falsy_printable _ Htr).
  unfold send_text.
  destruct (send_fault E (List.length (trace w1)) ws);
    [exists false | exists true]; cbn; now rewrite <- app_assoc.
Qed.
End BadFrames.

Lemma frames_that_are_not_objects_witness :
  (forall fields, JInt 42 <> JObj fields) /\
  handle_frame Example.env 1 "t1" Example.alice (Some (JInt 42)) Example.lobby
  = (Raise AttributeError, Example.lobby) /\
  session_loop Example.env 1 "t1" Example.alice
    [Text (Some (JInt 42)); Text None] Example.lobby
  = teardown Example.env AttributeError "t1" Example.lobby.
Proof.
  assert (H : forall fields, JInt 42 <> JObj fields) by discriminate.
  split; [exact H |].
  exact (proj2 (frames_that_are_not_objects Example.env 1 "t1" Example.alice
                  Example.lobby) (JInt 42) [Text None] H).
Defined.

Lemma unhashable_recipient_ends_the_loop_witness :
  let fields := [("type", JStr "typing"); ("recipient", JArr [JStr "bob"])] in
  truthy (frame_recipient fields) = true /\
  hashable (frame_recipient fields) = false /\
  is_str (frame_type fields) "typing" = true /\
  handle_frame Example.env 1 "t1" Example.alice (Some (JObj fields)) Example.lobby
  = (Raise TypeError, Example.lobby).
Proof.
  intros fields. split; [reflexivity |]. split; [reflexivity |].
  split; [reflexivity |].
  exact (proj1 (proj2 (unhashable_recipient_ends_the_loop
                         Example.env 1 "t1" Example.alice fields Example.lobby
                         eq_refl eq_refl) eq_refl)).
Defined.

Lemma falsy_recipient_is_saved_as_global_and_sent_to_nobody_witness :
  let fields := [("content", JStr "hi"); ("recipient", JStr "")] in
  let refused := [("content", JNull); ("recipient", JBool false)] in
  is_str (frame_type fields) "chat" = true /\
  truthy (frame_recipient fields) = false /\
  is_none (frame_recipient fields) = false /\
  hashable (frame_recipient fields) = true /\
  live_socket (manager Example.lobby) (frame_recipient fields) = None /\
  (exists ok,
      snd (handle_frame Example.env 1 "t1" Example.alice (Some (JObj fields))
                        Example.lobby) =
        {| manager := manager Example.lobby;
           trace := [SaveMessage (JStr "hi") 1 None true;
                     SendText 1 (ChatSent (JStr "hi") "alice" "12:00" false
                                          (JStr "") false) ok] |}) /\
  (exists ok,
      snd (handle_frame Example.env 1 "t1" Example.alice (Some (JObj refused))
                        Example.lobby) =
        {| manager := manager Example.lobby;
           trace := [SaveMessage JNull 1 None false;
                     SendText 1 (Error FailedToSaveMessage) ok] |}).
Proof.
  intros fields refused. split; [reflexivity |]. split; [reflexivity |].
  split; [reflexivity |]. split; [reflexivity |]. split; [reflexivity |].
  split.
  - exact (falsy_recipient_is_saved_as_global_and_sent_to_nobody
             Example.env 1 "t1" Example.alice fields Example.lobby
             eq_refl eq_refl eq_refl eq_refl eq_refl).
  - exact (falsy_recipient_is_saved_as_global_and_sent_to_nobody
             Example.env 1 "t1" Example.alice refused Example.lobby
             eq_refl eq_refl eq_refl eq_refl eq_refl).
Defined.

(* ===================================================================== *)
(** ** Beyond the claims: [connect] and the whole handler *)
(* ===================================================================== *)

Section SoundFacts.
Variables A B : Type.

Lemma sound_ret (a : A) : sound (ret a).
Proof. intros w Hc. split; [exact Hc | now exists a]. Qed.

Lemma sound_bind (m : M A) (f : A -> M B) :
  sound m -> (forall a, sound (f a)) -> sound (bind m f).
Proof.
  intros Hm Hf w Hc. unfold bind. destruct (Hm w Hc) as [Hc1 [a Ha]].
  destruct (m w) as [[a'|e] w1]; simpl in *; [| discriminate].
  now apply Hf.
Qed.

Lemma sound_try (m : M A) (h : exn -> M A) :
  keeps consistent m -> (forall e, sound (h e)) -> sound (try_except m h).
Proof.
  intros Hm Hh w Hc. unfold try_except. specialize (Hm w Hc).
  destruct (m w) as [[a|e] w1]; simpl in *.
  - split; [exact Hm | now exists a].
  - now apply Hh.
Qed.

Lemma sound_keeps (m : M A) : sound m -> keeps consistent m.
Proof. intros Hm w Hc. now destruct (Hm w Hc). Qed.
End SoundFacts.

Lemma sound_emit (ev : event) : sound (emit ev).
Proof. intros w Hc. split; [exact Hc | now exists tt]. Qed.

Lemma sound_disconnect (token : session_token) : sound (disconnect token).
Proof.
  intros w Hc. split.
  - now apply disconnect_keeps_consistent.
  - now apply disconnect_returns.
Qed.

Lemma sound_for_each (A : Type) (body : A -> M unit) (xs : list A) :
  (forall x, sound (body x)) -> sound (for_each xs body).
Proof.
  intros Hb. induction xs as [|x xs IH]; simpl.
  - apply sound_ret.
  - apply sound_bind; auto.
Qed.

(** Removals never register anything. *)
Lemma disconnect_keeps_absent (token t : session_token) :
  keeps (absent token) (disconnect t).
Proof.
  assert (Hdel : forall k, keeps (absent token) (del_active k)).
  { intros k w H. unfold del_active. unfold_monad. simpl.
    destruct (dict_mem k (active_connections (manager w))); simpl; auto.
    unfold absent in *. simpl. rewrite dict_mem_del, H. apply andb_false_r. }
  assert (Hses : forall k, keeps (absent token) (del_session k)).
  { intros k w H. unfold del_session. unfold_monad. simpl.
    destruct (dict_mem k (user_sessions (manager w))); simpl; auto. }
  assert (Hname : forall k, keeps (absent token) (del_username k)).
  { intros k w H. unfold del_username. unfold_monad. simpl.
    destruct (dict_mem k (username_to_session (manager w))); simpl; auto. }
  unfold disconnect, set_user_online_status.
  apply keeps_bind; [apply reads_only_keeps, reads_only_get_manager |].
  intros m. destruct (dict_mem t (active_connections m)); [| apply keeps_ret].
  repeat first
    [ apply Hdel | apply Hses | apply Hname
    | apply keeps_bind; [| intros ?]
    | apply keeps_ret
    | apply reads_only_keeps, reads_only_get_manager
    | apply reads_only_keeps, reads_only_emit
    | match goal with
      | |- keeps _ (if ?c then _ else _) => destruct c
      | |- keeps _ (match ?c with _ => _ end) => destruct c
      end ].
Qed.

Section HandlerFacts.
Variable E : Env.

(** [broadcast] and its callers keep whatever every [disconnect] keeps. *)
Lemma broadcast_keeps (I : ConnectionManager -> Prop) message exclude_session :
  (forall t, keeps I (disconnect t)) ->
  keeps I (broadcast E message exclude_session).
Proof.
  intros Hd. unfold broadcast. apply keeps_bind.
  - apply reads_only_keeps, reads_only_get_manager.
  - intros m. apply keeps_bind.
    + apply reads_only_keeps, sweep_reads_only.
    + intros failed. apply keeps_for_each. intros t.
      apply keeps_bind; [apply Hd | intros; apply keeps_ret].
Qed.

Lemma broadcast_user_list_update_keeps (I : ConnectionManager -> Prop) message :
  (forall t, keeps I (disconnect t)) ->
  keeps I (broadcast_user_list_update E message).
Proof.
  intros Hd. unfold broadcast_user_list_update, get_active_users.
  apply keeps_bind.
  - apply reads_only_keeps. intros w. reflexivity.
  - intros. apply keeps_bind.
    + apply reads_only_keeps, utcnow_reads_only.
    + intros. now apply broadcast_keeps.
Qed.

Lemma send_personal_message_keeps (I : ConnectionManager -> Prop)
      message username :
  (forall t, keeps I (disconnect t)) ->
  keeps I (send_personal_message E message username).
Proof.
  intros Hd. unfold send_personal_message, session_of. apply keeps_bind.
  - apply reads_only_keeps. apply reads_only_bind.
    + apply reads_only_get_manager.
    + intros m. destruct username; auto using reads_only_ret, reads_only_raise.
  - intros found. apply keeps_bind.
    + apply reads_only_keeps, reads_only_get_manager.
    + intros m.
      destruct found as [token|];
        [| apply reads_only_keeps, not_connected_reads_only].
      destruct (str_truthy token);
        [| apply reads_only_keeps, not_connected_reads_only].
      destruct (dict_get token (active_connections m));
        [| apply reads_only_keeps, not_connected_reads_only].
      apply keeps_try.
      * apply reads_only_keeps. apply reads_only_bind.
        -- apply send_text_reads_only.
        -- intros. apply reads_only_ret.
      * intros e. apply keeps_bind; [apply Hd |].
        intros. apply keeps_ret.
Qed.

Lemma sound_sweep message exclude_session items failed :
  sound (sweep E message exclude_session items failed).
Proof.
  intros w Hc. split.
  - now rewrite sweep_reads_only.
  - destruct (sweep_collects E message exclude_session items failed w)
      as (fs & new & Heq & _).
    rewrite Heq. simpl. eauto.
Qed.

Lemma sound_broadcast message exclude_session :
  sound (broadcast E message exclude_session).
Proof.
  unfold broadcast. apply sound_bind.
  - intros w Hc. split; [exact Hc | now exists (manager w)].
  - intros m. apply sound_bind; [apply sound_sweep |].
    intros failed. apply sound_for_each. intros t.
    apply sound_bind; [apply sound_disconnect | intros; apply sound_ret].
Qed.

Lemma sound_broadcast_user_list_update message :
  sound (broadcast_user_list_update E message).
Proof.
  unfold broadcast_user_list_update, get_active_users, utcnow.
  apply sound_bind.
  - intros w Hc. split; [exact Hc | simpl; eauto].
  - intros users. apply sound_bind.
    + intros w Hc. split; [exact Hc | simpl; eauto].
    + intros. apply sound_broadcast.
Qed.

Lemma sound_teardown e token : sound (teardown E e token).
Proof.
  unfold teardown. apply sound_bind; [apply sound_disconnect |].
  intros [name|]; [| apply sound_ret].
  destruct (str_truthy name); [| apply sound_ret].
  apply sound_broadcast_user_list_update.
Qed.

(** [connect] in a consistent registry, with its first three steps carried
    out: what is left is the announcement. *)
Lemma connect_unfolded ws token ui w :
  consistent (manager w) ->
  connect E ws token ui w =
    broadcast_user_list_update E
      (Some (ui_username ui ++ " joined the chat")%string)
      {| manager := installed ws token ui (evicted (ui_username ui) (manager w));
         trace := trace w ++ [Accept ws] ++
                  eviction_closes (ui_username ui) (manager w) ++
                  [SetOnline (ui_id ui) true] |}.
Proof.
  intros Hc. unfold connect, accept, evict_old_session, install_session,
               set_user_online_status, del_active, del_session, close.
  unfold evicted, eviction_closes, old_connection, installed.
  unfold bind at 1. unfold emit at 1. unfold bind at 1 2.
  unfold get_manager at 1. cbn [manager trace].
  destruct (dict_get (ui_username ui) (username_to_session (manager w)))
    as [old|] eqn:Hold.
  - destruct (dict_get old (active_connections (manager w)))
      as [old_ws|] eqn:Hws.
    + assert (Ha : dict_mem old (active_connections (manager w)) = true)
        by (unfold dict_mem; now rewrite Hws).
      assert (Hs : dict_mem old (user_sessions (manager w)) = true)
        by (now rewrite <- (same_keys Hc)).
      unfold_monad. cbn. rewrite Ha. cbn. rewrite Hs. cbn.
      now rewrite <- !app_assoc.
    + unfold_monad. cbn. now rewrite <- !app_assoc.
  - unfold_monad. cbn. now rewrite <- !app_assoc.
Qed.

Lemma evicted_spec username m :
  consistent m ->
  consistent (evicted username m) /\ unnamed username (evicted username m).
Proof.
  intros Hc.
  pose proof (evict_old_session_spec {| manager := m; trace := [] |}
                                     username Hc) as H.
  cbv zeta in H. destruct H as (H1 & H2 & _).
  assert (Heq : manager (snd (evict_old_session username
                                {| manager := m; trace := [] |}))
                = evicted username m).
  { unfold evict_old_session, evicted, old_connection, del_active, del_session,
      close. unfold_monad. cbn.
    destruct (dict_get username (username_to_session m)) as [old|]; [| reflexivity].
    destruct (dict_get old (active_connections m)) as [old_ws|] eqn:Hws;
      [| reflexivity].
    assert (Ha : dict_mem old (active_connections m) = true)
      by (unfold dict_mem; now rewrite Hws).
    assert (Hs : dict_mem old (user_sessions m) = true)
      by (now rewrite <- (same_keys Hc)).
    cbn. rewrite Ha. cbn. rewrite Hs. reflexivity. }
  rewrite Heq in H1, H2. auto.
Qed.

Lemma installed_consistent ws token ui m :
  consistent m -> consistent (installed ws token ui (evicted (ui_username ui) m)).
Proof.
  intros Hc. destruct (evicted_spec (ui_username ui) Hc) as [Hc1 Hun].
  exact (proj1 (install_session_spec
                  {| manager := evicted (ui_username ui) m; trace := [] |}
                  ws token ui Hc1 Hun)).
Qed.

Lemma sound_connect ws token ui : sound (connect E ws token ui).
Proof.
  intros w Hc. rewrite (connect_unfolded ws token ui w Hc).
  apply sound_broadcast_user_list_update. cbn [manager].
  now apply installed_consistent.
Qed.

Lemma handle_frame_keeps_consistent ws token ui data :
  keeps consistent (handle_frame E ws token ui data).
Proof.
  assert (Hget : forall d k v, keeps consistent (frame_get d k v)).
  { intros d k v. apply reads_only_keeps.
    destruct d; simpl; auto using reads_only_ret, reads_only_raise. }
  assert (Hsend : forall s p, keeps consistent (send_text E s p)).
  { intros. apply reads_only_keeps, send_text_reads_only. }
  assert (Hpd : forall content recipient rid,
             keeps consistent (persist_and_deliver E ws ui content recipient rid)).
  { intros. unfold persist_and_deliver, deliver. apply keeps_bind.
    - apply keeps_try.
      + apply keeps_bind; [| intros; apply keeps_ret].
        apply reads_only_keeps, save_message_reads_only.
      + intros. apply keeps_bind; [apply Hsend | intros; apply keeps_ret].
    - intros [|]; [| apply keeps_ret].
      apply keeps_bind; [apply reads_only_keeps, utcnow_reads_only |].
      intros now. destruct (is_none recipient).
      + apply broadcast_keeps_consistent.
      + apply keeps_bind; [apply send_personal_message_keeps_consistent |].
        intros. apply Hsend. }
  destruct data as [message_data|]; cbn [handle_frame]; [| apply Hsend].
  apply keeps_bind; [apply Hget | intros message_type].
  apply keeps_bind; [apply Hget | intros content].
  apply keeps_bind; [apply Hget | intros recipient].
  destruct (is_str message_type "chat").
  - unfold handle_chat. destruct (truthy recipient); [| apply Hpd].
    apply keeps_bind.
    + intros w Hc. now rewrite get_user_by_username_pure.
    + intros [row|]; [apply Hpd | apply Hsend].
  - destruct (is_str message_type "typing").
    + unfold handle_typing. apply keeps_bind; [apply Hget | intros is_typing].
      destruct (truthy recipient).
      * apply keeps_bind; [apply send_personal_message_keeps_consistent |].
        intros. apply keeps_ret.
      * apply broadcast_keeps_consistent.
    + destruct (is_str message_type "request_user_list").
      * apply broadcast_user_list_update_keeps_consistent.
      * apply keeps_ret.
Qed.

Lemma serve_keeps_consistent ws token ui inbox :
  keeps consistent (serve E ws token ui inbox).
Proof.
  induction inbox as [|[data|e|e] rest IH]; cbn [serve].
  - apply keeps_ret.
  - apply keeps_bind; [apply handle_frame_keeps_consistent | intros; apply IH].
  - apply keeps_raise.
  - apply keeps_raise.
Qed.

Lemma sound_session_loop ws token ui inbox :
  sound (session_loop E ws token ui inbox).
Proof.
  unfold session_loop. apply sound_try.
  - apply serve_keeps_consistent.
  - intros e. apply sound_teardown.
Qed.

Lemma websocket_endpoint_unfolded ws token inbox ui :
  verify_session_token E token = Some ui ->
  websocket_endpoint E ws token inbox =
    (connect E ws token ui ;; session_loop E ws token ui inbox).
Proof.
  intros H. unfold websocket_endpoint. rewrite H. destruct ui. reflexivity.
Qed.

Lemma serve_raises ws token ui inbox e :
  In (Failure e) inbox ->
  forall w, exists e', fst (serve E ws token ui inbox w) = Raise e'.
Proof.
  induction inbox as [|[data|e0|e0] rest IH]; intros Hin w.
  - destruct Hin.
  - destruct Hin as [Heq|Hin]; [discriminate |].
    cbn [serve]. unfold bind.
    destruct (handle_frame E ws token ui data w) as [[[]|e1] w1]; simpl; eauto.
  - cbn [serve]. simpl. eauto.
  - cbn [serve]. simpl. eauto.
Qed.

Lemma handler_consistent_aux ws token inbox w :
  consistent (manager w) ->
  consistent (manager (snd (websocket_endpoint E ws token inbox w))).
Proof.
  intros Hc. destruct (verify_session_token E token) as [ui|] eqn:Hv.
  - rewrite (websocket_endpoint_unfolded ws token inbox Hv).
    exact (proj1 (@sound_bind _ _ (connect E ws token ui)
                              (fun _ => session_loop E ws token ui inbox)
                              (sound_connect ws token ui)
                              (fun _ => sound_session_loop ws token ui inbox)
                              w Hc)).
  - unfold websocket_endpoint. rewrite Hv. exact Hc.
Qed.

Lemma teardown_leaves_absent e token w :
  consistent (manager w) ->
  absent token (manager (snd (teardown E e token w))).
Proof.
  intros Hc. unfold teardown, bind.
  destruct (dict_mem token (active_connections (manager w))) eqn:Ha.
  - destruct (consistent_session_of_active _ Hc Ha) as [ui Hs].
    rewrite (disconnect_present _ _ Ha Hs).
    assert (Hgone : absent token (forget token ui (manager w))).
    { unfold absent, forget. simpl.
      now rewrite dict_mem_del, String.eqb_refl. }
    destruct (str_truthy (ui_username ui)); [| exact Hgone].
    apply broadcast_user_list_update_keeps; [| exact Hgone].
    intros t. apply disconnect_keeps_absent.
  - rewrite (disconnect_absent _ _ Ha). exact Ha.
Qed.
End HandlerFacts.

Section HandlerTheorems.
Variable E : Env.

Lemma broadcast_user_list_update_unfolded message w :
  broadcast_user_list_update E message w =
    broadcast E (UserListUpdate (active_users (manager w)) message
                                (clock E (List.length (trace w)))) None w.
Proof. reflexivity. Qed.

(** X10. When the handler of a verified token ends because reading fails
    (the peer disconnects, or any error), its token is registered nowhere
    afterwards: neither in [active_connections] nor in [user_sessions].
    This holds whatever happened before in the loop, also when an earlier
    frame already made the handler leave it. *)
Theorem handler_leaves_no_entry_behind (ws : websocket) (token : session_token)
        (ui : user_info) (inbox : list received) (e : exn) (w : world) :
  verify_session_token E token = Some ui ->
  consistent (manager w) ->
  In (Failure e) inbox ->
  let w' := snd (websocket_endpoint E ws token inbox w) in
  dict_mem token (active_connections (manager w')) = false /\
  dict_mem token (user_sessions (manager w')) = false.
Proof.
  intros Hv Hc Hin w'. subst w'.
  assert (Hfinal : consistent
                     (manager (snd (websocket_endpoint E ws token inbox w))))
    by (now apply handler_consistent_aux).
  assert (Habs : absent token
                   (manager (snd (websocket_endpoint E ws token inbox w)))).
  { rewrite (websocket_endpoint_unfolded E ws token inbox Hv). unfold bind.
    destruct (sound_connect E ws token ui w Hc) as [Hc1 [[] Hok1]].
    destruct (connect E ws token ui w) as [r1 w1]. simpl in Hok1, Hc1. subst r1.
    unfold session_loop, try_except.
    destruct (serve_raises E ws token ui inbox e Hin w1) as [e' He'].
    pose proof (serve_keeps_consistent E ws token ui inbox w1 Hc1) as Hc2.
    destruct (serve E ws token ui inbox w1) as [r2 w2]. simpl in He', Hc2.
    subst r2. now apply teardown_leaves_absent. }
  split; [exact Habs |]. now rewrite <- (same_keys Hfinal).
Qed.


(** A reconnection with nothing else running: the old socket is closed,
    the old token is gone when [connect] returns, and the teardown of the
    old handler, run afterwards, finds nothing to do. *)
Lemma reconnect_undisturbed (ws : websocket)
      (token : session_token) (ui : user_info) (w : world)
      (old : session_token) (old_ws : websocket) :
  consistent (manager w) ->
  old_connection (ui_username ui) (manager w) = Some (old, old_ws) ->
  old <> token ->
  let w' := snd (connect E ws token ui w) in
  (exists rest, trace w' = trace w ++ Accept ws :: Close old_ws None :: rest) /\
  dict_mem old (active_connections (manager w')) = false /\
  forall e, teardown E e old w' = (Ok tt, w').
Proof.
  intros Hc Hold Hne w'. subst w'.
  rewrite (connect_unfolded E ws token ui w Hc).
  unfold eviction_closes. rewrite Hold.
  set (w3 := {| manager := installed ws token ui
                             (evicted (ui_username ui) (manager w));
                trace := trace w ++ [Accept ws] ++ [Close old_ws None] ++
                         [SetOnline (ui_id ui) true] |}).
  assert (Habs3 : absent old (manager w3)).
  { unfold absent. cbn [w3 manager installed active_connections].
    rewrite dict_mem_set. unfold evicted. rewrite Hold.
    cbn [active_connections]. rewrite dict_mem_del, String.eqb_refl.
    destruct (String.eqb_spec token old); [congruence | reflexivity]. }
  assert (Habs : absent old
                   (manager (snd (broadcast_user_list_update E
                                    (Some (ui_username ui ++ " joined the chat")%string)
                                    w3)))).
  { apply broadcast_user_list_update_keeps; [| exact Habs3].
    intros t. apply disconnect_keeps_absent. }
  split; [| split; [exact Habs |]].
  - rewrite broadcast_user_list_update_unfolded.
    destruct (broadcast_writes E
                (UserListUpdate (active_users (manager w3))
                   (Some (ui_username ui ++ " joined the chat")%string)
                   (clock E (List.length (trace w3)))) None w3)
      as (new & Hnew & _).
    exists (SetOnline (ui_id ui) true :: new). rewrite Hnew. cbn [trace w3].
    now rewrite <- !app_assoc.
  - intros e. now apply teardown_absent.
Qed.
End HandlerTheorems.

Lemma handler_leaves_no_entry_behind_witness :
  let inbox := [Text (Some (JObj [("content", JStr "hi")]));
                Failure WebSocketDisconnect] in
  verify_session_token Example.env "t1" = Some Example.alice /\
  consistent (manager world_init) /\
  In (Failure WebSocketDisconnect) inbox /\
  dict_mem "t1"
    (active_connections
       (manager (snd (websocket_endpoint Example.env 1 "t1" inbox world_init))))
  = false.
Proof.
  intros inbox. split; [reflexivity |].
  split; [exact manager_init_consistent |].
  assert (Hin : In (Failure WebSocketDisconnect) inbox) by (right; now left).
  split; [exact Hin |].
  exact (proj1 (@handler_leaves_no_entry_behind
                  Example.env 1 "t1" Example.alice inbox WebSocketDisconnect
                  world_init eq_refl manager_init_consistent Hin)).
Defined.

(* ===================================================================== *)
(** ** Beyond the claims: [connect] and its [await]s *)
(* ===================================================================== *)

Lemma evict_quiet (username : string) (w : world) :
  Interleaved.evict_old_session username None w = evict_old_session username w.
Proof.
  unfold Interleaved.evict_old_session, evict_old_session.
  unfold bind at 1 5. unfold get_manager.
  destruct (dict_get username (username_to_session (manager w)));
    [| reflexivity].
  destruct (dict_get s (active_connections (manager w))); reflexivity.
Qed.

Lemma announce_quiet (E : Env) (message : option string) (w : world) :
  Interleaved.broadcast_user_list_update E message [] w
  = broadcast_user_list_update E message w.
Proof.
  unfold Interleaved.broadcast_user_list_update, broadcast_user_list_update.
  apply bind_congr. intros users _. apply bind_congr. intros now _.
  apply InterleavedFacts.broadcast_quiet.
Qed.

Lemma connect_quiet (E : Env) (ws : websocket) (token : session_token)
      (ui : user_info) (w : world) :
  Interleaved.connect E ws token ui None None [] w = connect E ws token ui w.
Proof.
  assert (Hpoint : forall (A B : Type) (m m' : M A) (f g : A -> M B) v,
             (forall v', m v' = m' v') -> (forall a v', f a v' = g a v') ->
             bind m f v = bind m' g v).
  { intros A B m m' f g v Hm Hf. unfold bind. rewrite Hm.
    destruct (m' v) as [[a|e] v']; [apply Hf | reflexivity]. }
  unfold Interleaved.connect, connect. cbv zeta.
  apply Hpoint; [reflexivity | intros _ v1].
  apply Hpoint; [apply evict_quiet | intros _ v2].
  apply Hpoint; [reflexivity | intros _ v3].
  apply Hpoint; [reflexivity | intros _ v4].
  apply announce_quiet.
Qed.

Lemma eviction_raced (E : Env) (ws : websocket) (token : session_token)
      (ui : user_info) (w : world) (old : session_token) (old_ws : websocket)
      (old_ui : user_info) (others : list (option session_token)) :
  old_connection (ui_username ui) (manager w) = Some (old, old_ws) ->
  dict_get old (user_sessions (manager w)) = Some old_ui ->
  Interleaved.connect E ws token ui None (Some old) others w
  = (Raise KeyError,
     {| manager := forget old old_ui (manager w);
        trace := trace w ++ [Accept ws; Close old_ws None] ++
                 offline_events old_ui |}).
Proof.
  intros Hold Hui. unfold old_connection in Hold.
  destruct (dict_get (ui_username ui) (username_to_session (manager w)))
    as [old'|] eqn:Hname; [| discriminate].
  destruct (dict_get old' (active_connections (manager w)))
    as [old_ws'|] eqn:Hws; [| discriminate].
  injection Hold as -> ->.
  unfold Interleaved.connect, accept. unfold bind at 1. unfold emit at 1.
  unfold bind at 1. unfold Interleaved.evict_old_session.
  unfold bind at 1. unfold get_manager at 1. cbn [manager].
  rewrite Hname, Hws. unfold close.
  unfold bind at 1. unfold try_except at 1. unfold emit at 1.
  unfold bind at 1. unfold try_except at 1.
  unfold Interleaved.meanwhile. unfold bind at 1. cbn [manager trace].
  rewrite (@disconnect_present
             {| manager := manager w;
                trace := (trace w ++ [Accept ws]) ++ [Close old_ws None] |}
             old old_ui).
  2:{ cbn [manager]. unfold dict_mem. now rewrite Hws. }
  2:{ exact Hui. }
  cbn [ret]. unfold bind at 1. unfold del_active. unfold bind at 1.
  unfold get_manager. cbn [manager forget active_connections].
  rewrite dict_mem_del, String.eqb_refl. cbn [negb andb raise trace].
  now rewrite <- !app_assoc.
Qed.



(** X12. A user who is registered under one token connects again under
    another.  When the old handler is not run during the [await] on
    [close] (line 366), the old socket is closed right after the new one
    is accepted, the old token is registered no more when [connect]
    returns, and the teardown the old handler runs afterwards is silent:
    it changes nothing and announces nothing.  When the old handler runs
    its teardown during that [await], it removes the entry itself, and the
    [del] of line 369 raises [KeyError]: [connect] ends there, outside
    every [try], with the new socket accepted and not registered, and the
    join is not announced. *)
Theorem reconnect_closes_the_old_socket (E : Env) (ws : websocket)
        (token : session_token) (ui : user_info) (w : world)
        (old : session_token) (old_ws : websocket) (old_ui : user_info)
        (others : list (option session_token)) :
  consistent (manager w) ->
  old_connection (ui_username ui) (manager w) = Some (old, old_ws) ->
  dict_get old (user_sessions (manager w)) = Some old_ui ->
  old <> token ->
  (let w' := snd (Interleaved.connect E ws token ui None None [] w) in
   (exists rest, trace w' = trace w ++ Accept ws :: Close old_ws None :: rest) /\
   dict_mem old (active_connections (manager w')) = false /\
   forall e, teardown E e old w' = (Ok tt, w')) /\
  Interleaved.connect E ws token ui None (Some old) others w
  = (Raise KeyError,
     {| manager := forget old old_ui (manager w);
        trace := trace w ++ [Accept ws; Close old_ws None] ++
                 offline_events old_ui |}).
Proof.
  intros Hc Hold Hui Hne. split.
  - cbv zeta. rewrite connect_quiet.
    exact (@reconnect_undisturbed E ws token ui w old old_ws Hc Hold Hne).
  - now apply eviction_raced.
Qed.

Lemma reconnect_closes_the_old_socket_witness :
  consistent (manager Example.lobby) /\
  old_connection "alice" (manager Example.lobby) = Some ("t1", 1) /\
  dict_get "t1" (user_sessions (manager Example.lobby)) = Some Example.alice /\
  "t1" <> "t3" /\
  dict_mem "t1"
    (active_connections
       (manager (snd (Interleaved.connect Example.env 3 "t3" Example.alice
                                          None None [] Example.lobby))))
  = false /\
  Interleaved.connect Example.env 3 "t3" Example.alice None (Some "t1") []
                      Example.lobby
  = (Raise KeyError,
     {| manager := {| active_connections := [("t2", 2)];
                      user_sessions := [("t2", Example.bob)];
                      username_to_session := [("bob", "t2")] |};
        trace := [Accept 3; Close 1 None; SetOnline 1 false] |}).
Proof.
  split; [exact lobby_consistent |]. split; [reflexivity |].
  split; [reflexivity |].
  assert (Hne : "t1" <> "t3") by discriminate.
  split; [exact Hne |].
  destruct (@reconnect_closes_the_old_socket
              Example.env 3 "t3" Example.alice Example.lobby "t1" 1
              Example.alice [] lobby_consistent eq_refl eq_refl Hne)
    as [(_ & Habs & _) Hraced].
  split; [exact Habs | exact Hraced].
Defined.

(* ===================================================================== *)
(** ** Beyond the claims: who is online *)
(* ===================================================================== *)

Lemma active_users_nodup (m : ConnectionManager) :
  consistent m -> NoDup (active_users m).
Proof.
  intros Hc. unfold active_users, values.
  assert (Hinj : forall t1 t2 u1 u2,
             In (t1, u1) (user_sessions m) -> In (t2, u2) (user_sessions m) ->
             ui_username u1 = ui_username u2 -> t1 = t2).
  { intros t1 t2 u1 u2 H1 H2 Heq.
    apply (dict_in_get _ _ _ (sessions_nodup Hc)) in H1.
    apply (dict_in_get _ _ _ (sessions_nodup Hc)) in H2.
    apply (session_named Hc) in H1. apply (session_named Hc) in H2.
    congruence. }
  pose proof (sessions_nodup Hc) as Hnd. revert Hnd Hinj.
  induction (user_sessions m) as [|[t u] d IH]; intros Hnd Hinj; simpl.
  - constructor.
  - inversion Hnd as [|? ? Hnotin Hnd']; subst. constructor.
    + intros Hin. rewrite map_map in Hin. apply in_map_iff in Hin.
      destruct Hin as [[t' u'] [Heq Hin]]. simpl in Heq.
      assert (t' = t) by (eapply Hinj; [right; exact Hin | now left | exact Heq]).
      subst t'. apply Hnotin. unfold keys. now apply (in_map fst) in Hin.
    + apply IH; auto. intros. eapply Hinj; eauto; now right.
Qed.

Lemma active_users_length (m : ConnectionManager) :
  consistent m ->
  List.length (active_users m) = List.length (active_connections m).
Proof.
  intros Hc. unfold active_users, values. rewrite !length_map.
  rewrite <- (length_map fst (user_sessions m)).
  rewrite <- (length_map fst (active_connections m)).
  apply Nat.le_antisymm; apply NoDup_incl_length.
  - exact (sessions_nodup Hc).
  - intros t Hin. apply dict_mem_keys. rewrite (same_keys Hc).
    now apply dict_mem_keys.
  - exact (active_nodup Hc).
  - intros t Hin. apply dict_mem_keys. rewrite <- (same_keys Hc).
    now apply dict_mem_keys.
Qed.

Lemma active_user_is_online (m : ConnectionManager) (u : string) :
  consistent m -> In u (active_users m) ->
  dict_mem u (username_to_session m) = true.
Proof.
  intros Hc Hin. unfold active_users, values in Hin. rewrite map_map in Hin.
  apply in_map_iff in Hin. destruct Hin as [[t ui] [Heq Hin]]. simpl in Heq.
  apply (dict_in_get _ _ _ (sessions_nodup Hc)) in Hin.
  apply (session_named Hc) in Hin. unfold dict_mem. subst u. now rewrite Hin.
Qed.

Lemma online_user_is_active (E : Env) (m : ConnectionManager) (u : string) :
  exact E m -> dict_mem u (username_to_session m) = true ->
  In u (active_users m).
Proof.
  intros Hx Hon. unfold dict_mem in Hon.
  destruct (dict_get u (username_to_session m)) as [t|] eqn:Ht; [| discriminate].
  destruct (index_backed Hx _ Ht) as (ui & Hs & Hname).
  unfold active_users, values. rewrite map_map. apply in_map_iff.
  exists (t, ui). split; [exact Hname | now apply dict_get_in].
Qed.

Lemma forget_exact (E : Env) (m : ConnectionManager) (token : session_token)
      (ui : user_info) :
  exact E m -> dict_get token (user_sessions m) = Some ui ->
  exact E (forget token ui m).
Proof.
  intros [Hc Hidx Hver] Hget. constructor.
  - now apply forget_consistent.
  - intros name t H. simpl in H. apply dict_get_del_some in H.
    destruct H as [Hne H]. destruct (Hidx _ _ H) as (ui' & Hs & Hname).
    exists ui'. split; [| exact Hname]. simpl.
    rewrite dict_get_del_other; [exact Hs |].
    intros ->. rewrite Hget in Hs. injection Hs as <-. now apply Hne.
  - intros t ui' H. simpl in H. apply dict_get_del_some in H. now apply Hver.
Qed.

Lemma disconnect_keeps_exact (E : Env) (t : session_token) :
  keeps (exact E) (disconnect t).
Proof.
  intros w Hx. pose proof (exact_consistent Hx) as Hc.
  destruct (dict_mem t (active_connections (manager w))) eqn:Ha.
  - destruct (consistent_session_of_active _ Hc Ha) as [ui Hs].
    rewrite (disconnect_present _ _ Ha Hs). simpl. now apply forget_exact.
  - now rewrite (disconnect_absent _ _ Ha).
Qed.

Lemma installed_exact (E : Env) (ws : websocket) (token : session_token)
      (ui : user_info) (m : ConnectionManager) :
  exact E m -> verify_session_token E token = Some ui ->
  exact E (installed ws token ui (evicted (ui_username ui) m)).
Proof.
  intros [Hc Hidx Hver] Hauth. constructor.
  - now apply installed_consistent.
  - intros name t H. cbn [installed username_to_session user_sessions] in *.
    assert (Hu2s : username_to_session (evicted (ui_username ui) m)
                   = username_to_session m).
    { unfold evicted. destruct (old_connection (ui_username ui) m) as [[? ?]|];
        reflexivity. }
    rewrite Hu2s in H.
    destruct (String.eqb_spec name (ui_username ui)) as [->|Hne].
    + rewrite dict_get_set_same in H. injection H as <-.
      exists ui. split; [apply dict_get_set_same | reflexivity].
    + rewrite dict_get_set_other in H by assumption.
      destruct (Hidx _ _ H) as (ui' & Hs & Hname).
      exists ui'. split; [| exact Hname].
      assert (Htok : t <> token).
      { intros ->. apply Hver in Hs. rewrite Hauth in Hs.
        injection Hs as <-. now apply Hne. }
      rewrite dict_get_set_other by assumption.
      unfold evicted, old_connection.
      destruct (dict_get (ui_username ui) (username_to_session m))
        as [old|] eqn:Hold; [| exact Hs].
      destruct (dict_get old (active_connections m)); [| exact Hs].
      cbn. rewrite dict_get_del_other; [exact Hs |].
      intros ->. destruct (Hidx _ _ Hold) as (ui'' & Hs'' & Hname'').
      rewrite Hs in Hs''. injection Hs'' as <-. apply Hne. congruence.
  - intros t ui' H. cbn [installed user_sessions] in H.
    destruct (String.eqb_spec t token) as [->|Hne].
    + rewrite dict_get_set_same in H. now injection H as <-.
    + rewrite dict_get_set_other in H by assumption.
      apply Hver. unfold evicted in H.
      destruct (old_connection (ui_username ui) m) as [[old ?]|]; [| exact H].
      cbn in H. now apply dict_get_del_some in H.
Qed.

Lemma call_keeps_exact (E : Env) (op : manager_op) :
  authentic E op -> keeps (exact E) (call E op).
Proof.
  destruct op as [ws token ui|token|message username|message exclude_session];
    cbn [call authentic]; intros Hauth.
  - intros w Hx. rewrite (connect_unfolded E ws token ui w (exact_consistent Hx)).
    apply broadcast_user_list_update_keeps.
    + intros t. apply disconnect_keeps_exact.
    + cbn [manager]. now apply installed_exact.
  - apply keeps_bind; [apply disconnect_keeps_exact | intros; apply keeps_ret].
  - apply keeps_bind; [| intros; apply keeps_ret].
    apply send_personal_message_keeps. intros t. apply disconnect_keeps_exact.
  - apply broadcast_keeps. intros t. apply disconnect_keeps_exact.
Qed.

Lemma run_calls_exact (E : Env) (ops : list manager_op) :
  Forall (authentic E) ops ->
  forall w, exact E (manager w) -> exact E (manager (run_calls E ops w)).
Proof.
  induction 1 as [|op ops Hop _ IH]; intros w Hx; simpl; auto.
  apply IH. now apply call_keeps_exact.
Qed.

Lemma manager_init_exact (E : Env) : exact E manager_init.
Proof.
  constructor; [apply manager_init_consistent | |]; simpl; discriminate.
Qed.

(** X13. After any sequence of [connect], [disconnect],
    [send_personal_message] and [broadcast] calls, [get_active_users] lists
    no username twice, lists as many users as there are active
    connections, and [is_user_online] answers [True] for every user it
    lists. *)
Theorem user_list_shows_each_user_once (E : Env) (ops : list manager_op) :
  let w := run_calls E ops world_init in
  exists users,
    get_active_users w = (Ok users, w) /\
    NoDup users /\
    List.length users = List.length (active_connections (manager w)) /\
    forall u, In u users -> is_user_online u w = (Ok true, w).
Proof.
  intros w.
  assert (Hc : consistent (manager w))
    by (apply run_calls_consistent, manager_init_consistent).
  exists (active_users (manager w)). split; [reflexivity |].
  split; [now apply active_users_nodup |].
  split; [now apply active_users_length |].
  intros u Hin. unfold is_user_online. unfold_monad.
  now rewrite (@active_user_is_online _ _ Hc Hin).
Qed.

Lemma user_list_shows_each_user_once_witness :
  let w := run_calls Example.env_bob_down
             [CallConnect 1 "t1" Example.alice; CallConnect 2 "t2" Example.bob]
             world_init in
  In "alice" ["alice"] /\ is_user_online "alice" w = (Ok true, w).
Proof.
  intros w. split; [now left |].
  destruct (user_list_shows_each_user_once Example.env_bob_down
              [CallConnect 1 "t1" Example.alice; CallConnect 2 "t2" Example.bob])
    as (users & Hlist & _ & _ & Honline).
  apply Honline. injection Hlist as <-. now left.
Defined.

(** X14. When every [connect] carries the user its token verifies to, as
    in [websocket_endpoint], [is_user_online] and [get_active_users] agree
    after any sequence of calls: a username is reported online exactly
    when the user list contains it. *)
Theorem online_exactly_when_listed (E : Env) (ops : list manager_op) :
  Forall (authentic E) ops ->
  let w := run_calls E ops world_init in
  forall u, is_user_online u w = (Ok true, w) <->
            In u (active_users (manager w)).
Proof.
  intros Hauth w u.
  assert (Hx : exact E (manager w))
    by (apply run_calls_exact; [exact Hauth | apply manager_init_exact]).
  unfold is_user_online. unfold_monad. split.
  - intros H. apply (@online_user_is_active E _ _ Hx).
    now injection H.
  - intros Hin.
    now rewrite (@active_user_is_online _ _ (exact_consistent Hx) Hin).
Qed.

Lemma online_exactly_when_listed_witness :
  let ops := [CallConnect 1 "t1" Example.alice; CallConnect 2 "t2" Example.bob;
              CallDisconnect "t1"] in
  Forall (authentic Example.env) ops /\
  (is_user_online "alice" (run_calls Example.env ops world_init)
   = (Ok true, run_calls Example.env ops world_init) <->
   In "alice" (active_users (manager (run_calls Example.env ops world_init)))).
Proof.
  intros ops.
  assert (H : Forall (authentic Example.env) ops).
  { repeat constructor. }
  split; [exact H |].
  exact (@online_exactly_when_listed Example.env ops H "alice").
Defined.

(** Without that agreement between token and user the index can go stale:
    the same token stored for two users in turn leaves the first user
    reported online with no session. *)
Lemma stale_index_after_token_reuse :
  let w := run_calls Example.env
             [CallConnect 1 "t1" Example.alice; CallConnect 2 "t1" Example.bob]
             world_init in
  is_user_online "alice" w = (Ok true, w) /\
  active_users (manager w) = ["bob"].
Proof. split; reflexivity. Qed.

(* ===================================================================== *)
(** ** Beyond the claims: a removal at any [await] of [broadcast] *)
(* ===================================================================== *)

Lemma dict_del_shorter (V : Type) (d : dict V) (t : string) :
  dict_mem t d = true -> List.length (dict_del t d) < List.length d.
Proof.
  unfold dict_mem, dict_del.
  induction d as [|[k v] d IH]; simpl; [discriminate |].
  destruct (String.eqb_spec k t) as [->|Hne]; simpl.
  - intros _. apply Nat.lt_succ_r. apply filter_length_le.
  - intros H. apply -> Nat.succ_lt_mono. now apply IH.
Qed.

Lemma live_sweep_sees_change (E : Env) (fuel : nat) (message : envelope)
      (exclude_session : option session_token) (di_used di_pos : nat)
      (others : list (option session_token)) (failed : list session_token)
      (w : world) :
  List.length (active_connections (manager w)) <> di_used ->
  Interleaved.live_sweep E (S fuel) message exclude_session di_used di_pos
                         others failed w
  = (Raise RuntimeError, w).
Proof.
  intros H. cbn [Interleaved.live_sweep]. unfold bind, get_manager.
  unfold Interleaved.dictiter_next.
  now rewrite (proj2 (Nat.eqb_neq _ _) H).
Qed.

Lemma bind_propagates (A B : Type) (m : M A) (f : A -> M B) (w : world)
      (e : exn) :
  fst (m w) = Raise e -> fst (bind m f w) = Raise e.
Proof.
  unfold bind. destruct (m w) as [[a|e'] w1]; simpl; congruence.
Qed.

Lemma bind_raises (A B : Type) (m : M A) (f : A -> M B) (w : world) (e : exn) :
  (exists a, fst (m w) = Ok a) ->
  (forall a, fst (f a (snd (m w))) = Raise e) ->
  fst (bind m f w) = Raise e.
Proof.
  intros [a Ha] Hf. unfold bind. specialize (Hf a).
  destruct (m w) as [[a'|e'] w1]; simpl in *; [| discriminate].
  congruence.
Qed.

Lemma live_sweep_first_step (E : Env) (fuel : nat) (message : envelope)
      (others : list (option session_token)) (failed : list session_token)
      (w : world) (t0 : session_token) (ws0 : websocket)
      (rest : dict websocket) :
  active_connections (manager w) = (t0, ws0) :: rest ->
  Interleaved.live_sweep E (S fuel) message None (S (List.length rest)) 0
                         others failed w
  = bind (try_except
            (bind (send_text E ws0 message) (fun _ => ret failed))
            (fun _ => ret (failed ++ [t0])))
         (fun failed' =>
            bind (Interleaved.meanwhile (hd None others))
                 (fun _ =>
                    Interleaved.live_sweep E fuel message None
                                           (S (List.length rest)) 1
                                           (tl others) failed')) w.
Proof.
  intros Hact. cbn [Interleaved.live_sweep]. unfold bind at 1.
  unfold get_manager. rewrite Hact. unfold Interleaved.dictiter_next.
  cbn [List.length nth_error]. now rewrite Nat.eqb_refl.
Qed.

(** X15. In a consistent registry, whenever the teardown of a registered
    connection runs while [broadcast] awaits its first write, [broadcast]
    raises [RuntimeError]: for every message, every set of connections
    and whatever the sockets do, the next step of the loop finds the
    dictionary smaller than when the loop began. *)
Theorem removal_at_the_first_await_always_raises (E : Env)
        (message : envelope) (t : session_token)
        (others : list (option session_token)) (w : world) :
  consistent (manager w) ->
  dict_mem t (active_connections (manager w)) = true ->
  fst (Interleaved.broadcast E message None (Some t :: others) w)
  = Raise RuntimeError.
Proof.
  intros Hc Hmem.
  destruct (consistent_session_of_active _ Hc Hmem) as [ui Hui].
  pose proof (dict_del_shorter _ _ Hmem) as Hshort.
  unfold Interleaved.broadcast. unfold bind at 1. unfold get_manager at 1.
  cbv zeta.
  destruct (active_connections (manager w)) as [|[t0 ws0] rest] eqn:Hact;
    [discriminate |].
  cbn [List.length] in *.
  apply bind_propagates.
  rewrite (live_sweep_first_step E _ message (Some t :: others) [] w Hact).
  cbn [hd tl Interleaved.meanwhile].
  assert (Hro : reads_only
                  (try_except
                     (bind (send_text E ws0 message) (fun _ => ret []))
                     (fun _ => ret ([] ++ [t0])))).
  { apply reads_only_try.
    - apply reads_only_bind; [apply send_text_reads_only |].
      intros. apply reads_only_ret.
    - intros. apply reads_only_ret. }
  apply bind_raises.
  - unfold try_except, bind, send_text.
    destruct (send_fault E (List.length (trace w)) ws0); simpl; eauto.
  - intros failed'. specialize (Hro w).
    match goal with
    | |- fst (bind _ _ ?w1) = _ => set (w0 := w1)
    end.
    assert (Hm : manager w0 = manager w) by exact Hro.
    unfold bind at 1. unfold bind at 1.
    rewrite (@disconnect_present w0 t ui)
      by (rewrite Hm; first [exact Hui | rewrite Hact; exact Hmem]).

    cbn [ret]. rewrite live_sweep_sees_change; [reflexivity |].
    cbn [manager forget active_connections]. rewrite Hm, Hact. lia.
Qed.

Lemma removal_at_the_first_await_always_raises_witness :
  consistent (manager Example.lobby) /\
  dict_mem "t1" (active_connections (manager Example.lobby)) = true /\
  fst (Interleaved.broadcast Example.env_bob_down
         (Typing "bob" (JBool true) JNull) (Some "t2") []
         Example.lobby) = Ok tt /\
  fst (Interleaved.broadcast Example.env_bob_down
         (Typing "bob" (JBool true) JNull) None [Some "t1"]
         Example.lobby) = Raise RuntimeError.
Proof.
  split; [exact lobby_consistent |]. split; [reflexivity |].
  split; [reflexivity |].
  exact (@removal_at_the_first_await_always_raises
           Example.env_bob_down (Typing "bob" (JBool true) JNull) "t1" []
           Example.lobby lobby_consistent eq_refl).
Defined.




(* ===================================================================== *)
(** ** Accounts and sessions: passwords, names and tokens *)
(* ===================================================================== *)

Module AccountsFacts.
Import Accounts.

Lemma text_eqb_eq (a b : text) : text_eqb a b = true <-> a = b.
Proof.
  revert b. induction a as [| x a IH]; intros [| y b]; simpl;
    try (split; [discriminate | discriminate]); try tauto.
  rewrite andb_true_iff, N.eqb_eq, IH. split.
  - intros [-> ->]. reflexivity.
  - intros H. injection H as -> ->. tauto.
Qed.

Lemma text_eqb_refl (a : text) : text_eqb a a = true.
Proof. now apply text_eqb_eq. Qed.

Lemma text_eqb_neq (a b : text) : a <> b -> text_eqb a b = false.
Proof.
  intros H. destruct (text_eqb a b) eqn:E; [| reflexivity].
  apply text_eqb_eq in E. contradiction.
Qed.

Section Finds.
Variable A : Type.

Lemma find_app (f : A -> bool) (l1 l2 : list A) :
  find f (l1 ++ l2) =
  match find f l1 with Some x => Some x | None => find f l2 end.
Proof.
  induction l1 as [| x l1 IH]; simpl; [reflexivity |].
  destruct (f x); [reflexivity | exact IH].
Qed.


Lemma find_none_all (f : A -> bool) (l : list A) :
  (forall x, In x l -> f x = false) -> find f l = None.
Proof.
  induction l as [| x l IH]; simpl; intros H; [reflexivity |].
  rewrite (H x (or_introl eq_refl)). apply IH. intros y Hy. apply H. now right.
Qed.

(** [UPDATE ... SET ... WHERE c]: a row the update changes no longer
    satisfies [f]. *)
Lemma find_after_update (f c : A -> bool) (g : A -> A) (l : list A) :
  (forall x, c x = true -> f (g x) = false) ->
  find f (map (fun x => if c x then g x else x) l)
  = find (fun x => f x && negb (c x)) l.
Proof.
  intros Hg. induction l as [| x l IH]; simpl; [reflexivity |].
  destruct (c x) eqn:Ec; simpl.
  - rewrite (Hg x Ec), andb_false_r. exact IH.
  - rewrite andb_true_r. destruct (f x); [reflexivity | exact IH].
Qed.

Lemma find_strengthen (f g : A -> bool) (l : list A) (x : A) :
  find f l = Some x -> g x = true -> find (fun y => f y && g y) l = Some x.
Proof.
  induction l as [| y l IH]; simpl; [discriminate |].
  destruct (f y) eqn:Ef; simpl.
  - intros [= ->] Hg. now rewrite Hg.
  - exact IH.
Qed.

Lemma NoDup_map_inj (B : Type) (f : A -> B) (l : list A) (a b : A) :
  NoDup (map f l) -> In a l -> In b l -> f a = f b -> a = b.
Proof.
  induction l as [| x l IH]; simpl; [tauto |].
  intros Hnd Ha Hb Hf. inversion Hnd as [| ? ? Hx Hl]; subst.
  destruct Ha as [-> | Ha], Hb as [-> | Hb]; auto.
  - exfalso. apply Hx. rewrite Hf. now apply in_map.
  - exfalso. apply Hx. rewrite <- Hf. now apply in_map.
Qed.

Lemma NoDup_snoc (l : list A) (a : A) :
  NoDup l -> ~ In a l -> NoDup (l ++ [a]).
Proof.
  intros Hl Ha. induction Hl as [| x l Hx Hl IH]; simpl.
  - constructor; [tauto | constructor].
  - constructor.
    + rewrite in_app_iff. simpl. intros [H | [H | []]]; [tauto |].
      apply Ha. now left.
    + apply IH. intros H. apply Ha. now right.
Qed.

Lemma firstn_length_app (a b : list A) : firstn (List.length a) (a ++ b) = a.
Proof. induction a as [| x a IH]; simpl; [reflexivity | now rewrite IH]. Qed.

Lemma skipn_length_app (a b : list A) : skipn (List.length a) (a ++ b) = b.
Proof. induction a as [| x a IH]; simpl; [reflexivity | exact IH]. Qed.

End Finds.

(** *** The two UPDATEs of the session table *)

Lemma deactivate_fields (s : session) :
  session_token (deactivate s) = session_token s /\
  user_id (deactivate s) = user_id s /\
  expires_at (deactivate s) = expires_at s /\
  is_active (deactivate s) = false.
Proof. now destruct s. Qed.

Section Updates.
Variable c : session -> bool.

Lemma update_tokens (rows : list session) :
  map session_token (map (fun s => if c s then deactivate s else s) rows)
  = map session_token rows.
Proof.
  rewrite map_map. apply map_ext. intros s. now destruct (c s), s.
Qed.

Lemma update_in (rows : list session) (s : session) :
  In s (map (fun s => if c s then deactivate s else s) rows) ->
  exists s0, In s0 rows /\ session_token s = session_token s0 /\
             user_id s = user_id s0 /\
             (is_active s = true -> s = s0 /\ c s0 = false).
Proof.
  rewrite in_map_iff. intros (s0 & <- & Hin).
  exists s0. split; [exact Hin |]. destruct (c s0) eqn:Ec.
  - destruct s0; simpl. repeat split; discriminate.
  - repeat split.
Qed.

End Updates.

Lemma touch_ids (uid : Z) (current : N) (rows : list user) :
  map id (touch_last_login uid current rows) = map id rows.
Proof.
  unfold touch_last_login. rewrite map_map. apply map_ext. intros u.
  now destruct (Z.eqb (id u) uid).
Qed.

Lemma touch_usernames (uid : Z) (current : N) (rows : list user) :
  map username (touch_last_login uid current rows) = map username rows.
Proof.
  unfold touch_last_login. rewrite map_map. apply map_ext. intros u.
  now destruct (Z.eqb (id u) uid).
Qed.

Lemma touch_in (uid : Z) (current : N) (rows : list user) (u : user) :
  In u (touch_last_login uid current rows) ->
  exists u0, In u0 rows /\ id u = id u0 /\ username u = username u0.
Proof.
  unfold touch_last_login. rewrite in_map_iff. intros (u0 & <- & Hin).
  exists u0. split; [exact Hin |]. now destruct (Z.eqb (id u0) uid).
Qed.

Lemma touch_find (uid k : Z) (current : N) (rows : list user) :
  match find (fun u => Z.eqb (id u) k) (touch_last_login uid current rows) with
  | Some u' =>
      exists u, find (fun u => Z.eqb (id u) k) rows = Some u /\
                id u' = id u /\ username u' = username u
  | None => find (fun u => Z.eqb (id u) k) rows = None
  end.
Proof.
  induction rows as [| u rows IH]; simpl; [reflexivity |].
  destruct (Z.eqb (id u) uid) eqn:Eu; simpl.
  - destruct (Z.eqb (id u) k) eqn:Ek.
    + exists u. repeat split.
    + exact IH.
  - destruct (Z.eqb (id u) k) eqn:Ek.
    + exists u. repeat split.
    + exact IH.
Qed.

Section Facts.
Variable L : Library.

(** *** Passwords *)

Lemma verify_password_of_hash (salt : bytes) (password provided : text)
      (hashed : text) :
  (forall b, b64decode L (b64encode L b) = Some b) ->
  List.length salt = 32 ->
  hash_password L salt password = Some hashed ->
  (verify_password L hashed provided = true <->
   exists pw pw', encode_utf8 L password = Some pw /\
                  encode_utf8 L provided = Some pw' /\
                  pbkdf2_hmac L pw' salt = pbkdf2_hmac L pw salt).
Proof.
  intros Hb64 Hlen. unfold hash_password, verify_password.
  destruct (encode_utf8 L password) as [pw |] eqn:Epw; [| discriminate].
  intros [= <-]. rewrite Hb64. cbv zeta. rewrite <- Hlen.
  rewrite firstn_length_app, skipn_length_app.
  destruct (encode_utf8 L provided) as [pw' |].
  - rewrite text_eqb_eq. split.
    + intros H. now exists pw, pw'.
    + intros (a & b & [= <-] & [= <-] & H). exact H.
  - split; [discriminate |]. intros (a & b & _ & H & _). discriminate.
Qed.

(** *** [str.strip] *)

Lemma lstrip_head (s : text) (c : N) (r : text) :
  lstrip L s = c :: r -> isspace L c = false.
Proof.
  induction s as [| x s IH]; simpl; [discriminate |].
  destruct (isspace L x) eqn:Ex; [exact IH |].
  intros [= <- <-]. exact Ex.
Qed.

Lemma lstrip_fixed (c : N) (r : text) :
  isspace L c = false -> lstrip L (c :: r) = c :: r.
Proof. intros H. simpl. now rewrite H. Qed.

Lemma lstrip_idempotent (s : text) : lstrip L (lstrip L s) = lstrip L s.
Proof.
  destruct (lstrip L s) as [| c r] eqn:E; [reflexivity |].
  apply lstrip_fixed. exact (lstrip_head _ E).
Qed.

Lemma lstrip_suffix (s : text) : exists p, s = p ++ lstrip L s.
Proof.
  induction s as [| x s [p IH]]; simpl.
  - now exists [].
  - destruct (isspace L x).
    + exists (x :: p). simpl. now rewrite <- IH.
    + now exists [].
Qed.

Lemma strip_idempotent (s : text) : strip L (strip L s) = strip L s.
Proof.
  unfold strip.
  set (a := lstrip L s). set (b := lstrip L (rev a)).
  assert (Hfix : lstrip L (rev b) = rev b).
  { destruct (lstrip_suffix (rev a)) as [p Hp]. fold b in Hp.
    assert (Ha : a = rev b ++ rev p).
    { rewrite <- (rev_involutive a), Hp, rev_app_distr. reflexivity. }
    destruct (rev b) as [| c r] eqn:Erb; [reflexivity |].
    apply lstrip_fixed. apply (@lstrip_head s c (r ++ rev p)).
    fold a. rewrite Ha. reflexivity. }
  rewrite Hfix, rev_involutive. unfold b. now rewrite lstrip_idempotent.
Qed.

(** *** What the endpoints return *)

Lemma next_rowid_above (seq : Z) (rowids : list Z) :
  (seq < next_rowid seq rowids)%Z /\
  forall k, In k rowids -> (k < next_rowid seq rowids)%Z.
Proof.
  unfold next_rowid. split; [lia |].
  induction rowids as [| x rowids IH]; simpl; [tauto |].
  intros k [-> | Hin]; [lia |]. specialize (IH k Hin). lia.
Qed.

Lemma register_endpoint_returns (salt : bytes) (current : N)
      (name password : text) (db : database) (r : Z * text * N)
      (db' : database) :
  register_endpoint L salt current name password db = (Return r, db') ->
  3 <= List.length (strip L name) /\
  6 <= List.length password /\
  encode_utf8 L (strip L name) <> None /\
  user_named (strip L name) db = None /\
  exists hashed,
    hash_password L salt password = Some hashed /\
    r = (next_rowid (users_seq db) (map id (users db)), strip L name,
         current) /\
    db' = {| users := users db ++
                      [{| id := next_rowid (users_seq db) (map id (users db));
                          username := strip L name;
                          password_hash := hashed; created_at := current;
                          last_login := None; is_online := false |}];
             user_sessions := user_sessions db;
             users_seq := next_rowid (users_seq db) (map id (users db));
             sessions_seq := sessions_seq db |}.
Proof.
  unfold register_endpoint. cbv zeta.
  destruct (strip L name) as [| c n] eqn:En.
  { destruct (encode_utf8 L name); discriminate. }
  destruct (Nat.ltb (List.length (c :: n)) 3) eqn:E3.
  { destruct (encode_utf8 L name); discriminate. }
  destruct (Nat.ltb (List.length password) 6) eqn:E6.
  { destruct (encode_utf8 L name); discriminate. }
  apply Nat.ltb_ge in E3, E6.
  unfold register_user.
  destruct (encode_utf8 L (c :: n)) eqn:Ee; [| discriminate].
  destruct (user_named (c :: n) db) eqn:Eu.
  { destruct (encode_utf8 L name); discriminate. }
  destruct (hash_password L salt password) as [hashed |] eqn:Eh;
    [| discriminate].
  intros [= <- <-].
  split; [exact E3 |]. split; [exact E6 |]. split; [discriminate |].
  split; [reflexivity |]. exists hashed. repeat split.
Qed.

Lemma register_endpoint_raises (salt : bytes) (current : N)
      (name password : text) (db : database) (f : failure) (db' : database) :
  register_endpoint L salt current name password db = (Raises f, db') ->
  db' = db /\
  ((encode_utf8 L name = None /\ f = Uncaught UnicodeEncodeError) \/
   exists code d, f = HTTPException code d /\ (code = 400 \/ code = 500)).
Proof.
  unfold register_endpoint. cbv zeta.
  assert (Hhandler :
            forall code d,
              code = 400 \/ code = 500 ->
              match encode_utf8 L name with
              | Some _ => (Raises (HTTPException code d), db)
              | None => (Raises (Uncaught UnicodeEncodeError), db)
              end = (@Raises (Z * text * N) f, db') ->
              db' = db /\
              ((encode_utf8 L name = None /\ f = Uncaught UnicodeEncodeError) \/
               exists code d,
                 f = HTTPException code d /\ (code = 400 \/ code = 500))).
  { intros code d Hcode. destruct (encode_utf8 L name).
    - intros [= <- <-]. split; [reflexivity |]. right. eauto.
    - intros [= <- <-]. split; [reflexivity |]. left. split; reflexivity. }
  destruct (strip L name) as [| c n] eqn:En.
  { apply Hhandler. now left. }
  destruct (Nat.ltb (List.length (c :: n)) 3).
  { apply Hhandler. now left. }
  destruct (Nat.ltb (List.length password) 6).
  { apply Hhandler. now left. }
  unfold register_user.
  destruct (encode_utf8 L (c :: n)).
  2:{ intros [= <- <-]. split; [reflexivity |]. right. eauto. }
  destruct (user_named (c :: n) db).
  { apply Hhandler. now left. }
  destruct (hash_password L salt password); [discriminate |].
  intros [= <- <-]. split; [reflexivity |]. right. eauto.
Qed.

Lemma login_endpoint_returns (token : text) (now : datetime) (current : N)
      (name password : text) (db : database)
      (r : Z * text * text * datetime) (db' : database) :
  login_endpoint L token now current name password db = (Return r, db') ->
  exists u,
    user_named name db = Some u /\
    verify_password L (password_hash u) password = true /\
    encode_utf8 L name <> None /\
    encode_utf8 L token <> None /\
    existsb (fun s => text_eqb (session_token s) token) (user_sessions db)
    = false /\
    r = (id u, username u, token, plus_seven_days now) /\
    db' = {| users := touch_last_login (id u) current (users db);
             user_sessions :=
               invalidate_sessions_of (id u) (user_sessions db) ++
               [{| session_id :=
                     next_rowid (sessions_seq db)
                                (map session_id (user_sessions db));
                   user_id := id u;
                   session_token := token;
                   session_created_at := current;
                   expires_at := plus_seven_days now; is_active := true |}];
             users_seq := users_seq db;
             sessions_seq :=
               next_rowid (sessions_seq db)
                          (map session_id (user_sessions db)) |}.
Proof.
  unfold login_endpoint, login_user.
  destruct (encode_utf8 L name) eqn:En; [| discriminate].
  destruct (user_named name db) as [u |] eqn:Eu; [| discriminate].
  destruct (verify_password L (password_hash u) password) eqn:Ev;
    [| discriminate].
  destruct (encode_utf8 L token) eqn:Et; [| discriminate].
  destruct (existsb _ (user_sessions db)) eqn:Ex; [discriminate |].
  cbv zeta. intros [= <- <-]. exists u.
  repeat (split; [first [reflexivity | discriminate | assumption] |]).
  reflexivity.
Qed.

Lemma login_endpoint_raises (token : text) (now : datetime) (current : N)
      (name password : text) (db : database) (f : failure) (db' : database) :
  login_endpoint L token now current name password db = (Raises f, db') ->
  db' = db /\
  exists code d, f = HTTPException code d /\ (code = 401 \/ code = 500).
Proof.
  unfold login_endpoint, login_user.
  destruct (encode_utf8 L name).
  2:{ intros [= <- <-]. split; [reflexivity |]. eauto. }
  destruct (user_named name db) as [u |].
  2:{ intros [= <- <-]. split; [reflexivity |]. eauto. }
  destruct (verify_password L (password_hash u) password).
  2:{ intros [= <- <-]. split; [reflexivity |]. eauto. }
  destruct (encode_utf8 L token).
  2:{ intros [= <- <-]. split; [reflexivity |]. eauto. }
  destruct (existsb _ (user_sessions db)); [| discriminate].
  intros [= <- <-]. split; [reflexivity |]. eauto.
Qed.

Lemma login_endpoint_total (token : text) (now : datetime) (current : N)
      (name password : text) (db : database) :
  (exists r db', login_endpoint L token now current name password db
                 = (Return r, db')) \/
  (exists f, login_endpoint L token now current name password db
             = (Raises f, db)).
Proof.
  destruct (login_endpoint L token now current name password db)
    as [[r | f] db'] eqn:E.
  - left. eauto.
  - right. destruct (login_endpoint_raises _ _ _ _ _ _ E) as [-> _]. eauto.
Qed.

Lemma user_named_in (name : text) (db : database) (u : user) :
  user_named name db = Some u -> In u (users db) /\ username u = name.
Proof.
  unfold user_named. intros H. apply find_some in H.
  destruct H as [Hin Heq]. split; [exact Hin | now apply text_eqb_eq].
Qed.

Lemma user_named_none (name : text) (db : database) :
  user_named name db = None -> ~ In name (map username (users db)).
Proof.
  unfold user_named. intros H Hin. apply in_map_iff in Hin.
  destruct Hin as (u & Hu & Hin).
  pose proof (find_none _ _ H u Hin) as Hf. cbv beta in Hf.
  rewrite Hu, text_eqb_refl in Hf. discriminate.
Qed.

Lemma token_is_new (token : text) (rows : list session) :
  existsb (fun s => text_eqb (session_token s) token) rows = false <->
  ~ In token (map session_token rows).
Proof.
  split.
  - intros H Hin. apply in_map_iff in Hin. destruct Hin as (s & Hs & Hin).
    assert (Ht : existsb (fun s => text_eqb (session_token s) token) rows
                 = true).
    { apply existsb_exists. exists s. split; [exact Hin |].
      rewrite Hs. apply text_eqb_refl. }
    congruence.
  - intros H. destruct (existsb _ rows) eqn:E; [| reflexivity].
    apply existsb_exists in E. destruct E as (s & Hin & Hs).
    apply text_eqb_eq in Hs. exfalso. apply H. rewrite <- Hs.
    now apply in_map.
Qed.

(** *** The tables stay well formed *)

Lemma empty_well_formed : well_formed L empty.
Proof.
  constructor; simpl; try constructor; try tauto.
Qed.

Lemma register_keeps_well_formed (salt : bytes) (current : N)
      (name password : text) (db : database) :
  well_formed L db ->
  well_formed L (snd (register_endpoint L salt current name password db)).
Proof.
  intros Hwf.
  destruct (register_endpoint L salt current name password db)
    as [[r | f] db'] eqn:E; simpl.
  2:{ destruct (register_endpoint_raises _ _ _ _ _ E) as [-> _]. exact Hwf. }
  destruct (register_endpoint_returns _ _ _ _ _ E)
    as (H3 & _ & _ & Hnone & hashed & _ & _ & ->).
  destruct Hwf as [Hnames Hids Hissued Htok Hhave Hone Hstrip].
  constructor; simpl.
  - rewrite map_app. simpl. apply NoDup_snoc; [exact Hnames |].
    now apply user_named_none.
  - rewrite map_app. simpl. apply NoDup_snoc; [exact Hids |].
    intros Hin.
    pose proof (proj2 (next_rowid_above (users_seq db) (map id (users db)))
                      _ Hin).
    lia.
  - intros u Hin. apply in_app_iff in Hin. destruct Hin as [Hin | [<- | []]].
    + pose proof (proj2 (next_rowid_above (users_seq db) (map id (users db)))
                        (id u) (in_map id _ _ Hin)).
      lia.
    + simpl. lia.
  - exact Htok.
  - intros s Hs. destruct (Hhave s Hs) as (u & Hin & Hu).
    exists u. split; [| exact Hu]. apply in_app_iff. now left.
  - exact Hone.
  - intros u Hin. apply in_app_iff in Hin. destruct Hin as [Hin | [<- | []]].
    + now apply Hstrip.
    + simpl. split; [apply strip_idempotent | exact H3].
Qed.

Lemma login_keeps_well_formed (token : text) (now : datetime) (current : N)
      (name password : text) (db : database) :
  well_formed L db ->
  well_formed L (snd (login_endpoint L token now current name password db)).
Proof.
  intros Hwf.
  destruct (login_endpoint L token now current name password db)
    as [[r | f] db'] eqn:E; simpl.
  2:{ destruct (login_endpoint_raises _ _ _ _ _ _ E) as [-> _]. exact Hwf. }
  destruct (login_endpoint_returns _ _ _ _ _ _ E)
    as (u & Hu & _ & _ & _ & Hnew & _ & ->).
  destruct (user_named_in _ _ Hu) as [Huin _].
  apply token_is_new in Hnew.
  destruct Hwf as [Hnames Hids Hissued Htok Hhave Hone Hstrip].
  constructor; simpl.
  - now rewrite touch_usernames.
  - now rewrite touch_ids.
  - intros v Hin. apply touch_in in Hin. destruct Hin as (v0 & Hin & -> & _).
    now apply Hissued.
  - rewrite map_app. unfold invalidate_sessions_of.
    rewrite update_tokens. simpl. now apply NoDup_snoc.
  - assert (Hkeep : forall k, (exists v, In v (users db) /\ id v = k) ->
                              exists v, In v (touch_last_login (id u) current
                                                               (users db)) /\
                                        id v = k).
    { intros k (v & Hin & Hv).
      assert (Hk : In k (map id (touch_last_login (id u) current (users db)))).
      { rewrite touch_ids, <- Hv. now apply in_map. }
      apply in_map_iff in Hk. destruct Hk as (v' & Hv' & Hin'). eauto. }
    intros s Hs. apply in_app_iff in Hs. destruct Hs as [Hs | [<- | []]].
    + apply update_in in Hs. destruct Hs as (s0 & Hin & _ & -> & _).
      apply Hkeep. now apply Hhave.
    + simpl. apply Hkeep. eauto.
  - intros s1 s2 H1 H2 A1 A2 Hsame.
    apply in_app_iff in H1, H2.
    destruct H1 as [H1 | [<- | []]], H2 as [H2 | [<- | []]].
    + apply update_in in H1, H2.
      destruct H1 as (sa & Ha & _ & _ & Ha').
      destruct H2 as (sb & Hb & _ & _ & Hb').
      destruct (Ha' A1) as [-> _]. destruct (Hb' A2) as [-> _].
      now apply Hone.
    + exfalso. apply update_in in H1. destruct H1 as (sa & Ha & _ & _ & Ha').
      destruct (Ha' A1) as [-> Hc]. simpl in Hsame.
      rewrite Hsame, Z.eqb_refl, A1 in Hc. discriminate.
    + exfalso. apply update_in in H2. destruct H2 as (sb & Hb & _ & _ & Hb').
      destruct (Hb' A2) as [-> Hc]. simpl in Hsame.
      rewrite <- Hsame, Z.eqb_refl, A2 in Hc. discriminate.
    + reflexivity.
  - intros v Hin. apply touch_in in Hin. destruct Hin as (v0 & Hin & _ & ->).
    now apply Hstrip.
Qed.

Lemma logout_keeps_well_formed (credentials : option text) (db : database) :
  well_formed L db ->
  well_formed L (snd (logout_endpoint L credentials db)).
Proof.
  intros Hwf. unfold logout_endpoint, logout_user.
  destruct credentials as [token |]; [| exact Hwf].
  destruct (encode_utf8 L token); [| exact Hwf]. simpl.
  destruct Hwf as [Hnames Hids Hissued Htok Hhave Hone Hstrip].
  constructor; simpl; try assumption.
  - unfold invalidate_token. now rewrite update_tokens.
  - intros s Hs. apply update_in in Hs. destruct Hs as (s0 & Hin & _ & -> & _).
    now apply Hhave.
  - intros s1 s2 H1 H2 A1 A2 Hsame.
    apply update_in in H1, H2.
    destruct H1 as (sa & Ha & _ & _ & Ha').
    destruct H2 as (sb & Hb & _ & _ & Hb').
    destruct (Ha' A1) as [-> _]. destruct (Hb' A2) as [-> _].
    now apply Hone.
Qed.

Lemma reset_keeps_well_formed (db : database) :
  well_formed L db -> well_formed L (debug_reset_database db).
Proof.
  intros _. constructor; simpl; try constructor; tauto.
Qed.

Lemma serve_request_well_formed (r : request) (db : database) :
  well_formed L db -> well_formed L (serve_request L r db).
Proof.
  destruct r; simpl.
  - apply register_keeps_well_formed.
  - apply login_keeps_well_formed.
  - apply logout_keeps_well_formed.
  - apply reset_keeps_well_formed.
Qed.

Lemma serve_requests_well_formed (rs : list request) (db : database) :
  well_formed L db -> well_formed L (serve_requests L rs db).
Proof.
  revert db. induction rs as [| r rs IH]; simpl; intros db Hwf;
    [exact Hwf |].
  apply IH. now apply serve_request_well_formed.
Qed.

(** *** Sessions *)

Lemma verify_session_token_some (current : N) (token : text) (db : database)
      (uid : Z) (name : text) (expires : datetime) :
  verify_session_token L current token db = Return (Some (uid, name, expires)) ->
  exists s u,
    In s (user_sessions db) /\ In u (users db) /\
    session_token s = token /\ is_active s = true /\
    later_than_current (expires_at s) current = true /\
    id u = user_id s /\ uid = id u /\ name = username u /\
    expires = expires_at s /\
    find (fun u => Z.eqb (id u) (user_id s)) (users db) = Some u.
Proof.
  unfold verify_session_token.
  destruct (encode_utf8 L token); [| discriminate].
  destruct (find _ (user_sessions db)) as [s |] eqn:Es; [| discriminate].
  destruct (find _ (users db)) as [u |] eqn:Eu; [| discriminate].
  intros [= <- <- <-]. exists s, u.
  apply find_some in Es. destruct Es as [Hs Hp].
  apply andb_true_iff in Hp. destruct Hp as [Hp Hlater].
  apply andb_true_iff in Hp. destruct Hp as [Htok Hact].
  apply text_eqb_eq in Htok.
  pose proof (find_some _ _ Eu) as [Hu Hid]. apply Z.eqb_eq in Hid.
  repeat (split; [first [assumption | reflexivity] |]). exact Eu.
Qed.

Lemma one_valid_token (db : database) (current1 current2 : N)
      (token1 token2 : text) (uid : Z) (name1 name2 : text)
      (expires1 expires2 : datetime) :
  well_formed L db ->
  verify_session_token L current1 token1 db
  = Return (Some (uid, name1, expires1)) ->
  verify_session_token L current2 token2 db
  = Return (Some (uid, name2, expires2)) ->
  token1 = token2 /\ name1 = name2 /\ expires1 = expires2.
Proof.
  intros Hwf H1 H2.
  apply verify_session_token_some in H1, H2.
  destruct H1 as (s1 & u1 & Hs1 & Hu1 & Ht1 & Ha1 & _ & Hi1 & Hid1 & Hn1 & He1
                  & Hf1).
  destruct H2 as (s2 & u2 & Hs2 & Hu2 & Ht2 & Ha2 & _ & Hi2 & Hid2 & Hn2 & He2
                  & Hf2).
  assert (Hsame : user_id s1 = user_id s2) by congruence.
  assert (Htok : session_token s1 = session_token s2)
    by (apply (one_active_session Hwf); assumption).
  assert (Hs : s1 = s2)
    by (apply (@NoDup_map_inj _ _ session_token _ _ _ (tokens_unique Hwf)); assumption).
  subst s2. assert (Hu : u1 = u2) by congruence. subst u2.
  repeat split; congruence.
Qed.

Lemma login_token_verifies (token : text) (now : datetime) (current : N)
      (name password : text) (db : database) (uid : Z) (uname token' : text)
      (expires : datetime) (db' : database) :
  well_formed L db ->
  login_endpoint L token now current name password db
  = (Return (uid, uname, token', expires), db') ->
  token' = token /\ uname = name /\ expires = plus_seven_days now /\
  forall at_second,
    verify_session_token L at_second token db'
    = Return (if later_than_current expires at_second
              then Some (uid, uname, expires) else None).
Proof.
  intros Hwf E.
  destruct (login_endpoint_returns _ _ _ _ _ _ E)
    as (u & Hu & _ & _ & Htok & Hnew & Hr & ->).
  injection Hr as -> -> -> ->.
  destruct (user_named_in _ _ Hu) as [Huin Hname].
  split; [reflexivity |]. split; [exact Hname |]. split; [reflexivity |].
  intros at_second. unfold verify_session_token. simpl.
  destruct (encode_utf8 L token); [| congruence].
  rewrite find_app.
  rewrite find_none_all.
  2:{ intros x Hx. unfold invalidate_sessions_of in Hx.
      apply update_in in Hx. destruct Hx as (x0 & Hin & Hx0 & _).
      rewrite text_eqb_neq; [reflexivity |].
      rewrite Hx0. intros Heq. apply token_is_new in Hnew. apply Hnew.
      rewrite <- Heq. now apply in_map. }
  simpl. rewrite text_eqb_refl. simpl.
  destruct (later_than_current (plus_seven_days now) at_second);
    [| reflexivity].
  pose proof (touch_find (id u) (id u) current (users db)) as Hfind.
  destruct (find _ (touch_last_login (id u) current (users db))) as [u' |].
  - destruct Hfind as (u0 & Hf & Hid & Hun).
    apply find_some in Hf. destruct Hf as [Hin0 Heq0].
    apply Z.eqb_eq in Heq0.
    assert (u0 = u)
      by (apply (@NoDup_map_inj _ _ id _ _ _ (user_ids_unique Hwf)); assumption).
    subst u0. now rewrite Hid, Hun.
  - pose proof (find_none _ _ Hfind u Huin) as Hno. cbv beta in Hno.
    rewrite Z.eqb_refl in Hno. discriminate.
Qed.

Lemma login_and_other_tokens (token : text) (now : datetime) (current : N)
      (name password : text) (db : database) (uid : Z) (uname : text)
      (expires : datetime) (db' : database) (at_second : N) (other : text) :
  well_formed L db ->
  login_endpoint L token now current name password db
  = (Return (uid, uname, token, expires), db') ->
  other <> token ->
  verify_session_token L at_second other db'
  = match verify_session_token L at_second other db with
    | Return (Some (uid', n, e)) =>
        if Z.eqb uid' uid then Return None else Return (Some (uid', n, e))
    | unchanged => unchanged
    end.
Proof.
  intros Hwf E Hother.
  destruct (login_endpoint_returns _ _ _ _ _ _ E)
    as (u & Hu & _ & _ & Htok & Hnew & Hr & ->).
  injection Hr as -> -> ->.
  destruct (user_named_in _ _ Hu) as [Huin Hname].
  unfold verify_session_token. simpl.
  destruct (encode_utf8 L other); [| reflexivity].
  rewrite find_app. simpl.
  rewrite (@text_eqb_neq token other) by congruence. simpl.
  set (P := fun s : session =>
              text_eqb (session_token s) other && is_active s &&
              later_than_current (expires_at s) at_second).
  set (c := fun s : session => Z.eqb (user_id s) (id u) && is_active s).
  assert (Hinv : find P (invalidate_sessions_of (id u) (user_sessions db))
                 = find (fun s => P s && negb (c s)) (user_sessions db)).
  { unfold invalidate_sessions_of. apply (find_after_update P c deactivate).
    intros x _. unfold P. destruct x; simpl. now rewrite andb_false_r. }
  rewrite Hinv. clear Hinv.
  destruct (find P (user_sessions db)) as [s |] eqn:Es.
  - pose proof (find_some _ _ Es) as [Hs Hp].
    assert (Hact : is_active s = true).
    { unfold P in Hp. apply andb_true_iff in Hp. destruct Hp as [Hp _].
      apply andb_true_iff in Hp. tauto. }
    assert (Hts : session_token s = other).
    { unfold P in Hp. apply andb_true_iff in Hp. destruct Hp as [Hp _].
      apply andb_true_iff in Hp. destruct Hp as [Hp _].
      now apply text_eqb_eq. }
    destruct (Z.eqb (user_id s) (id u)) eqn:Eown.
    + rewrite find_none_all.
      2:{ intros x Hx. destruct (P x) eqn:Epx; [| reflexivity]. simpl.
          assert (Htx : session_token x = other).
          { unfold P in Epx. apply andb_true_iff in Epx.
            destruct Epx as [Epx _]. apply andb_true_iff in Epx.
            destruct Epx as [Epx _]. now apply text_eqb_eq. }
          assert (x = s).
          { apply (@NoDup_map_inj _ _ session_token _ _ _ (tokens_unique Hwf));
              try assumption. congruence. }
          subst x. unfold c. now rewrite Eown, Hact. }
      destruct (find (fun v => Z.eqb (id v) (user_id s)) (users db))
        as [u0 |] eqn:Eu0; [| reflexivity].
      apply find_some in Eu0. destruct Eu0 as [_ Hid0].
      apply Z.eqb_eq in Hid0. rewrite Hid0, Eown. reflexivity.
    + rewrite (@find_strengthen _ P (fun s => negb (c s)) _ _ Es).
      2:{ unfold c. now rewrite Eown. }
      pose proof (touch_find (id u) (user_id s) current (users db)) as Hfind.
      destruct (find _ (touch_last_login (id u) current (users db)))
        as [u' |].
      * destruct Hfind as (u0 & Hf & Hid & Hun). rewrite Hf.
        apply find_some in Hf. destruct Hf as [_ Hid0].
        apply Z.eqb_eq in Hid0. rewrite Hid0, Eown, Hid, Hun, Hid0.
        reflexivity.
      * rewrite Hfind. reflexivity.
  - rewrite find_none_all; [reflexivity |].
    intros x Hx. pose proof (find_none _ _ Es x Hx) as Hno. cbv beta in Hno.
    now rewrite Hno.
Qed.


(** *** Names *)

Lemma padded_name_is_unknown (db : database) (name : text) :
  well_formed L db -> strip L name <> name -> user_named name db = None.
Proof.
  intros Hwf Hpad. destruct (user_named name db) as [u |] eqn:Eu;
    [| reflexivity].
  destruct (user_named_in _ _ Eu) as [Hin Hname].
  destruct (usernames_stripped Hwf u Hin) as [Hs _].
  rewrite Hname in Hs. contradiction.
Qed.

Lemma login_unknown_name (token : text) (now : datetime) (current : N)
      (name password : text) (db : database) :
  encode_utf8 L name <> None -> user_named name db = None ->
  login_endpoint L token now current name password db
  = (Raises (HTTPException 401 (Literal "Invalid username or password")), db).
Proof.
  intros Henc Hnone. unfold login_endpoint, login_user.
  destruct (encode_utf8 L name); [| congruence].
  now rewrite Hnone.
Qed.

Lemma registered_name_is_taken (salt : bytes) (current : N)
      (name password : text) (db : database) (r : Z * text * N)
      (db1 : database) :
  register_endpoint L salt current name password db = (Return r, db1) ->
  exists u, user_named (strip L name) db1 = Some u /\
            id u = fst (fst r) /\ username u = strip L name /\
            hash_password L salt password = Some (password_hash u) /\
            user_sessions db1 = user_sessions db.
Proof.
  intros E.
  destruct (register_endpoint_returns _ _ _ _ _ E)
    as (_ & _ & _ & Hnone & hashed & Hh & -> & ->).
  unfold user_named in *. simpl. rewrite find_app, Hnone. simpl.
  rewrite text_eqb_refl. eexists. repeat split. exact Hh.
Qed.

Lemma second_registration_refused (salt : bytes) (current : N)
      (name password : text) (db : database) (r : Z * text * N)
      (db1 : database) (salt2 : bytes) (current2 : N)
      (name2 password2 : text) :
  register_endpoint L salt current name password db = (Return r, db1) ->
  strip L name2 = strip L name ->
  encode_utf8 L name2 <> None ->
  register_endpoint L salt2 current2 name2 password2 db1
  = (Raises (HTTPException 400
               (Literal (if Nat.ltb (List.length password2) 6
                         then "Password must be at least 6 characters"
                         else "Username already exists"))), db1).
Proof.
  intros E Hsame Hsent.
  destruct (registered_name_is_taken _ _ _ _ _ E) as (u & Hu & _).
  destruct (register_endpoint_returns _ _ _ _ _ E)
    as (H3 & _ & Henc & _).
  unfold register_endpoint. cbv zeta. rewrite Hsame.
  destruct (encode_utf8 L name2); [| congruence].
  destruct (strip L name) as [| c n] eqn:En; [simpl in H3; lia |].
  apply Nat.ltb_ge in H3. rewrite H3.
  destruct (Nat.ltb (List.length password2) 6); [reflexivity |].
  unfold register_user.
  destruct (encode_utf8 L (c :: n)); [| congruence].
  now rewrite Hu.
Qed.


Lemma later_than_current_spec (d : datetime) (at_second : N) :
  later_than_current d at_second = true <->
  (at_second < seconds d)%N \/
  (at_second = seconds d /\ microsecond d <> 0%N).
Proof.
  unfold later_than_current.
  rewrite orb_true_iff, andb_true_iff, negb_true_iff, N.ltb_lt, N.eqb_eq,
    N.eqb_neq. tauto.
Qed.

(** *** The theorems *)

(** X17.  A hash made by [hash_password] with a 32-byte salt is accepted by
    [verify_password] for exactly the passwords whose PBKDF2 digest under
    that salt is the digest of the password that was hashed; in particular
    for that password itself. *)
Theorem stored_hash_accepts_exactly_the_same_digest
        (salt : bytes) (password provided hashed : text) :
  (forall b, b64decode L (b64encode L b) = Some b) ->
  List.length salt = 32 ->
  hash_password L salt password = Some hashed ->
  verify_password L hashed password = true /\
  (verify_password L hashed provided = true <->
   exists pw pw', encode_utf8 L password = Some pw /\
                  encode_utf8 L provided = Some pw' /\
                  pbkdf2_hmac L pw' salt = pbkdf2_hmac L pw salt).
Proof.
  intros Hb64 Hlen Hh. split.
  - apply (@verify_password_of_hash salt password password hashed
                                    Hb64 Hlen Hh).
    unfold hash_password in Hh.
    destruct (encode_utf8 L password) as [pw |]; [| discriminate].
    now exists pw, pw.
  - now apply verify_password_of_hash.
Qed.

(** X18.  Whatever requests were served since the database was created,
    the tables satisfy the schema's UNIQUE and key constraints, every
    session belongs to a stored user, no user has two active sessions, and
    every stored username is stripped and at least 3 characters long. *)
Theorem served_database_is_well_formed (rs : list request) :
  well_formed L (serve_requests L rs empty).
Proof. apply serve_requests_well_formed, empty_well_formed. Qed.

(** X19.  Whatever requests were served, two tokens that
    [verify_session_token] accepts for the same user id are the same
    token. *)
Theorem at_most_one_valid_token_per_user
        (rs : list request) (current1 current2 : N) (token1 token2 : text)
        (uid : Z) (name1 name2 : text) (expires1 expires2 : datetime) :
  verify_session_token L current1 token1 (serve_requests L rs empty)
  = Return (Some (uid, name1, expires1)) ->
  verify_session_token L current2 token2 (serve_requests L rs empty)
  = Return (Some (uid, name2, expires2)) ->
  token1 = token2 /\ name1 = name2 /\ expires1 = expires2.
Proof.
  apply one_valid_token.
  apply serve_requests_well_formed, empty_well_formed.
Qed.

(** X20.  The token a successful login returns authenticates as that
    user on every later request up to the expiry, seven days after the
    login, and is refused with 401 from then on. *)
Theorem login_token_is_valid_for_seven_days
        (token : text) (now : datetime) (current : N) (name password : text)
        (db : database) (uid : Z) (uname token' : text) (expires : datetime)
        (db' : database) :
  well_formed L db ->
  login_endpoint L token now current name password db
  = (Return (uid, uname, token', expires), db') ->
  token' = token /\ uname = name /\
  seconds expires = (seconds now + 604800)%N /\
  forall at_second,
    ((at_second < seconds now + 604800)%N ->
     get_current_user L at_second (Some token) db'
     = Return (uid, uname, expires)) /\
    ((seconds now + 604800 < at_second)%N ->
     get_current_user L at_second (Some token) db'
     = Raises (HTTPException 401 (Literal "Invalid or expired session"))).
Proof.
  intros Hwf E.
  destruct (login_token_verifies _ _ _ _ _ Hwf E) as (-> & -> & -> & Hv).
  split; [reflexivity |]. split; [reflexivity |]. split; [reflexivity |].
  intros at_second. unfold get_current_user. rewrite Hv. split; intros Hlt.
  - rewrite (proj2 (later_than_current_spec _ _)); [reflexivity |].
    left. exact Hlt.
  - destruct (later_than_current (plus_seven_days now) at_second) eqn:El;
      [| reflexivity].
    apply later_than_current_spec in El. simpl in El. lia.
Qed.

(** X21.  A successful login ends every other session of the same user and
    leaves the sessions of the other users as they were. *)
Theorem login_ends_the_users_other_sessions
        (token : text) (now : datetime) (current : N) (name password : text)
        (db : database) (uid : Z) (uname : text) (expires : datetime)
        (db' : database) (at_second : N) (other : text) :
  well_formed L db ->
  login_endpoint L token now current name password db
  = (Return (uid, uname, token, expires), db') ->
  other <> token ->
  verify_session_token L at_second other db'
  = match verify_session_token L at_second other db with
    | Return (Some (uid', n, e)) =>
        if Z.eqb uid' uid then Return None else Return (Some (uid', n, e))
    | unchanged => unchanged
    end.
Proof. apply login_and_other_tokens. Qed.

(** X22.  A registration or a login that raises leaves the database
    exactly as it was.  What it raises is an HTTPException with status
    400, 401 or 500, unless the name that was sent cannot be encoded: then
    the registration can also end in the UnicodeEncodeError of its own
    error handler. *)
Theorem refused_request_changes_nothing
        (salt : bytes) (token : text) (now : datetime) (current : N)
        (name password : text) (db : database) (f : failure)
        (db' : database) :
  register_endpoint L salt current name password db = (Raises f, db') \/
  login_endpoint L token now current name password db = (Raises f, db') ->
  db' = db /\
  ((encode_utf8 L name = None /\ f = Uncaught UnicodeEncodeError) \/
   exists code d, f = HTTPException code d /\ In code [400; 401; 500]).
Proof.
  intros [E | E].
  - destruct (register_endpoint_raises _ _ _ _ _ E)
      as (-> & [Hhandler | (code & d & -> & Hcode)]).
    + split; [reflexivity |]. now left.
    + split; [reflexivity |]. right. exists code, d.
      split; [reflexivity |]. simpl. destruct Hcode as [-> | ->]; auto.
  - destruct (login_endpoint_raises _ _ _ _ _ _ E)
      as (-> & code & d & -> & Hcode).
    split; [reflexivity |]. right. exists code, d. split; [reflexivity |].
    simpl. destruct Hcode as [-> | ->]; auto.
Qed.


(** X24.  [register_endpoint] strips the username and [login_endpoint]
    does not: whatever requests were served, a login under a name with
    leading or trailing whitespace is refused with 401, whatever the
    password. *)
Theorem login_with_a_padded_name_is_refused
        (rs : list request) (token : text) (now : datetime) (current : N)
        (name password : text) :
  strip L name <> name ->
  encode_utf8 L name <> None ->
  login_endpoint L token now current name password (serve_requests L rs empty)
  = (Raises (HTTPException 401 (Literal "Invalid username or password")),
     serve_requests L rs empty).
Proof.
  intros Hpad Henc. apply login_unknown_name; [exact Henc |].
  apply padded_name_is_unknown; [| exact Hpad].
  apply serve_requests_well_formed, empty_well_formed.
Qed.

(** X25.  Directly after a registration succeeded, registering a name
    that is the same once stripped is refused with 400 and changes
    nothing. *)
Theorem registered_name_cannot_be_registered_again
        (salt : bytes) (current : N) (name password : text) (db : database)
        (r : Z * text * N) (db1 : database) (salt2 : bytes) (current2 : N)
        (name2 password2 : text) :
  register_endpoint L salt current name password db = (Return r, db1) ->
  strip L name2 = strip L name ->
  encode_utf8 L name2 <> None ->
  register_endpoint L salt2 current2 name2 password2 db1
  = (Raises (HTTPException 400
               (Literal (if Nat.ltb (List.length password2) 6
                         then "Password must be at least 6 characters"
                         else "Username already exists"))), db1).
Proof. apply second_registration_refused. Qed.


End Facts.

(** *** Concrete runs *)

Lemma toy_b64 (b : bytes) : b64decode toy (b64encode toy b) = Some b.
Proof. reflexivity. Qed.

Lemma registered_well_formed : well_formed toy Demo.registered.
Proof. apply serve_requests_well_formed, empty_well_formed. Qed.

Lemma logged_in_well_formed : well_formed toy Demo.logged_in.
Proof. apply serve_requests_well_formed, empty_well_formed. Qed.

Lemma stored_hash_accepts_exactly_the_same_digest_witness :
  List.length Demo.salt = 32 /\
  hash_password toy Demo.salt Demo.secret
  = Some (Demo.salt ++ Demo.secret ++ Demo.salt) /\
  verify_password toy (Demo.salt ++ Demo.secret ++ Demo.salt) Demo.secret
  = true.
Proof.
  split; [reflexivity |]. split; [reflexivity |].
  exact (proj1 (@stored_hash_accepts_exactly_the_same_digest
                  toy Demo.salt Demo.secret Demo.secret
                  (Demo.salt ++ Demo.secret ++ Demo.salt)
                  toy_b64 eq_refl eq_refl)).
Defined.

Lemma served_database_is_well_formed_witness : well_formed toy Demo.logged_in.
Proof.
  exact (@served_database_is_well_formed
           toy [Register Demo.salt 43100 Demo.padded Demo.secret;
                Login Demo.first_token Demo.noon 43200 Demo.alice
                      Demo.secret]).
Defined.

Lemma at_most_one_valid_token_per_user_witness :
  verify_session_token toy 50000 Demo.first_token Demo.logged_in
  = Return (Some (1%Z, Demo.alice, plus_seven_days Demo.noon)) /\
  verify_session_token toy 60000 Demo.first_token Demo.logged_in
  = Return (Some (1%Z, Demo.alice, plus_seven_days Demo.noon)) /\
  Demo.first_token = Demo.first_token.
Proof.
  split; [reflexivity |]. split; [reflexivity |].
  apply (@at_most_one_valid_token_per_user
           toy [Register Demo.salt 43100 Demo.padded Demo.secret;
                Login Demo.first_token Demo.noon 43200 Demo.alice
                      Demo.secret]
           50000 60000 Demo.first_token Demo.first_token 1%Z
           Demo.alice Demo.alice
           (plus_seven_days Demo.noon) (plus_seven_days Demo.noon)
           eq_refl eq_refl).
Defined.

Lemma login_token_is_valid_for_seven_days_witness :
  well_formed toy Demo.registered /\
  login_endpoint toy Demo.first_token Demo.noon 43200 Demo.alice Demo.secret
                 Demo.registered
  = (Return (1%Z, Demo.alice, Demo.first_token, plus_seven_days Demo.noon),
     Demo.logged_in) /\
  get_current_user toy 647999 (Some Demo.first_token) Demo.logged_in
  = Return (1%Z, Demo.alice, plus_seven_days Demo.noon) /\
  get_current_user toy 648001 (Some Demo.first_token) Demo.logged_in
  = Raises (HTTPException 401 (Literal "Invalid or expired session")).
Proof.
  split; [exact registered_well_formed |]. split; [reflexivity |].
  destruct (@login_token_is_valid_for_seven_days
              toy Demo.first_token Demo.noon 43200 Demo.alice Demo.secret
              Demo.registered 1%Z Demo.alice Demo.first_token
              (plus_seven_days Demo.noon) Demo.logged_in
              registered_well_formed eq_refl) as (_ & _ & _ & H).
  split.
  - apply (proj1 (H 647999%N)). reflexivity.
  - apply (proj2 (H 648001%N)). reflexivity.
Defined.

Lemma login_ends_the_users_other_sessions_witness :
  well_formed toy Demo.logged_in /\
  login_endpoint toy Demo.second_token Demo.noon 43200 Demo.alice Demo.secret
                 Demo.logged_in
  = (Return (1%Z, Demo.alice, Demo.second_token, plus_seven_days Demo.noon),
     snd (login_endpoint toy Demo.second_token Demo.noon 43200 Demo.alice
                         Demo.secret Demo.logged_in)) /\
  Demo.first_token <> Demo.second_token /\
  verify_session_token toy 50000 Demo.first_token Demo.logged_in
  = Return (Some (1%Z, Demo.alice, plus_seven_days Demo.noon)) /\
  verify_session_token
    toy 50000 Demo.first_token
    (snd (login_endpoint toy Demo.second_token Demo.noon 43200 Demo.alice
                         Demo.secret Demo.logged_in))
  = Return None.
Proof.
  split; [exact logged_in_well_formed |]. split; [reflexivity |].
  split; [discriminate |]. split; [reflexivity |].
  rewrite (@login_ends_the_users_other_sessions
             toy Demo.second_token Demo.noon 43200 Demo.alice Demo.secret
             Demo.logged_in 1%Z Demo.alice (plus_seven_days Demo.noon)
             (snd (login_endpoint toy Demo.second_token Demo.noon 43200
                                  Demo.alice Demo.secret Demo.logged_in))
             50000 Demo.first_token logged_in_well_formed eq_refl).
  - reflexivity.
  - discriminate.
Defined.

Lemma refused_request_changes_nothing_witness :
  login_endpoint toy Demo.second_token Demo.noon 43200 Demo.alice
                 Demo.first_token Demo.registered
  = (Raises (HTTPException 401 (Literal "Invalid username or password")),
     Demo.registered) /\
  Demo.registered = Demo.registered.
Proof.
  split; [reflexivity |].
  exact (proj1 (@refused_request_changes_nothing
                  toy Demo.salt Demo.second_token Demo.noon 43200 Demo.alice
                  Demo.first_token Demo.registered
                  (HTTPException 401 (Literal "Invalid username or password"))
                  Demo.registered (or_intror eq_refl))).
Defined.


Lemma login_with_a_padded_name_is_refused_witness :
  strip toy Demo.padded <> Demo.padded /\
  encode_utf8 toy Demo.padded <> None /\
  login_endpoint toy Demo.first_token Demo.noon 43200 Demo.padded Demo.secret
                 Demo.registered
  = (Raises (HTTPException 401 (Literal "Invalid username or password")),
     Demo.registered).
Proof.
  split; [discriminate |]. split; [discriminate |].
  apply (@login_with_a_padded_name_is_refused
           toy [Register Demo.salt 43100 Demo.padded Demo.secret]
           Demo.first_token Demo.noon 43200 Demo.padded Demo.secret);
    discriminate.
Defined.

Lemma registered_name_cannot_be_registered_again_witness :
  register_endpoint toy Demo.salt 43100 Demo.padded Demo.secret empty
  = (Return (1%Z, Demo.alice, 43100%N), Demo.registered) /\
  strip toy Demo.alice = strip toy Demo.padded /\
  encode_utf8 toy Demo.alice <> None /\
  register_endpoint toy Demo.salt 43300 Demo.alice Demo.secret Demo.registered
  = (Raises (HTTPException 400 (Literal "Username already exists")),
     Demo.registered).
Proof.
  split; [reflexivity |]. split; [reflexivity |]. split; [discriminate |].
  apply (@registered_name_cannot_be_registered_again
           toy Demo.salt 43100 Demo.padded Demo.secret empty
           (1%Z, Demo.alice, 43100%N) Demo.registered
           Demo.salt 43300 Demo.alice Demo.secret eq_refl eq_refl).
  discriminate.
Defined.


End AccountsFacts.
